(** * ADF_Plotter: [script.js]

    A shallow embedding of [script.js]: [dot] and [computeADF] (lines 47-106),
    the reader of the coordinate file [readXYZFile] (lines 3-45), [plotADF]
    (lines 108-151), the two event listeners (lines 153-185) and the global
    [chartInstance] of line 1. JavaScript numbers are modelled as IEEE 754
    binary64 values ([spec_float] with [prec = 53] and [emax = 1024], the
    Standard Library's executable specification of double arithmetic), and
    strings as sequences of UTF-16 code units. [computeADF] is embedded
    twice: as a function of the values of its arguments, and, for what it
    does to the arrays it is given and to those it makes, as a program on a
    memory of arrays held by reference. *)

From Stdlib Require Import String Ascii.
From Stdlib Require Import ZArith NArith List Bool Lia Arith Sorted Permutation.
From Stdlib Require Import SpecFloat.
Import ListNotations.

Set Implicit Arguments.

(** ** JavaScript numbers *)

Module Num.

Definition prec : Z := 53.
Definition emax : Z := 1024.

(** A JavaScript Number. *)
Definition float : Type := spec_float.

Definition NaN : float := S754_nan.
Definition pzero : float := S754_zero false.

Definition add (x y : float) : float := SFadd prec emax x y.
Definition sub (x y : float) : float := SFsub prec emax x y.
Definition mul (x y : float) : float := SFmul prec emax x y.
Definition div (x y : float) : float := SFdiv prec emax x y.
Definition sqrt (x : float) : float := SFsqrt prec emax x.

(** [x < y], [x <= y], [x > y], [x >= y] and [x === y] on numbers: all false
    as soon as one side is NaN; the two zeros are equal. *)
Definition ltb (x y : float) : bool := SFltb x y.
Definition leb (x y : float) : bool := SFleb x y.
Definition gtb (x y : float) : bool := SFltb y x.
Definition geb (x y : float) : bool := SFleb y x.
Definition eqb (x y : float) : bool := SFeqb x y.

Definition is_nan (x : float) : bool :=
  match x with S754_nan => true | _ => false end.

(** The Number of an integer (exact below 2^53, rounded to nearest above). *)
Definition of_Z (z : Z) : float := binary_normalize prec emax z 0 false.
Definition of_nat (n : nat) : float := of_Z (Z.of_nat n).

(** The Number a decimal literal [n / 10^k] denotes, for [n] and [10^k]
    below 2^53: the correctly rounded quotient of two exact integers. *)
Definition dec (n : Z) (k : nat) : float := div (of_Z n) (of_Z (10 ^ Z.of_nat k)).

(** The integer part of a Number, rounded down (the Number itself when it
    is integral); 0 for the zeros and the non-finite values. *)
Definition floorZ (x : float) : Z :=
  match x with
  | S754_finite s m e => Z.shiftl (cond_Zopp s (Zpos m)) e
  | _ => 0%Z
  end.

End Num.

Import Num.

Declare Scope js_scope.
Delimit Scope js_scope with js.
Infix "+" := add : js_scope.
Infix "-" := sub : js_scope.
Infix "*" := mul : js_scope.
Infix "/" := div : js_scope.
Infix "<" := ltb : js_scope.
Infix ">" := gtb : js_scope.
Infix ">=" := geb : js_scope.
Infix "<=" := leb : js_scope.
Infix "===" := eqb (at level 70) : js_scope.

(** ** The [Math] object (ECMAScript 21.3.2), without [acos] *)

Module JSMath.

(** [Math.PI]: the Number nearest to pi, 0x1.921fb54442d18p+1. *)
Definition PI : float := S754_finite false 7074237752028440 (-51).

(** [Math.floor]: NaN, the infinities, the zeros and integral Numbers are
    returned as they are; a Number in (0,1) gives +0. *)
Definition floor (x : float) : float :=
  match x with
  | S754_finite s m e =>
      if (0 <=? e)%Z then x
      else match floorZ x with
           | Z0 => pzero
           | n => of_Z n
           end
  | _ => x
  end.

(** [Math.round]: the integral Number closest to [x], ties towards
    +infinity; a Number in [-0.5, 0) gives -0 and one in (0, 0.5) gives +0. *)
Definition round (x : float) : float :=
  match x with
  | S754_finite s m e =>
      if (0 <=? e)%Z then x
      else match Z.shiftr (2 * cond_Zopp s (Zpos m) + 2 ^ (- e)) (- e + 1) with
           | Z0 => S754_zero s
           | n => of_Z n
           end
  | _ => x
  end.

(** [Math.max] and [Math.min] of two arguments: NaN when either is NaN;
    +0 is larger than -0. *)
Definition max (a b : float) : float :=
  if is_nan a || is_nan b then NaN
  else if (a < b)%js then b
  else if (b < a)%js then a
  else match a with S754_zero true => b | _ => a end.

Definition min (a b : float) : float :=
  if is_nan a || is_nan b then NaN
  else if (a < b)%js then a
  else if (b < a)%js then b
  else match a with S754_zero false => b | _ => a end.

End JSMath.

(** ** Data model *)

(** A position, a displacement or the box: a JavaScript array of three
    numbers, read at the indices 0, 1 and 2. *)
Record vec3 : Type := Vec { c0 : float; c1 : float; c2 : float }.

(** What [computeADF] returns: the object [{ theta, adf }]. *)
Record result : Type := Result { theta : list float; adf : list float }.

(** The state outside [computeADF]: the global [chartInstance] of line 1
    (the handle of the chart on display, if any) and the lines written to
    the console. *)
Record world : Type := World { chartInstance : option nat; console : list string }.

(** A JavaScript string: the sequence of its UTF-16 code units. *)
Definition jsstring : Type := list N.

(** What the code throws, or lets the engine throw: an [Error] with its
    message, the [TypeError] of a property read on [undefined], the
    [RangeError] of an invalid array length. *)
Inductive exn : Type :=
| Error (message : jsstring)
| TypeError
| RangeError.

Inductive completion (A : Type) : Type :=
| Normal (a : A)
| Throw (e : exn).

Arguments Normal {A} a.
Arguments Throw {A} e.

(** The default of the reads [positions[i]] and [delta[j]]: the loops keep
    every such index within its array, so it is never what a read returns. *)
Definition undefined_vec : vec3 := Vec NaN NaN NaN.

(** The text of the warning of line 99. *)
Definition no_angles_warning : string := "No angles were counted within r_max.".

(** ** Array helpers *)

(** [a.map((x, idx) => f(x, idx))]. *)
Definition mapi {A B : Type} (f : A -> nat -> B) (a : list A) : list B :=
  map (fun p => f (snd p) (fst p)) (combine (seq 0 (length a)) a).

(** [a[i] += 2] on an array of numbers, for [i] within the array: the test
    of line 90 lets no other index through ([count_angle_index] below). *)
Fixpoint bump (a : list float) (i : nat) : list float :=
  match a, i with
  | [], _ => []
  | x :: a', O => (x + of_Z 2)%js :: a'
  | x :: a', S i' => x :: bump a' i'
  end.

(** [a.slice(0, -1)]: all but the last element. *)
Definition slice_but_last {A : Type} (a : list A) : list A :=
  firstn (length a - 1) a.

(** ** [dot] and [computeADF] *)

(** [dot(a, b)], lines 47-49. *)
Definition dot (a b : vec3) : float :=
  (c0 a * c0 b + c1 a * c1 b + c2 a * c2 b)%js.

Section ComputeADF.

(** [Math.acos] is implementation-approximated (ECMAScript 21.3.2.2): it is
    a parameter of the model. *)
Variable acos : float -> float.

Variable positions : list vec3.
Variable boxSize : vec3.
Variable rMax : float.

(** The number of bins, once lines 53 and 55 have made their arrays of
    [numBins + 1] and [numBins] elements: a natural number. What the two lines
    do with a Number that is no array length is in [call_computeADF] below. *)
Variable numBins : nat.

(** Line 53: [numBins + 1] edges, [(i * 180) / numBins]. *)
Definition thetaBin : list float :=
  map (fun i => (of_nat i * of_Z 180 / of_nat numBins)%js) (seq 0 (numBins + 1)).

(** Line 54 (an index past the end reads [undefined], NaN in arithmetic). *)
Definition dtheta : float := (nth 1 thetaBin NaN - nth 0 thetaBin NaN)%js.

(** Lines 58-62: the raw displacement of every particle from particle [i]. *)
Definition raw_delta (i : nat) : list vec3 :=
  let pi := nth i positions undefined_vec in
  map (fun pos => Vec (c0 pos - c0 pi) (c1 pos - c1 pi) (c2 pos - c2 pi))%js positions.

(** Line 67: the minimum-image reduction of one component. *)
Definition min_image (d b : float) : float := (d - b * JSMath.round (d / b))%js.

(** Lines 65-69: every displacement reduced on its three axes. *)
Definition delta (i : nat) : list vec3 :=
  map (fun d => Vec (min_image (c0 d) (c0 boxSize))
                    (min_image (c1 d) (c1 boxSize))
                    (min_image (c2 d) (c2 boxSize)))
      (raw_delta i).

(** Line 71. *)
Definition norm (d : vec3) : float := sqrt (dot d d).
Definition distances (i : nat) : list float := map norm (delta i).

(** Lines 72-74: the index of every particle at a distance in (0, rMax),
    the others marked -1 and then filtered out. *)
Definition neighbors (i : nat) : list Z :=
  filter (fun idx => negb (idx =? -1)%Z)
         (mapi (fun d idx => if (d > pzero)%js && (d < rMax)%js then Z.of_nat idx else (-1)%Z)
               (distances i)).

(** Lines 86-89: the angle of a pair of displacements and its bin. *)
Definition cosTheta (vecIJ vecIK : vec3) : float :=
  let c := (dot vecIJ vecIK / (norm vecIJ * norm vecIK))%js in
  JSMath.min (of_Z 1) (JSMath.max (of_Z (-1)) c).

Definition angle (vecIJ vecIK : vec3) : float :=
  (acos (cosTheta vecIJ vecIK) * of_Z 180 / JSMath.PI)%js.

Definition binIndex (th : float) : float := JSMath.floor (th / dtheta)%js.

(** Lines 90-92. *)
Definition count_angle (hist : list float) (th : float) : list float :=
  let b := binIndex th in
  if (b >= pzero)%js && (b < of_nat numBins)%js
  then bump hist (Z.to_nat (floorZ b))
  else hist.

(** Lines 78-92: the body of the pair loop, for the neighbour indices [j]
    and [k] of central particle [i]. *)
Definition pair_body (dl : list vec3) (hist : list float) (j k : Z) : list float :=
  let vecIJ := nth (Z.to_nat j) dl undefined_vec in
  let vecIK := nth (Z.to_nat k) dl undefined_vec in
  if (norm vecIJ === pzero)%js || (norm vecIK === pzero)%js then hist
  else count_angle hist (angle vecIJ vecIK).

(** Lines 76-94: [jIdx] from 0, [kIdx] from [jIdx + 1], both below
    [neighbors.length]. *)
Definition pair_loop (dl : list vec3) (nb : list Z) (hist : list float) : list float :=
  fold_left
    (fun h jIdx =>
       fold_left
         (fun h' kIdx => pair_body dl h' (nth jIdx nb (-1)%Z) (nth kIdx nb (-1)%Z))
         (seq (jIdx + 1) (length nb - (jIdx + 1))) h)
    (seq 0 (length nb)) hist.

(** Lines 55-95: the histogram before normalisation. *)
Definition raw_counts : list float :=
  fold_left (fun h i => pair_loop (delta i) (neighbors i) h)
            (seq 0 (length positions))
            (repeat pzero numBins).

(** Line 97. *)
Definition totalCounts : float := fold_left add raw_counts pzero.

(** Line 103. *)
Definition dthetaRad : float := (dtheta * JSMath.PI / of_Z 180)%js.

(** Lines 97-105: the returned object, of a call that got past lines 53
    and 55. *)
Definition computeADF : result :=
  if (totalCounts === pzero)%js
  then Result (slice_but_last thetaBin) raw_counts
  else Result (slice_but_last thetaBin)
              (map (fun count => (count / (totalCounts * dthetaRad))%js) raw_counts).

(** The same call as a step on the world: its only effect is the warning
    of line 99. *)
Definition computeADF_run (w : world) : result * world :=
  if (totalCounts === pzero)%js
  then (computeADF,
        World (chartInstance w) (console w ++ [no_angles_warning]))
  else (computeADF, w).

End ComputeADF.

(** A JavaScript array holds at most 2^32 - 1 elements. *)
Definition max_array_length : Z := 2 ^ 32 - 1.

(** [numBins] is a length [new Array(numBins)] accepts, and [numBins + 1]
    one [Array.from] accepts: an integral number from 0 to 2^32 - 2. *)
Definition array_length_ok (numBins : float) : bool :=
  (JSMath.floor numBins === numBins)%js && (pzero <= numBins)%js
  && (numBins <= of_Z (max_array_length - 1))%js.

(** The call [computeADF(positions, boxSize, rMax, numBins)], with [numBins]
    any Number: [Array.from({ length: numBins + 1 }, ...)] (line 53) and
    [new Array(numBins)] (line 55) throw a [RangeError], before anything else
    is done, unless [numBins] is a length arrays can have; then [numBins] is
    the natural number the rest of the function is modelled with. *)
Definition call_computeADF (acos : float -> float) (positions : list vec3) (boxSize : vec3)
    (rMax numBins : float) (w : world) : completion (result * world) :=
  if array_length_ok numBins
  then Normal (computeADF_run acos positions boxSize rMax (Z.to_nat (floorZ numBins)) w)
  else Throw RangeError.

(** ** A sample of [Math.acos] and the worked inputs *)

(** The Number nearest to pi/2, 0x1.921fb54442d18p+0: what [Math.acos(0)]
    returns. *)
Definition pio2 : float := S754_finite false 7074237752028440 (-52).

(** 0.7071067811865475, the cosine [computeADF] computes for the vectors
    (-1, 0, 0) and (-1, 1, 0). *)
Definition cos45 : float := dec 7071067811865475 16.

(** The values a correctly rounded [Math.acos] returns at the arguments the
    worked examples reach (1, -1, 0 and 0.7071067811865475), and NaN
    elsewhere. It only serves to run [computeADF] on concrete inputs. *)
Definition acos_sample (x : float) : float :=
  if (x === of_Z 1)%js then pzero
  else if (x === of_Z (-1))%js then JSMath.PI
  else if (x === pzero)%js then pio2
  else if (x === cos45)%js then dec 7853981633974484 16
  else NaN.

(** The boxes [10, 10, 10] and [100, 100, 100]. *)
Definition box10 : vec3 := Vec (of_Z 10) (of_Z 10) (of_Z 10).
Definition box100 : vec3 := Vec (of_Z 100) (of_Z 100) (of_Z 100).

(** The positions (0.5, 5, 5) and (9.5, 5, 5). *)
Definition near_low_face : vec3 := Vec (dec 5 1) (of_Z 5) (of_Z 5).
Definition near_high_face : vec3 := Vec (dec 95 1) (of_Z 5) (of_Z 5).

(** The position (0.5, 6, 5). *)
Definition beside_low_face : vec3 := Vec (dec 5 1) (of_Z 6) (of_Z 5).

Definition origin : vec3 := Vec pzero pzero pzero.
Definition unit_x : vec3 := Vec (of_Z 1) pzero pzero.
Definition unit_y : vec3 := Vec pzero (of_Z 1) pzero.
Definition minus_unit_x : vec3 := Vec (of_Z (-1)) pzero pzero.
Definition diagonal : vec3 := Vec (of_Z 1) (of_Z 1) (of_Z 1).
Definition minus_diagonal : vec3 := Vec (of_Z (-1)) (of_Z (-1)) (of_Z (-1)).

(** A page just loaded: no chart yet, nothing on the console. *)
Definition no_world : world := World None [].

(** The origin with a neighbour on the x axis and one on the y axis. *)
Definition right_angle : list vec3 := [origin; unit_x; unit_y].

(** The distance between (1,0,0) and (0,1,0): the Number nearest to the
    square root of 2, 1.4142135623730951. *)
Definition sqrt2 : float := sqrt (of_Z 2).

(** ** Notions the statements use *)

(** The minimum-image distance from position [a] to position [b] in the
    periodic box, as steps 1-3 of the specification describe it. *)
Definition min_image_distance (boxSize a b : vec3) : float :=
  norm (Vec (min_image (c0 b - c0 a)%js (c0 boxSize))
            (min_image (c1 b - c1 a)%js (c1 boxSize))
            (min_image (c2 b - c2 a)%js (c2 boxSize))).

(** The test of line 73. *)
Definition in_range (rMax d : float) : bool := (d > pzero)%js && (d < rMax)%js.


(** Line 86: the cosine before clamping. *)
Definition raw_cosine (vecIJ vecIK : vec3) : float :=
  (dot vecIJ vecIK / (norm vecIJ * norm vecIK))%js.

(** Every pair of entries of a list, the first before the second, in the
    order the two nested loops of lines 76-77 visit them. *)
Fixpoint ordered_pairs {A : Type} (l : list A) : list (A * A) :=
  match l with
  | [] => []
  | x :: r => map (pair x) r ++ ordered_pairs r
  end.

(** The two nested loops of lines 76-77 over the indices of [nb], with the
    loop body [F]. *)
Definition index_loops {A H : Type} (F : H -> A -> A -> H) (d : A) (nb : list A) (h : H) : H :=
  fold_left
    (fun h jIdx =>
       fold_left (fun h' kIdx => F h' (nth jIdx nb d) (nth kIdx nb d))
                 (seq (jIdx + 1) (length nb - (jIdx + 1))) h)
    (seq 0 (length nb)) h.

(** No periodic wrap applies: the minimum-image reduction leaves every
    displacement between two particles as it is. *)
Definition no_wrap (positions : list vec3) (boxSize : vec3) : Prop :=
  forall i, i < length positions -> delta positions boxSize i = raw_delta positions i.

(** The bin counts [computeADF] can be called with: at least one bin (the
    caller's check of line 175), and [thetaBin], of [numBins + 1] elements,
    is an array. *)
Definition valid_numBins (numBins : nat) : Prop :=
  1 <= numBins /\ (Z.of_nat numBins + 1 <= max_array_length)%Z.

(** The [i]-th edge, [(i * 180) / numBins]. *)
Definition edge (numBins i : nat) : float :=
  (of_nat i * of_Z 180 / of_nat numBins)%js.

(** ** Notions of the number format *)

Definition zero_or_nan (x : float) : Prop := x = pzero \/ x = NaN.

(** The smallest exponent of the format, -1074. *)
Definition emin : Z := SpecFloat.emin prec emax.

(** A non-zero number of sign [s]: the infinity of that sign, or a finite
    number of that sign with an exponent the format can hold. *)
Definition signed_ok (s : bool) (x : float) : Prop :=
  x = S754_infinity s \/ exists m e, x = S754_finite s m e /\ (emin <= e)%Z.

(** A positive number. *)
Definition pos_ok (x : float) : Prop := signed_ok false x.

(** What a bin of the histogram can hold: +0 or a positive number. *)
Definition is_count (x : float) : Prop := x = pzero \/ pos_ok x.

(** A histogram of [numBins] bins. *)
Definition hist_ok (numBins : nat) (h : list float) : Prop :=
  length h = numBins /\ Forall is_count h.

(** The mantissa and the exponent [binary_round_aux] ends with, before it
    decides between zero, a finite number and an infinity. *)
Definition round_m_e (mx ex : Z) (lx : location) : Z * Z :=
  let '(mrs', e') := shr_fexp prec emax mx ex lx in
  let '(mrs'', e'') :=
    shr_fexp prec emax (round_nearest_even (shr_m mrs') (loc_of_shr_record mrs')) e' loc_Exact in
  (shr_m mrs'', e'').

(** A positive mantissa is canonical at its exponent when the exponent is the
    one the format gives to numbers of that magnitude. *)
Definition canonical (m e : Z) : Prop := fexp prec emax (Zdigits2 m + e) = e.

(** The value of a positive finite number, scaled by [2 ^ 1074] to an integer. *)
Definition scaled (m : positive) (e : Z) : Z := (Zpos m * 2 ^ (e + 1074))%Z.

(** A finite number is well formed when its mantissa is canonical and its
    exponent is within the format; the other numbers always are. *)
Definition well_formed (x : float) : Prop :=
  match x with
  | S754_finite _ m e => canonical (Zpos m) e /\ (e <= 971)%Z
  | _ => True
  end.

(** The exponent [SFdiv_core_binary] computes the quotient at. *)
Definition div_exponent (m1 m2 : positive) (e1 e2 : Z) : Z :=
  Z.min (fexp prec emax (Zpos (digits2_pos m1) + e1 - (Zpos (digits2_pos m2) + e2)))
        (e1 - e2).

(** ** The angles of a call, by position *)

(** The displacement [computeADF] works with, from position [p] to position
    [q]: lines 58-62 and 65-69 for one entry of [delta]. *)
Definition displacement (boxSize p q : vec3) : vec3 :=
  Vec (min_image (c0 q - c0 p)%js (c0 boxSize))
      (min_image (c1 q - c1 p)%js (c1 boxSize))
      (min_image (c2 q - c2 p)%js (c2 boxSize)).

(** The displacements from [p] that pass the test of line 73, in the order
    of [positions]: the vectors [delta[j]] for [j] in [neighbors]. *)
Definition neighbor_vectors (positions : list vec3) (boxSize : vec3) (rMax : float)
    (p : vec3) : list vec3 :=
  filter (fun d => in_range rMax (norm d)) (map (displacement boxSize p) positions).

(** The angles the pair loop computes around [p], in the order it visits
    the pairs. *)
Definition angles_at (acos : float -> float) (positions : list vec3) (boxSize : vec3)
    (rMax : float) (p : vec3) : list float :=
  map (fun vw => angle acos (fst vw) (snd vw))
      (ordered_pairs (neighbor_vectors positions boxSize rMax p)).

(** Every angle of a call, central particle after central particle. *)
Definition all_angles (acos : float -> float) (positions : list vec3) (boxSize : vec3)
    (rMax : float) : list float :=
  flat_map (angles_at acos positions boxSize rMax) positions.

(** A coordinate that is not a number. *)
Definition has_nan (p : vec3) : bool :=
  is_nan (c0 p) || is_nan (c1 p) || is_nan (c2 p).

(** ** Counting the angles of a bin *)

(** Lines 89-90: the bin an angle is counted in, if any. *)
Definition bin_of (numBins : nat) (th : float) : option nat :=
  let b := binIndex numBins th in
  if (b >= pzero)%js && (b < of_nat numBins)%js then Some (Z.to_nat (floorZ b)) else None.

(** How many of the angles are counted in bin [b]. *)
Definition binned (numBins : nat) (angles : list float) (b : nat) : nat :=
  length (filter (fun th => match bin_of numBins th with
                            | Some i => i =? b
                            | None => false
                            end) angles).

(** How many of the angles pass the test of line 90. *)
Definition counted (numBins : nat) (angles : list float) : nat :=
  length (filter (fun th => match bin_of numBins th with
                            | Some _ => true
                            | None => false
                            end) angles).

(** ** Notions of the edge cases *)

(** A box edge the minimum-image formula cannot work with: a zero, an
    infinity, or not a number. *)
Definition degenerate (b : float) : bool :=
  match b with
  | S754_finite _ _ _ => false
  | _ => true
  end.

Definition has_degenerate_edge (b : vec3) : bool :=
  degenerate (c0 b) || degenerate (c1 b) || degenerate (c2 b).

(** Not a negative number, and not -0. *)
Definition not_negative (x : float) : Prop :=
  match x with
  | S754_nan => True
  | S754_zero s | S754_infinity s | S754_finite s _ _ => s = false
  end.

(** Particle [p] is out of range of particle [q], both ways. *)
Definition out_of_range (boxSize : vec3) (rMax : float) (p q : vec3) : Prop :=
  in_range rMax (norm (displacement boxSize p q)) = false /\
  in_range rMax (norm (displacement boxSize q p)) = false.

(** ** Notions of the rounding error *)

(** A positive normal number: a canonical mantissa of 53 bits. *)
Definition normal (m : positive) (e : Z) : Prop :=
  canonical (Zpos m) e /\ (2 ^ 52 <= Zpos m < 2 ^ 53)%Z.

(** The value of a positive finite number scaled by [2 ^ 1074], and 0 for
    the other numbers. *)
Definition scaled_value (x : float) : Z :=
  match x with
  | S754_finite false m e => scaled m e
  | _ => 0%Z
  end.

(** The sum of the scaled values of an array of numbers. *)
Definition scaled_sum (a : list float) : Z := fold_right Z.add 0%Z (map scaled_value a).

(** ** Strings *)

(** The string of an ASCII literal. *)
Definition str (s : string) : jsstring := map N_of_ascii (list_ascii_of_string s).

(** [x === y] on strings. *)
Definition same (x y : jsstring) : bool :=
  if list_eq_dec N.eq_dec x y then true else false.

(** The code units [trim] removes and [\s] matches: WhiteSpace and
    LineTerminator of ECMAScript (TAB, LF, VT, FF, CR, SP, NBSP, U+1680,
    U+2000 to U+200A, LS, PS, U+202F, U+205F, U+3000, U+FEFF). *)
Definition is_white (c : N) : bool :=
  ((9 <=? c) && (c <=? 13) || (c =? 32) || (c =? 160) || (c =? 5760)
   || (8192 <=? c) && (c <=? 8202) || (c =? 8232) || (c =? 8233) || (c =? 8239)
   || (c =? 8287) || (c =? 12288) || (c =? 65279))%N.

Fixpoint drop_white (s : jsstring) : jsstring :=
  match s with
  | c :: s' => if is_white c then drop_white s' else s
  | [] => []
  end.

(** [s.trim()]. *)
Definition trim (s : jsstring) : jsstring := rev (drop_white (rev (drop_white s))).

(** [s.split('\n')]: the pieces between the line feeds, one more than there
    are line feeds. *)
Fixpoint split_lines (s : jsstring) : list jsstring :=
  match s with
  | [] => [[]]
  | c :: s' =>
      if (c =? 10)%N then [] :: split_lines s'
      else match split_lines s' with
           | l :: ls => (c :: l) :: ls
           | [] => [[c]]
           end
  end.

(** [s.split(/\s+/)]: the pieces between the maximal runs of white space;
    [in_run] says that the code unit before was white space. A string that
    starts (ends) with white space has an empty first (last) piece, and the
    empty string gives one empty piece. *)
Fixpoint split_ws_from (in_run : bool) (s : jsstring) : list jsstring :=
  match s with
  | [] => [[]]
  | c :: s' =>
      if is_white c
      then if in_run then split_ws_from true s' else [] :: split_ws_from true s'
      else match split_ws_from false s' with
           | l :: ls => (c :: l) :: ls
           | [] => [[c]]
           end
  end.

Definition split_ws (s : jsstring) : list jsstring := split_ws_from false s.

(** [a.indexOf(x)] on an array of strings: the first index, or -1. *)
Fixpoint indexOf_from (a : list jsstring) (x : jsstring) (i : Z) : Z :=
  match a with
  | [] => (-1)%Z
  | y :: a' => if same y x then i else indexOf_from a' x (i + 1)%Z
  end.

Definition indexOf (a : list jsstring) (x : jsstring) : Z := indexOf_from a x 0.

(** [a.slice(s, e)] for [s] and [e] not negative (the only ones the code
    passes): the elements from index [s] up to, not including, index [e]. *)
Definition slice {A : Type} (a : list A) (s e : Z) : list A :=
  skipn (Z.to_nat s) (firstn (Z.to_nat e) a).

(** ** The messages of [readXYZFile] *)

Definition timestep_message : jsstring :=
  str "Expected 'Timestep' in second line of .xyz file".
Definition box_message : jsstring :=
  str "'box' keyword not found in second line of .xyz file".
Definition box_data_message : jsstring :=
  str "Insufficient data for box dimensions after 'box' keyword".

(** ** [readXYZFile] *)

Section ReadXYZ.

(** [parseInt] (of one argument) and [parseFloat] are parameters of the
    model, as [Math.acos] is. *)
Variable parseInt : jsstring -> float.
Variable parseFloat : jsstring -> float.

(** Lines 9-29: the second line gives the box. [lines[1]] is [undefined]
    when the text has no line feed, and [undefined.trim()] throws. *)
Definition read_header (lines : list jsstring) : completion vec3 :=
  match nth_error lines 1 with
  | None => Throw TypeError
  | Some line1 =>
      let boxLine := split_ws (trim line1) in
      if negb (same (nth 0 boxLine []) (str "Timestep")) then Throw (Error timestep_message)
      else
        let boxIndex := indexOf boxLine (str "box") in
        if (boxIndex =? -1)%Z then Throw (Error box_message)
        else
          let boxData := map parseFloat (slice boxLine (boxIndex + 1) (boxIndex + 7)) in
          if length boxData <? 6 then Throw (Error box_data_message)
          else Normal (Vec (nth 1 boxData NaN - nth 0 boxData NaN)%js
                           (nth 3 boxData NaN - nth 2 boxData NaN)%js
                           (nth 5 boxData NaN - nth 4 boxData NaN)%js)
  end.

(** Lines 33-36: what one line adds to [positions]: the numbers of its
    second, third and fourth tokens, or nothing when it has fewer than four
    tokens. *)
Definition read_line (line : jsstring) : list vec3 :=
  let parts := split_ws (trim line) in
  if 4 <=? length parts
  then match map parseFloat (slice parts 1 4) with
       | [x; y; z] => [Vec x y z]
       | _ => []
       end
  else [].

(** Lines 31-37: the loop, at index [i], with [rest] the lines from index
    [i] on. [lines[i]] is [undefined] past the last line, and
    [undefined.trim()] throws. *)
Fixpoint read_positions (numParticles : float) (i : nat) (rest : list jsstring)
    (positions : list vec3) {struct rest} : completion (list vec3) :=
  if (of_nat i < of_Z 2 + numParticles)%js
  then match rest with
       | [] => Throw TypeError
       | line :: rest' =>
           read_positions numParticles (S i) rest' (positions ++ read_line line)
       end
  else Normal positions.

(** Lines 8-37, from the lines of the text. *)
Definition read_lines (lines : list jsstring) : completion (list vec3 * vec3) :=
  let numParticles := parseInt (trim (nth 0 lines [])) in
  match read_header lines with
  | Throw e => Throw e
  | Normal boxSize =>
      match read_positions numParticles 2 (skipn 2 lines) [] with
      | Throw e => Throw e
      | Normal positions => Normal (positions, boxSize)
      end
  end.

(** Lines 6-39, the [try] block up to the call of [callback]: the
    arguments [callback] is called with, or what is thrown before. *)
Definition read_xyz (text : jsstring) : completion (list vec3 * vec3) :=
  read_lines (split_lines text).

End ReadXYZ.

(** The text with a carriage return before every line feed. *)
Fixpoint crlf (s : jsstring) : jsstring :=
  match s with
  | [] => []
  | c :: s' => if (c =? 10)%N then 13%N :: 10%N :: crlf s' else c :: crlf s'
  end.

(** No code unit of the token is white space. *)
Definition blank_free (t : jsstring) : bool := forallb (fun c => negb (is_white c)) t.

(** The last code unit is not white space. *)
Definition ends_black (s : jsstring) : Prop :=
  exists s' c, s = s' ++ [c] /\ is_white c = false.

(** The same line, up to a carriage return at its end. *)
Definition same_line (a b : jsstring) : Prop := a = b \/ a = b ++ [13%N].

(** ** The page *)

(** A [Chart] object: the labels and the data it was made with, and whether
    [destroy] was called on it. *)
Record chart : Type := Chart { labels : list jsstring; data : list float; destroyed : bool }.

(** The text of the element [error]: a string of the program, or the
    message of an error the engine threw (its wording is the engine's). *)
Inductive text_content : Type :=
| Text (s : jsstring)
| MessageOf (e : exn).

(** [error.message]. *)
Definition message (e : exn) : text_content :=
  match e with
  | Error m => Text m
  | _ => MessageOf e
  end.

(** What the handlers read and write: the globals, the [Chart] objects made
    so far (the handle of a chart is its index), the text of the element
    [error], and [plotButton.disabled]. *)
Record page : Type :=
  Page { globals : world; charts : list chart; error_text : text_content; plot_disabled : bool }.

(** What a click that passed the checks hands to [readXYZFile] and its
    callback: the text of the file, [rMax] and [numBins]. *)
Record request : Type := Request { req_text : jsstring; req_rMax : float; req_numBins : float }.

Definition no_file_message : jsstring := str "Please select a file first.".
Definition radius_message : jsstring := str "Please enter a valid radius (rMax > 0).".
Definition bins_message : jsstring :=
  str "Please enter a valid number of bins (numBins " ++ [8805%N] ++ str " 1).".

Definition set_error (t : text_content) (p : page) : page :=
  Page (globals p) (charts p) t (plot_disabled p).

(** [chartInstance.destroy()] on the chart of handle [h]. *)
Fixpoint destroy (h : nat) (cs : list chart) : list chart :=
  match cs, h with
  | [], _ => []
  | c :: cs', O => Chart (labels c) (data c) true :: cs'
  | c :: cs', S h' => c :: destroy h' cs'
  end.

Section Page.

Variable acos : float -> float.
Variable parseInt : jsstring -> float.
Variable parseFloat : jsstring -> float.

(** [val.toFixed(2)]. *)
Variable toFixed2 : float -> jsstring.

(** Lines 108-151 (the canvas of the page exists, and the [Chart]
    constructor returns): the chart on display is destroyed, and a new one is
    made of the labels and the data and stored in [chartInstance]. *)
Definition plotADF (theta adf : list float) (p : page) : page :=
  let cs := match chartInstance (globals p) with
            | Some h => destroy h (charts p)
            | None => charts p
            end in
  Page (World (Some (length cs)) (console (globals p)))
       (cs ++ [Chart (map toFixed2 theta) adf false])
       (error_text p) (plot_disabled p).

(** Lines 154-158. *)
Definition file_changed (file : option jsstring) (p : page) : page :=
  match file with
  | None => p
  | Some _ => Page (globals p) (charts p) (error_text p) false
  end.

(** Lines 160-178: the checks of a click on the plot button; [file] is
    [files[0]] of the file input, the two strings are the values of the
    other inputs. A click that passes them calls [readXYZFile]. *)
Definition plot_clicked (file : option jsstring) (rMaxValue numBinsValue : jsstring)
    (p : page) : page * option request :=
  let rMax := parseFloat rMaxValue in
  let numBins := parseInt numBinsValue in
  match file with
  | None => (set_error (Text no_file_message) p, None)
  | Some f =>
      if is_nan rMax || (rMax <= pzero)%js
      then (set_error (Text radius_message) p, None)
      else if is_nan numBins || (numBins < of_Z 1)%js
      then (set_error (Text bins_message) p, None)
      else (p, Some (Request f rMax numBins))
  end.

(** Lines 180-184: the callback. *)
Definition plot_callback (rMax numBins : float) (positions : list vec3) (boxSize : vec3)
    (p : page) : completion page :=
  match call_computeADF acos positions boxSize rMax numBins (globals p) with
  | Throw e => Throw e
  | Normal (r, w) =>
      Normal (set_error (Text [])
                (plotADF (theta r) (adf r)
                         (Page w (charts p) (error_text p) (plot_disabled p))))
  end.

(** Lines 5-43: [reader.onload], once the text of the file is read; what
    is thrown, by the reading or by the callback, is caught and its message
    shown. *)
Definition file_loaded (rq : request) (p : page) : page :=
  match read_xyz parseInt parseFloat (req_text rq) with
  | Throw e => set_error (message e) p
  | Normal (positions, boxSize) =>
      match plot_callback (req_rMax rq) (req_numBins rq) positions boxSize p with
      | Throw e => set_error (message e) p
      | Normal p' => p'
      end
  end.

(** What happens on the page: a file is chosen (or the choice cleared), the
    plot button is clicked, the text of a file arrives. *)
Inductive event : Type :=
| FileChosen (file : option jsstring)
| PlotClicked (file : option jsstring) (rMaxValue numBinsValue : jsstring)
| FileLoaded (rq : request).

Definition handle (p : page) (ev : event) : page :=
  match ev with
  | FileChosen file => file_changed file p
  | PlotClicked file rMaxValue numBinsValue => fst (plot_clicked file rMaxValue numBinsValue p)
  | FileLoaded rq => file_loaded rq p
  end.

Definition run (evs : list event) (p : page) : page := fold_left handle evs p.

End Page.

(** The charts that are not destroyed are the one [chartInstance] holds. *)
Definition tidy (p : page) : Prop :=
  forall h, (exists c, nth_error (charts p) h = Some c /\ destroyed c = false)
            <-> chartInstance (globals p) = Some h.

(** ** [computeADF] on arrays that are objects *)

(** The arrays a call can reach, each kind held by reference (the reference
    of an array is its index): the arrays of Numbers ([boxSize],
    [positions[i]], [thetaBin], [adf], [delta[j]], [distances]), the arrays of
    arrays of Numbers ([positions], [delta]) and the arrays of indices
    ([neighbors]); and the state outside the function. *)
Record memory : Type :=
  Memory { numbers : list (list float);
           tables : list (list nat);
           index_arrays : list (list Z);
           outside : world }.

(** The returned object [{ theta, adf }]: two references. *)
Record object : Type := Object { theta_ref : nat; adf_ref : nat }.

(** A piece of the program: it returns or throws, and leaves a memory. *)
Definition action (A : Type) : Type := memory -> completion A * memory.

Definition ret {A : Type} (a : A) : action A := fun m => (Normal a, m).

Definition throw {A : Type} (e : exn) : action A := fun m => (Throw e, m).

Definition bind {A B : Type} (c : action A) (k : A -> action B) : action B :=
  fun m => match c m with
           | (Normal a, m') => k a m'
           | (Throw e, m') => (Throw e, m')
           end.

Declare Scope action_scope.
Delimit Scope action_scope with action.
Bind Scope action_scope with action.

Notation "x <- c ;; k" := (bind c (fun x => k))
  (at level 61, c at next level, right associativity) : action_scope.
Notation "c ;; k" := (bind c (fun _ => k))
  (at level 61, right associativity) : action_scope.

Local Open Scope action_scope.

(** A new array: [[...]], [new Array], [Array.from], [map], [filter],
    [slice]. *)
Definition new_numbers (xs : list float) : action nat :=
  fun m => (Normal (length (numbers m)),
            Memory (numbers m ++ [xs]) (tables m) (index_arrays m) (outside m)).

Definition new_table (rows : list nat) : action nat :=
  fun m => (Normal (length (tables m)),
            Memory (numbers m) (tables m ++ [rows]) (index_arrays m) (outside m)).

Definition new_indices (zs : list Z) : action nat :=
  fun m => (Normal (length (index_arrays m)),
            Memory (numbers m) (tables m) (index_arrays m ++ [zs]) (outside m)).

(** The array behind a reference. A reference to nothing is [undefined], and
    reading a property of [undefined] throws. *)
Definition get_numbers (a : nat) : action (list float) :=
  fun m => match nth_error (numbers m) a with
           | Some xs => (Normal xs, m)
           | None => (Throw TypeError, m)
           end.

Definition get_table (a : nat) : action (list nat) :=
  fun m => match nth_error (tables m) a with
           | Some rows => (Normal rows, m)
           | None => (Throw TypeError, m)
           end.

Definition get_indices (a : nat) : action (list Z) :=
  fun m => match nth_error (index_arrays m) a with
           | Some zs => (Normal zs, m)
           | None => (Throw TypeError, m)
           end.

(** [l] with [x] at index [i], for [i] within [l]. *)
Fixpoint store {A : Type} (l : list A) (i : nat) (x : A) : list A :=
  match l, i with
  | [], _ => []
  | _ :: l', O => x :: l'
  | y :: l', S i' => y :: store l' i' x
  end.

(** The array of Numbers behind [a] becomes [xs]: what the assignments
    [d[j] = ...] and [adf[binIndex] += 2] do to their array. *)
Definition put_numbers (a : nat) (xs : list float) : action unit :=
  fun m => (Normal tt,
            Memory (store (numbers m) a xs) (tables m) (index_arrays m) (outside m)).

(** [console.warn]. *)
Definition warn (s : string) : action unit :=
  fun m => (Normal tt,
            Memory (numbers m) (tables m) (index_arrays m)
                   (World (chartInstance (outside m)) (console (outside m) ++ [s]))).

(** [a[i]] where an array is expected: past the end it is [undefined]. *)
Definition element (rows : list nat) (i : nat) : action nat :=
  match nth_error rows i with
  | Some r => ret r
  | None => throw TypeError
  end.

(** [a[j]] for an index [j] read from [neighbors]. *)
Definition element_at (rows : list nat) (j : Z) : action nat :=
  if (j <? 0)%Z then throw TypeError else element rows (Z.to_nat j).

(** [a[j]] in arithmetic: past the end it is [undefined], which is NaN. *)
Definition coordinate (xs : list float) (j : nat) : float := nth j xs NaN.

(** An array of Numbers read at the indices 0, 1 and 2, and the array
    [[x, y, z]]. *)
Definition vec_of (xs : list float) : vec3 :=
  Vec (coordinate xs 0) (coordinate xs 1) (coordinate xs 2).

Definition row3 (v : vec3) : list float := [c0 v; c1 v; c2 v].

(** A loop over the elements of [l], and [l.map(f)] before the new array is
    made. *)
Fixpoint for_each {A : Type} (l : list A) (body : A -> action unit) : action unit :=
  match l with
  | [] => ret tt
  | x :: r => body x ;; for_each r body
  end.

Fixpoint map_each {A B : Type} (l : list A) (f : A -> action B) : action (list B) :=
  match l with
  | [] => ret []
  | x :: r => y <- f x ;; ys <- map_each r f ;; ret (y :: ys)
  end.

Section ComputeADFInMemory.

Variable acos : float -> float.

(** The references [positions] and [boxSize] the function is called with. *)
Variable positions boxSize : nat.

Variable rMax : float.

(** Lines 58-62: a new array of three Numbers for every particle, and the
    new array [delta] of them; [positions[i]] is read once for the three
    coordinates. *)
Definition make_delta (i : nat) : action nat :=
  rows <- get_table positions ;;
  ds <- map_each rows (fun pos =>
          p <- get_numbers pos ;;
          rows' <- get_table positions ;;
          ri <- element rows' i ;;
          pi <- get_numbers ri ;;
          new_numbers [ (coordinate p 0 - coordinate pi 0)%js;
                        (coordinate p 1 - coordinate pi 1)%js;
                        (coordinate p 2 - coordinate pi 2)%js ]) ;;
  new_table ds.

(** Lines 65-69: the three components of every [d] of [delta] are
    overwritten in place. *)
Definition apply_pbc (delta : nat) : action unit :=
  rows <- get_table delta ;;
  for_each rows (fun d =>
    for_each [0; 1; 2] (fun j =>
      xs <- get_numbers d ;;
      bs <- get_numbers boxSize ;;
      put_numbers d (store xs j (min_image (coordinate xs j) (coordinate bs j))))).

(** Line 71. *)
Definition make_distances (delta : nat) : action nat :=
  rows <- get_table delta ;;
  ds <- map_each rows (fun d => xs <- get_numbers d ;; ret (norm (vec_of xs))) ;;
  new_numbers ds.

(** Lines 72-74: the array [map] makes and the one [filter] makes. *)
Definition make_neighbors (distances : nat) : action nat :=
  ds <- get_numbers distances ;;
  marked <- new_indices
              (mapi (fun d idx => if (d > pzero)%js && (d < rMax)%js
                                  then Z.of_nat idx else (-1)%Z) ds) ;;
  ms <- get_indices marked ;;
  new_indices (filter (fun idx => negb (idx =? -1)%Z) ms).

(** Lines 78-92: the body of the pair loop; [n] is the number of bins and
    [dtheta] the value of line 54. *)
Definition pair_step (n : nat) (dtheta : float) (delta neighbors adf : nat)
    (jIdx kIdx : nat) : action unit :=
  nb <- get_indices neighbors ;;
  let j := nth jIdx nb (-1)%Z in
  let k := nth kIdx nb (-1)%Z in
  rows <- get_table delta ;;
  rj <- element_at rows j ;;
  rk <- element_at rows k ;;
  xj <- get_numbers rj ;;
  xk <- get_numbers rk ;;
  let vecIJ := vec_of xj in
  let vecIK := vec_of xk in
  if (norm vecIJ === pzero)%js || (norm vecIK === pzero)%js then ret tt
  else
    let th := angle acos vecIJ vecIK in
    let b := JSMath.floor (th / dtheta)%js in
    if (b >= pzero)%js && (b < of_nat n)%js
    then h <- get_numbers adf ;; put_numbers adf (bump h (Z.to_nat (floorZ b)))
    else ret tt.

(** Lines 57-95, for one central particle; the length of [neighbors],
    which no line changes, is read once for the two loops of lines 76-77. *)
Definition central (n : nat) (dtheta : float) (adf : nat) (i : nat) : action unit :=
  delta <- make_delta i ;;
  apply_pbc delta ;;
  distances <- make_distances delta ;;
  neighbors <- make_neighbors distances ;;
  nb <- get_indices neighbors ;;
  for_each (seq 0 (length nb)) (fun jIdx =>
    for_each (seq (jIdx + 1) (length nb - (jIdx + 1))) (fun kIdx =>
      pair_step n dtheta delta neighbors adf jIdx kIdx)).

(** Lines 51-106. Lines 53 and 55 throw a [RangeError] unless [numBins]
    is a length arrays can have; then [numBins] is the natural number [n], as
    in [call_computeADF]. A call that throws there has made no array, or only
    a [thetaBin] that nothing refers to any more: it leaves the memory as it
    was. On the path of line 100 the returned [adf] is the array the loops
    counted in; on the other one it is the new array of line 104. *)
Definition computeADF_in (numBins : float) : action object :=
  rows <- get_table positions ;;
  let numParticles := length rows in
  if array_length_ok numBins then
    let n := Z.to_nat (floorZ numBins) in
    thetaBin_r <- new_numbers (thetaBin n) ;;
    tb <- get_numbers thetaBin_r ;;
    let dtheta := (coordinate tb 1 - coordinate tb 0)%js in
    adf_r <- new_numbers (repeat pzero n) ;;
    for_each (seq 0 numParticles) (central n dtheta adf_r) ;;
    h <- get_numbers adf_r ;;
    let totalCounts := fold_left add h pzero in
    if (totalCounts === pzero)%js then
      warn no_angles_warning ;;
      tb' <- get_numbers thetaBin_r ;;
      theta_r <- new_numbers (slice_but_last tb') ;;
      ret (Object theta_r adf_r)
    else
      let dthetaRad := (dtheta * JSMath.PI / of_Z 180)%js in
      h' <- get_numbers adf_r ;;
      normalized_r <- new_numbers (map (fun count => (count / (totalCounts * dthetaRad))%js) h') ;;
      tb' <- get_numbers thetaBin_r ;;
      theta_r <- new_numbers (slice_but_last tb') ;;
      ret (Object theta_r normalized_r)
  else throw RangeError.

End ComputeADFInMemory.

(** The arrays behind the references [pa] and [ba] hold the positions and
    the box. *)
Definition holds (m : memory) (pa ba : nat) (positions : list vec3) (boxSize : vec3) : Prop :=
  (exists rows, nth_error (tables m) pa = Some rows /\
     Forall2 (fun r p => exists xs, nth_error (numbers m) r = Some xs /\ vec_of xs = p)
             rows positions) /\
  (exists bs, nth_error (numbers m) ba = Some bs /\ vec_of bs = boxSize).

(** What a call returned, read from the memory it left. *)
Definition returned (cm : completion object * memory) : completion result :=
  match cm with
  | (Normal o, m) =>
      match nth_error (numbers m) (theta_ref o), nth_error (numbers m) (adf_ref o) with
      | Some t, Some a => Normal (Result t a)
      | _, _ => Throw TypeError
      end
  | (Throw e, _) => Throw e
  end.

(** The state of the loop of line 57: the histogram, and the arrays made so
    far. *)
Definition loop_state : Type :=
  (list float * list (list float) * list (list nat) * list (list Z))%type.

(** ** Samples of the library functions and of the inputs *)

(** The value of a string of decimal digits. *)
Fixpoint digits_value (s : jsstring) (acc : Z) : option Z :=
  match s with
  | [] => Some acc
  | c :: s' =>
      if ((48 <=? c) && (c <=? 57))%N
      then digits_value s' (10 * acc + (Z.of_N c - 48))%Z
      else None
  end.

(** A sample of [parseInt] and [parseFloat]: the value of a string of at
    most 15 decimal digits, and NaN for any other string (what they return
    for the strings without a leading digit that the examples use). It only
    serves to run the handlers on concrete inputs. *)
Definition parse_digits (s : jsstring) : float :=
  match s with
  | [] => NaN
  | _ => match digits_value s 0 with
         | Some z => of_Z z
         | None => NaN
         end
  end.

(** The decimal digits of a natural number. *)
Fixpoint decimal (fuel : nat) (n : Z) (acc : jsstring) : jsstring :=
  match fuel with
  | O => acc
  | S fuel' =>
      let acc' := (48 + Z.to_N (n mod 10))%N :: acc in
      if (n <? 10)%Z then acc' else decimal fuel' (n / 10) acc'
  end.

Definition decimal_digits (n : Z) : jsstring := decimal (S (Z.to_nat (Z.log2 n))) n [].

(** [x.toFixed(2)] (ECMAScript 21.1.3.3) for the numbers of magnitude below
    10^21: with [n] the integer nearest to [100 x] (the larger one of two),
    the digits of [n / 100], a point and the two digits of [n mod 100], after
    a minus sign for a negative [x]. Beyond (where [toFixed] falls back on
    [ToString]) the empty string: it only serves to run the handlers on
    concrete inputs. *)
Definition toFixed2_sample (x : float) : jsstring :=
  match x with
  | S754_nan => str "NaN"
  | S754_infinity s => if s then str "-Infinity" else str "Infinity"
  | S754_zero _ => str "0.00"
  | S754_finite s m e =>
      let n := Z.shiftr (Z.shiftl (200 * Zpos m) e + 1) 1 in
      if (10 ^ 23 <=? n)%Z then []
      else (if s then str "-" else [])
           ++ decimal_digits (n / 100) ++ str "."
           ++ decimal 1 (n mod 100 / 10) [] ++ decimal 1 (n mod 10) []
  end.

(** The line feed. *)
Definition LF : jsstring := [10%N].

(** A file of three particles at a right angle in the box [100, 100, 100],
    one of two particles, and one whose first line is no number. *)
Definition right_angle_xyz : jsstring :=
  str "3" ++ LF ++ str "Timestep 0 box 0 100 0 100 0 100" ++ LF
  ++ str "A 0 0 0" ++ LF ++ str "A 1 0 0" ++ LF ++ str "A 0 1 0".

Definition pair_xyz : jsstring :=
  str "2" ++ LF ++ str "Timestep 0 box 0 100 0 100 0 100" ++ LF
  ++ str "A 0 0 0" ++ LF ++ str "A 1 0 0".

Definition no_count_xyz : jsstring :=
  str "abc" ++ LF ++ str "Timestep 0 box 0 100 0 100 0 100" ++ LF ++ str "A 0 0 0".

(** A page just loaded: no chart, an empty error text, the button disabled. *)
Definition new_page : page := Page no_world [] (Text []) true.

(** The right-angle example in memory: the three positions and the box. *)
Definition right_angle_memory : memory :=
  Memory [row3 origin; row3 unit_x; row3 unit_y; row3 box100] [[0; 1; 2]] [] no_world.

(** The same positions and box at other references, among other arrays and
    in another state of the world. *)
Definition other_memory : memory :=
  Memory [row3 box100; row3 unit_y; [of_Z 7]; row3 unit_x; row3 origin]
         [[]; [4; 3; 1]] [[5%Z]] (World (Some 0) ["ready"%string]).

(** ** Facts about arrays *)

Lemma combine_seq_In {A : Type} (a : list A) (s n : nat) (x : A) :
  In (n, x) (combine (seq s (length a)) a) <->
  s <= n /\ nth_error a (n - s) = Some x.
Proof.
  revert s; induction a as [|y a IH]; intros s; simpl.
  - split; [tauto|]. intros [_ H]; destruct (n - s); discriminate.
  - rewrite IH. split.
    + intros [E | [Hs Hn]].
      * inversion E; subst. rewrite Nat.sub_diag. auto.
      * split; [lia|]. replace (n - s) with (S (n - S s)) by lia. exact Hn.
    + intros [Hs Hn]. destruct (Nat.eq_dec s n) as [->|Hne].
      * rewrite Nat.sub_diag in Hn. inversion Hn. auto.
      * right. split; [lia|].
        replace (n - s) with (S (n - S s)) in Hn by lia. exact Hn.
Qed.

Lemma mapi_In {A B : Type} (f : A -> nat -> B) (a : list A) (y : B) :
  In y (mapi f a) <-> exists n x, nth_error a n = Some x /\ y = f x n.
Proof.
  unfold mapi. rewrite in_map_iff. split.
  - intros [[n x] [E H]]. apply combine_seq_In in H. destruct H as [_ H].
    rewrite Nat.sub_0_r in H. exists n, x. auto.
  - intros (n & x & H & E). exists (n, x). split; [auto|].
    apply combine_seq_In. rewrite Nat.sub_0_r. split; [lia|auto].
Qed.

Lemma mapi_length {A B : Type} (f : A -> nat -> B) (a : list A) :
  length (mapi f a) = length a.
Proof.
  unfold mapi. rewrite length_map, length_combine, length_seq. lia.
Qed.

Lemma mapi_nth_error {A B : Type} (f : A -> nat -> B) (a : list A) (n : nat) :
  nth_error (mapi f a) n = option_map (fun x => f x n) (nth_error a n).
Proof.
  unfold mapi.
  assert (G : forall s, nth_error (map (fun p => f (snd p) (fst p))
                                 (combine (seq s (length a)) a)) n
                        = option_map (fun x => f x (s + n)) (nth_error a n)).
  { revert n; induction a as [|y a IH]; intros n s; simpl.
    - destruct n; reflexivity.
    - destruct n; simpl.
      + rewrite Nat.add_0_r. reflexivity.
      + rewrite IH. replace (S s + n) with (s + S n) by lia. reflexivity. }
  apply (G 0).
Qed.

Lemma filter_drops_one {A : Type} (f : A -> bool) (l : list A) (n : nat) (x : A) :
  nth_error l n = Some x -> f x = false ->
  length (filter f l) < length l.
Proof.
  revert n; induction l as [|y l IH]; intros n Hn Hx.
  - destruct n; discriminate.
  - simpl. destruct n; simpl in Hn.
    + inversion Hn; subst. rewrite Hx.
      pose proof (filter_length_le f l). lia.
    + specialize (IH _ Hn Hx). destruct (f y); simpl; lia.
Qed.

Lemma fold_left_id {A B : Type} (f : A -> B -> A) (l : list B) (a : A) :
  (forall x b, In b l -> f x b = x) -> fold_left f l a = a.
Proof.
  revert a; induction l as [|b l IH]; intros a H; simpl; [reflexivity|].
  rewrite H by (left; reflexivity). apply IH. intros; apply H; right; assumption.
Qed.

Lemma bump_length (a : list float) (i : nat) : length (bump a i) = length a.
Proof.
  revert i; induction a as [|x a IH]; intros [|i]; simpl; auto.
Qed.

Lemma bump_nth_same (a : list float) (i : nat) (d : float) :
  i < length a -> nth i (bump a i) d = (nth i a d + of_Z 2)%js.
Proof.
  revert i; induction a as [|x a IH]; intros [|i] H; simpl in *; try lia; auto.
  apply IH; lia.
Qed.

Lemma bump_nth_other (a : list float) (i j : nat) (d : float) :
  i <> j -> nth j (bump a i) d = nth j a d.
Proof.
  revert i j; induction a as [|x a IH]; intros [|i] [|j] H; simpl; auto; try lia.
Qed.

(** ** Facts about numbers *)

Lemma sub_self (x : float) : zero_or_nan (x - x)%js.
Proof.
  destruct x as [[|]|[|]| |s m e]; unfold zero_or_nan; cbn; auto.
  left. unfold sub, SFsub. rewrite Z.sub_diag. reflexivity.
Qed.

Lemma min_image_self (d b : float) : zero_or_nan d -> zero_or_nan (min_image d b).
Proof.
  unfold zero_or_nan, min_image.
  intros [-> | ->]; destruct b as [[|]|[|]| |[|] m e]; cbn; auto.
Qed.

Lemma dot_self_zero (v : vec3) :
  zero_or_nan (c0 v) -> zero_or_nan (c1 v) -> zero_or_nan (c2 v) ->
  zero_or_nan (dot v v).
Proof.
  destruct v as [x y z]; unfold zero_or_nan, dot; simpl.
  intros [-> | ->] [-> | ->] [-> | ->]; cbn; auto.
Qed.

Lemma sqrt_zero_or_nan (x : float) : zero_or_nan x -> zero_or_nan (sqrt x).
Proof. intros [-> | ->]; [left|right]; reflexivity. Qed.

Lemma zero_or_nan_not_positive (x : float) : zero_or_nan x -> (x > pzero)%js = false.
Proof. intros [-> | ->]; reflexivity. Qed.

Lemma eqb_not_ltb (x y : float) : (x === y)%js = true -> (x < y)%js = false.
Proof.
  unfold eqb, ltb, SFeqb, SFltb. destruct (SFcompare x y) as [[| |]|]; auto; discriminate.
Qed.

Lemma SFcompare_antisym (x y : float) :
  SFcompare y x = option_map CompOpp (SFcompare x y).
Proof.
  destruct x as [[|]|[|]| |[|] m e], y as [[|]|[|]| |[|] m' e']; simpl; auto;
    rewrite (Z.compare_antisym e e'); destruct (e ?= e')%Z; simpl; auto;
    change Eq with (CompOpp Eq) at 1;
    rewrite <- (Pos.compare_cont_antisym m m' Eq); simpl;
    try rewrite CompOpp_involutive; reflexivity.
Qed.

Lemma positive_not_zero (x : float) : (x > pzero)%js = true -> (x === pzero)%js = false.
Proof.
  unfold gtb, eqb, ltb, SFltb, SFeqb. rewrite (SFcompare_antisym x pzero).
  destruct (SFcompare x pzero) as [[| |]|]; simpl; auto; discriminate.
Qed.

(** ** Neighbours *)

Lemma delta_nth_error (positions : list vec3) (boxSize : vec3) (i p : nat) :
  nth_error (delta positions boxSize i) p =
  option_map (fun pos =>
     let pi := nth i positions undefined_vec in
     Vec (min_image (c0 pos - c0 pi)%js (c0 boxSize))
         (min_image (c1 pos - c1 pi)%js (c1 boxSize))
         (min_image (c2 pos - c2 pi)%js (c2 boxSize)))
    (nth_error positions p).
Proof.
  unfold delta, raw_delta. rewrite !nth_error_map.
  destruct (nth_error positions p); reflexivity.
Qed.

Lemma delta_length (positions : list vec3) (boxSize : vec3) (i : nat) :
  length (delta positions boxSize i) = length positions.
Proof. unfold delta, raw_delta. rewrite !length_map. reflexivity. Qed.

Lemma distances_nth_error (positions : list vec3) (boxSize : vec3) (i p : nat) :
  nth_error (distances positions boxSize i) p =
  option_map (min_image_distance boxSize (nth i positions undefined_vec))
             (nth_error positions p).
Proof.
  unfold distances. rewrite nth_error_map, delta_nth_error.
  destruct (nth_error positions p); reflexivity.
Qed.

Lemma neighbors_In (positions : list vec3) (boxSize : vec3) (rMax : float) (i : nat) (z : Z) :
  In z (neighbors positions boxSize rMax i) <->
  exists p pos, z = Z.of_nat p /\ nth_error positions p = Some pos /\
    in_range rMax (min_image_distance boxSize (nth i positions undefined_vec) pos) = true.
Proof.
  unfold neighbors. rewrite filter_In, mapi_In. split.
  - intros [(n & d & Hn & ->) Hz].
    rewrite distances_nth_error in Hn.
    destruct (nth_error positions n) as [pos|] eqn:E; [|discriminate].
    inversion Hn; subst d. fold (in_range rMax (min_image_distance boxSize (nth i positions undefined_vec) pos)) in Hz |- *.
    destruct (in_range rMax _) eqn:R; [|discriminate].
    exists n, pos. auto.
  - intros (p & pos & -> & Hp & R). split.
    + exists p, (min_image_distance boxSize (nth i positions undefined_vec) pos).
      rewrite distances_nth_error, Hp. split; [reflexivity|].
      fold (in_range rMax (min_image_distance boxSize (nth i positions undefined_vec) pos)).
      rewrite R. reflexivity.
    + destruct (Z.eqb_spec (Z.of_nat p) (-1)); [lia|reflexivity].
Qed.

Lemma self_distance (boxSize a : vec3) : zero_or_nan (min_image_distance boxSize a a).
Proof.
  unfold min_image_distance, norm. apply sqrt_zero_or_nan, dot_self_zero; simpl;
    apply min_image_self, sub_self.
Qed.

Lemma self_not_in_range (boxSize a : vec3) (rMax : float) :
  in_range rMax (min_image_distance boxSize a a) = false.
Proof.
  unfold in_range. rewrite (zero_or_nan_not_positive (self_distance boxSize a)).
  reflexivity.
Qed.


(** ** Rounding keeps positive numbers positive *)

Lemma shr_1_m (r : shr_record) :
  (0 <= shr_m r)%Z -> shr_m (shr_1 r) = Z.div2 (shr_m r).
Proof.
  destruct r as [m b s]; simpl. destruct m as [|[p|p|]|p]; simpl; try reflexivity; lia.
Qed.

Lemma shr_iter_m (p : positive) (r : shr_record) :
  (0 <= shr_m r)%Z -> shr_m (iter_pos shr_1 p r) = Z.shiftr (shr_m r) (Zpos p).
Proof.
  revert r; induction p as [p IH|p IH|]; intros r Hr; simpl iter_pos.
  - assert (H1 : (0 <= shr_m (shr_1 r))%Z).
    { rewrite shr_1_m by assumption. rewrite Z.div2_spec. apply Z.shiftr_nonneg; assumption. }
    assert (H2 : (0 <= shr_m (iter_pos shr_1 p (shr_1 r)))%Z).
    { rewrite IH by assumption. apply Z.shiftr_nonneg; assumption. }
    rewrite IH, IH, shr_1_m, Z.div2_spec by assumption.
    rewrite !Z.shiftr_shiftr by lia. f_equal. lia.
  - assert (H2 : (0 <= shr_m (iter_pos shr_1 p r))%Z).
    { rewrite IH by assumption. apply Z.shiftr_nonneg; assumption. }
    rewrite IH, IH by assumption.
    rewrite Z.shiftr_shiftr by lia. f_equal. lia.
  - rewrite shr_1_m, Z.div2_spec by assumption. reflexivity.
Qed.

Lemma digits2_size (m : positive) : digits2_pos m = Pos.size m.
Proof. induction m; simpl; congruence. Qed.

Lemma digits2_bounds (m : positive) :
  (2 ^ (Zpos (digits2_pos m) - 1) <= Zpos m < 2 ^ Zpos (digits2_pos m))%Z.
Proof.
  rewrite digits2_size. split.
  - pose proof (Pos.size_le m) as H.
    assert (H' : (2 ^ Zpos (Pos.size m) <= 2 * Zpos m)%Z).
    { rewrite <- Pos2Z.inj_pow. change (2 * Zpos m)%Z with (Zpos m~0). exact H. }
    replace (Zpos (Pos.size m)) with (Z.succ (Zpos (Pos.size m) - 1)) in H' by lia.
    rewrite Z.pow_succ_r in H' by lia. lia.
  - pose proof (Pos.size_gt m) as H. rewrite <- Pos2Z.inj_pow. exact H.
Qed.

Lemma shiftr_positive (m : positive) (n : Z) :
  (0 <= n < Zpos (digits2_pos m))%Z -> (0 < Z.shiftr (Zpos m) n)%Z.
Proof.
  intros Hn. rewrite Z.shiftr_div_pow2 by lia.
  apply Z.div_str_pos. split; [apply Z.pow_pos_nonneg; lia|].
  destruct (digits2_bounds m) as [H _].
  apply Z.le_trans with (2 ^ (Zpos (digits2_pos m) - 1))%Z; [|exact H].
  apply Z.pow_le_mono_r; lia.
Qed.

Lemma shr_fexp_positive (m : positive) (e : Z) (l : location) :
  (emin <= e)%Z ->
  (0 < shr_m (fst (shr_fexp prec emax (Zpos m) e l)))%Z /\
  (emin <= snd (shr_fexp prec emax (Zpos m) e l))%Z.
Proof.
  intros He. unfold shr_fexp, shr.
  assert (Hm : shr_m (shr_record_of_loc (Zpos m) l) = Zpos m)
    by (destruct l as [|[| |]]; reflexivity).
  destruct (fexp prec emax (Zdigits2 (Zpos m) + e) - e)%Z as [|p|p] eqn:E; simpl;
    try (rewrite Hm; split; [lia|exact He]).
  rewrite shr_iter_m, Hm by (rewrite Hm; lia).
  unfold fexp, emin, SpecFloat.emin, prec, emax in *. simpl Zdigits2 in E.
  split; [apply shiftr_positive|]; lia.
Qed.

Lemma round_nearest_even_positive (m : Z) (l : location) :
  (0 < m)%Z -> (0 < round_nearest_even m l)%Z.
Proof.
  intros H. destruct l as [|[| |]]; simpl; try destruct (Z.even m); lia.
Qed.

Lemma binary_round_aux_signed (s : bool) (m : positive) (e : Z) (l : location) :
  (emin <= e)%Z -> signed_ok s (binary_round_aux prec emax s (Zpos m) e l).
Proof.
  intros He. unfold binary_round_aux.
  destruct (shr_fexp_positive m l He) as [H1 H2].
  destruct (shr_fexp prec emax (Zpos m) e l) as [mrs' e']; simpl in H1, H2.
  pose proof (round_nearest_even_positive (loc_of_shr_record mrs') H1) as H3.
  destruct (round_nearest_even (shr_m mrs') (loc_of_shr_record mrs')) as [|q|q]; try lia.
  destruct (shr_fexp_positive q loc_Exact H2) as [H4 H5].
  destruct (shr_fexp prec emax (Zpos q) e' loc_Exact) as [mrs'' e'']; simpl in H4, H5.
  destruct (shr_m mrs'') as [|q'|q']; try lia.
  destruct (e'' <=? emax - prec)%Z; [right; exists q', e''; auto | left; reflexivity].
Qed.

Lemma binary_round_signed (s : bool) (m : positive) (e : Z) :
  (emin <= e)%Z -> signed_ok s (binary_round prec emax s m e).
Proof.
  intros He. unfold binary_round, shl_align.
  destruct (fexp prec emax (Zpos (digits2_pos m) + e) - e)%Z eqn:E;
    apply binary_round_aux_signed; try exact He.
  unfold fexp, emin, SpecFloat.emin, prec, emax in *. lia.
Qed.

Lemma add_pos_ok (x y : float) : pos_ok x -> pos_ok y -> pos_ok (x + y)%js.
Proof.
  intros [-> | (mx & ex & -> & Hx)] [-> | (my & ey & -> & Hy)];
    try (left; reflexivity).
  unfold add, SFadd. cbv zeta. unfold cond_Zopp.
  change (Zpos ?a + Zpos ?b)%Z with (Zpos (a + b)). unfold binary_normalize.
  apply (binary_round_signed false). lia.
Qed.

Lemma add_is_count (x y : float) : is_count x -> is_count y -> is_count (x + y)%js.
Proof.
  intros [-> | Hx] [-> | Hy].
  - left; reflexivity.
  - right. destruct Hy as [-> | (m & e & -> & H)]; [left; reflexivity|].
    right; exists m, e; auto.
  - right. destruct Hx as [-> | (m & e & -> & H)]; [left; reflexivity|].
    right; exists m, e; auto.
  - right. apply add_pos_ok; assumption.
Qed.

Lemma pos_ok_not_zero (x : float) : pos_ok x -> (x === pzero)%js = false.
Proof. intros [-> | (m & e & -> & _)]; reflexivity. Qed.

Lemma add_count_zero (x y : float) :
  is_count x -> is_count y -> (x + y)%js = pzero -> x = pzero /\ y = pzero.
Proof.
  intros Hx Hy E. destruct Hx as [-> | Hx], Hy as [-> | Hy]; auto; exfalso.
  - assert (H : pos_ok (pzero + y)%js).
    { destruct Hy as [-> | (m & e & -> & H)]; [left; reflexivity|right; exists m, e; auto]. }
    rewrite E in H. apply pos_ok_not_zero in H. discriminate.
  - assert (H : pos_ok (x + pzero)%js).
    { destruct Hx as [-> | (m & e & -> & H)]; [left; reflexivity|right; exists m, e; auto]. }
    rewrite E in H. apply pos_ok_not_zero in H. discriminate.
  - pose proof (add_pos_ok Hx Hy) as H. rewrite E in H.
    apply pos_ok_not_zero in H. discriminate.
Qed.

Lemma sum_zero_all_zero (l : list float) (acc : float) :
  Forall is_count l -> is_count acc ->
  (fold_left add l acc === pzero)%js = true ->
  acc = pzero /\ Forall (eq pzero) l.
Proof.
  revert acc; induction l as [|x l IH]; intros acc Hl Hacc E; simpl in E.
  - split; [|constructor]. destruct Hacc as [-> | H]; [reflexivity|].
    rewrite (pos_ok_not_zero H) in E. discriminate.
  - inversion Hl as [|? ? Hx Hl']; subst.
    destruct (IH _ Hl' (add_is_count Hacc Hx) E) as [E1 E2].
    destruct (add_count_zero Hacc Hx E1) as [-> ->]. split; [reflexivity|].
    constructor; [reflexivity|assumption].
Qed.

(** ** Invariants of the histogram *)

Lemma fold_left_invariant {A B : Type} (P : A -> Prop) (f : A -> B -> A) (l : list B) (a : A) :
  (forall x b, P x -> P (f x b)) -> P a -> P (fold_left f l a).
Proof.
  intros Hf. revert a; induction l as [|b l IH]; intros a Ha; simpl; auto.
Qed.

Lemma two_pos_ok : pos_ok (of_Z 2).
Proof. right. exists 4503599627370496%positive, (-51)%Z. split; [reflexivity|]. unfold emin; cbv; discriminate. Qed.

Lemma bump_is_count (a : list float) (i : nat) :
  Forall is_count a -> Forall is_count (bump a i).
Proof.
  revert i; induction a as [|x a IH]; intros i H; [destruct i; constructor|].
  inversion H; subst. destruct i; simpl; constructor; auto.
  apply add_is_count; [assumption|right; exact two_pos_ok].
Qed.

Lemma count_angle_ok (numBins : nat) (h : list float) (th : float) :
  hist_ok numBins h -> hist_ok numBins (count_angle numBins h th).
Proof.
  intros [H1 H2]. unfold count_angle.
  destruct (_ && _); [|split; assumption].
  split; [rewrite bump_length; assumption|apply bump_is_count; assumption].
Qed.

Lemma pair_body_ok (acos : float -> float) (numBins : nat) (dl : list vec3)
      (h : list float) (j k : Z) :
  hist_ok numBins h -> hist_ok numBins (pair_body acos numBins dl h j k).
Proof.
  intros H. unfold pair_body. destruct (_ || _); [assumption|].
  apply count_angle_ok; assumption.
Qed.

Lemma pair_loop_ok (acos : float -> float) (numBins : nat) (dl : list vec3)
      (nb : list Z) (h : list float) :
  hist_ok numBins h -> hist_ok numBins (pair_loop acos numBins dl nb h).
Proof.
  intros H. unfold pair_loop.
  apply fold_left_invariant; [|assumption]. intros x jIdx Hx.
  apply fold_left_invariant; [|assumption]. intros y kIdx Hy.
  apply pair_body_ok; assumption.
Qed.

Lemma raw_counts_ok (acos : float -> float) (positions : list vec3) (boxSize : vec3)
      (rMax : float) (numBins : nat) :
  hist_ok numBins (raw_counts acos positions boxSize rMax numBins).
Proof.
  unfold raw_counts. apply fold_left_invariant.
  - intros x i Hx. apply pair_loop_ok; assumption.
  - split; [apply repeat_length|]. apply Forall_forall. intros x Hx.
    apply repeat_spec in Hx. left; assumption.
Qed.

Lemma thetaBin_length (numBins : nat) : length (thetaBin numBins) = numBins + 1.
Proof. unfold thetaBin. rewrite length_map, length_seq. reflexivity. Qed.

Lemma slice_but_last_length {A : Type} (a : list A) :
  length (slice_but_last a) = length a - 1.
Proof. unfold slice_but_last. rewrite length_firstn. lia. Qed.

Lemma slice_but_last_nth {A : Type} (a : list A) (i : nat) (d : A) :
  i < length a - 1 -> nth i (slice_but_last a) d = nth i a d.
Proof.
  intros H. unfold slice_but_last. rewrite nth_firstn.
  destruct (Nat.ltb_spec i (length a - 1)); [reflexivity|lia].
Qed.

(** ** Normalisation *)

(** C4. With [total] the sum of the raw bin counts: when [total === 0],
    [computeADF] returns the raw histogram unchanged, every bin of it is +0,
    and the only effect is one warning on the console; otherwise the returned
    value of every bin [b] is [count[b] / (total * dthetaRad)], where
    [dthetaRad = dtheta * Math.PI / 180], and nothing is written. *)
Theorem C4_normalization (acos : float -> float) (positions : list vec3) (boxSize : vec3)
        (rMax : float) (numBins : nat) (w : world) :
  let raw := raw_counts acos positions boxSize rMax numBins in
  let total := fold_left add raw pzero in
  let r := computeADF acos positions boxSize rMax numBins in
  let dthetaRadians := (dtheta numBins * JSMath.PI / of_Z 180)%js in
  ((total === pzero)%js = true ->
     adf r = raw /\ Forall (eq pzero) raw /\
     computeADF_run acos positions boxSize rMax numBins w =
       (r, World (chartInstance w) (console w ++ [no_angles_warning])))
  /\
  ((total === pzero)%js = false ->
     adf r = map (fun count => (count / (total * dthetaRadians))%js) raw /\
     (forall b, b < numBins ->
        nth b (adf r) NaN = (nth b raw NaN / (total * dthetaRadians))%js) /\
     computeADF_run acos positions boxSize rMax numBins w = (r, w)).
Proof.
  intros raw total r dthetaRadians.
  destruct (raw_counts_ok acos positions boxSize rMax numBins) as [Hlen Hcnt].
  fold raw in Hlen, Hcnt.
  split; intros E.
  - assert (Hr : adf r = raw).
    { unfold r, computeADF, totalCounts. fold raw. fold total. rewrite E. reflexivity. }
    split; [exact Hr|]. split.
    + apply (sum_zero_all_zero Hcnt (or_introl eq_refl) E).
    + unfold computeADF_run, totalCounts. fold raw. fold total. rewrite E. reflexivity.
  - assert (Hr : adf r = map (fun count => (count / (total * dthetaRadians))%js) raw).
    { unfold r, computeADF, totalCounts. fold raw. fold total. rewrite E. reflexivity. }
    split; [exact Hr|]. split.
    + intros b Hb. rewrite Hr.
      rewrite (nth_indep _ NaN ((fun count => (count / (total * dthetaRadians))%js) NaN))
        by (rewrite length_map; lia).
      exact (map_nth (fun count => (count / (total * dthetaRadians))%js) raw NaN b).
    + unfold computeADF_run, totalCounts. fold raw. fold total. rewrite E. reflexivity.
Qed.

(** Both branches of C4 on concrete inputs, with 4 bins: three particles at
    a right angle give the density 4 / pi in the bin of edge 90 (the total
    is 2 and the bin width pi / 4), and two particles give the raw zeros. *)
Example normalization_runs :
  totalCounts acos_sample right_angle box100 (dec 12 1) 4 = of_Z 2 /\
  adf (computeADF acos_sample right_angle box100 (dec 12 1) 4)
    = [pzero; pzero; (of_Z 2 / (of_Z 2 * (of_Z 45 * JSMath.PI / of_Z 180)))%js; pzero] /\
  snd (computeADF_run acos_sample right_angle box100 (dec 12 1) 4 no_world) = no_world /\
  computeADF_run acos_sample [origin; unit_x] box100 (dec 12 1) 4 no_world
    = (Result [pzero; of_Z 45; of_Z 90; of_Z 135] [pzero; pzero; pzero; pzero],
       World None [no_angles_warning]).
Proof. vm_compute. auto. Qed.

(** ** Fewer than three particles *)

Lemma distances_length (positions : list vec3) (boxSize : vec3) (i : nat) :
  length (distances positions boxSize i) = length positions.
Proof. unfold distances. rewrite length_map. apply delta_length. Qed.

Lemma neighbors_length_lt (positions : list vec3) (boxSize : vec3) (rMax : float) (i : nat) :
  i < length positions ->
  length (neighbors positions boxSize rMax i) < length positions.
Proof.
  intros Hi. unfold neighbors.
  destruct (nth_error positions i) as [pos|] eqn:E;
    [|apply nth_error_None in E; lia].
  apply Nat.lt_le_trans with (length (mapi
    (fun d idx => if (d > pzero)%js && (d < rMax)%js then Z.of_nat idx else (-1)%Z)
    (distances positions boxSize i)));
    [|rewrite mapi_length, distances_length; lia].
  apply filter_drops_one with (n := i) (x := (-1)%Z); [|reflexivity].
  rewrite mapi_nth_error, distances_nth_error, E. simpl.
  rewrite (nth_error_nth _ _ undefined_vec E).
  fold (in_range rMax (min_image_distance boxSize pos pos)).
  rewrite self_not_in_range. reflexivity.
Qed.

Lemma pair_loop_short (acos : float -> float) (numBins : nat) (dl : list vec3)
      (nb : list Z) (h : list float) :
  length nb <= 1 -> pair_loop acos numBins dl nb h = h.
Proof.
  destruct nb as [|a [|b nb]]; simpl; intros H; try lia; reflexivity.
Qed.

Lemma sum_of_zeros (n : nat) : fold_left add (repeat pzero n) pzero = pzero.
Proof. induction n as [|n IH]; simpl; [reflexivity|exact IH]. Qed.

Lemma raw_counts_few (acos : float -> float) (positions : list vec3) (boxSize : vec3)
      (rMax : float) (numBins : nat) :
  length positions < 3 ->
  raw_counts acos positions boxSize rMax numBins = repeat pzero numBins.
Proof.
  intros H. unfold raw_counts. apply fold_left_id.
  intros h i Hi. apply in_seq in Hi. apply pair_loop_short.
  pose proof (@neighbors_length_lt positions boxSize rMax i). lia.
Qed.

(** ** The degenerate-pair guard *)

(** C9. For every pair [(j, k)] taken from the neighbour list of a central
    particle, the norms recomputed in the pair loop are the distances that
    passed the filter, both are strictly positive, the test
    [normIJ === 0 || normIK === 0] of line 84 is false, and the loop body is
    the binning of the pair's angle. *)
Theorem C9_guard_unreachable (acos : float -> float) (positions : list vec3) (boxSize : vec3)
        (rMax : float) (numBins : nat) (i : nat) (j k : Z) (hist : list float) :
  In j (neighbors positions boxSize rMax i) ->
  In k (neighbors positions boxSize rMax i) ->
  let dl := delta positions boxSize i in
  let vecIJ := nth (Z.to_nat j) dl undefined_vec in
  let vecIK := nth (Z.to_nat k) dl undefined_vec in
  norm vecIJ = nth (Z.to_nat j) (distances positions boxSize i) NaN /\
  norm vecIK = nth (Z.to_nat k) (distances positions boxSize i) NaN /\
  (norm vecIJ > pzero)%js = true /\ (norm vecIK > pzero)%js = true /\
  ((norm vecIJ === pzero)%js || (norm vecIK === pzero)%js) = false /\
  pair_body acos numBins dl hist j k = count_angle numBins hist (angle acos vecIJ vecIK).
Proof.
  intros Hj Hk dl vecIJ vecIK.
  assert (G : forall z, In z (neighbors positions boxSize rMax i) ->
            norm (nth (Z.to_nat z) dl undefined_vec)
              = nth (Z.to_nat z) (distances positions boxSize i) NaN /\
            (norm (nth (Z.to_nat z) dl undefined_vec) > pzero)%js = true).
  { intros z Hz. apply neighbors_In in Hz.
    destruct Hz as (p & pos & -> & Hp & R). rewrite Nat2Z.id.
    assert (Hd := delta_nth_error positions boxSize i p). rewrite Hp in Hd. simpl in Hd.
    assert (Hs := distances_nth_error positions boxSize i p). rewrite Hp in Hs. simpl in Hs.
    unfold dl. rewrite (nth_error_nth _ _ _ Hd), (nth_error_nth _ _ _ Hs).
    split; [reflexivity|].
    unfold in_range in R. apply andb_true_iff in R. exact (proj1 R). }
  destruct (G j Hj) as [Ej Pj], (G k Hk) as [Ek Pk].
  fold vecIJ in Ej, Pj. fold vecIK in Ek, Pk.
  assert (Hg : ((norm vecIJ === pzero)%js || (norm vecIK === pzero)%js) = false).
  { rewrite (positive_not_zero _ Pj), (positive_not_zero _ Pk). reflexivity. }
  repeat split; auto.
  unfold pair_body. cbv zeta. fold vecIJ. fold vecIK. rewrite Hg. reflexivity.
Qed.

Lemma C9_guard_unreachable_witness :
  In 1%Z (neighbors [origin; unit_x; unit_y] box100 (dec 12 1) 0) /\
  In 2%Z (neighbors [origin; unit_x; unit_y] box100 (dec 12 1) 0) /\
  pair_body acos_sample 180 (delta [origin; unit_x; unit_y] box100 0)
            (repeat pzero 180) 1 2
  = count_angle 180 (repeat pzero 180) (angle acos_sample unit_x unit_y).
Proof.
  assert (N : neighbors [origin; unit_x; unit_y] box100 (dec 12 1) 0 = [1%Z; 2%Z])
    by (vm_compute; reflexivity).
  assert (H1 : In 1%Z (neighbors [origin; unit_x; unit_y] box100 (dec 12 1) 0))
    by (rewrite N; left; reflexivity).
  assert (H2 : In 2%Z (neighbors [origin; unit_x; unit_y] box100 (dec 12 1) 0))
    by (rewrite N; right; left; reflexivity).
  split; [exact H1|]. split; [exact H2|].
  exact (proj2 (proj2 (proj2 (proj2 (proj2
    (C9_guard_unreachable acos_sample [origin; unit_x; unit_y] box100 (dec 12 1) 180
       0 1 2 (repeat pzero 180) H1 H2)))))).
Defined.

(** ** Clamping the cosine *)

Lemma SFcompare_some (x y : float) :
  is_nan x = false -> is_nan y = false -> exists c, SFcompare x y = Some c.
Proof.
  destruct x as [[|]|[|]| |[|] m e], y as [[|]|[|]| |[|] m' e']; simpl;
    intros; try discriminate; eexists; reflexivity.
Qed.




(** The overshoot of C8 on a concrete pair, with the sampled [acos]: the raw
    cosine of (1,1,1) and (-1,-1,-1) is below -1 and the angle is 180. *)
Example clamp_overshoot_run :
  raw_cosine diagonal minus_diagonal = S754_finite true 4503599627370497 (-52) /\
  cosTheta diagonal minus_diagonal = of_Z (-1) /\
  angle acos_sample diagonal minus_diagonal = of_Z 180.
Proof. vm_compute. auto. Qed.

(** ** The pair loop *)

Lemma fold_left_ext_in {A B : Type} (f g : A -> B -> A) (l : list B) (a : A) :
  (forall x b, In b l -> f x b = g x b) -> fold_left f l a = fold_left g l a.
Proof.
  revert a; induction l as [|b l IH]; intros a H; simpl; [reflexivity|].
  rewrite H by (left; reflexivity). apply IH. intros; apply H; right; assumption.
Qed.

Lemma fold_left_map {A B C : Type} (f : A -> C -> A) (g : B -> C) (l : list B) (a : A) :
  fold_left f (map g l) a = fold_left (fun x b => f x (g b)) l a.
Proof. revert a; induction l as [|b l IH]; intros a; simpl; auto. Qed.

Lemma fold_left_indices {A H : Type} (G : H -> A -> H) (l : list A) (d : A) (h : H) :
  fold_left (fun h' k => G h' (nth k l d)) (seq 0 (length l)) h = fold_left G l h.
Proof.
  revert h; induction l as [|x l IH]; intros h; [reflexivity|].
  simpl length. rewrite <- cons_seq. simpl fold_left.
  rewrite <- seq_shift, fold_left_map. apply IH.
Qed.

Lemma index_loops_pairs {A H : Type} (F : H -> A -> A -> H) (d : A) (nb : list A) (h : H) :
  index_loops F d nb h = fold_left (fun h' jk => F h' (fst jk) (snd jk)) (ordered_pairs nb) h.
Proof.
  unfold index_loops. revert h; induction nb as [|x r IH]; intros h; [reflexivity|].
  simpl length. rewrite <- cons_seq. simpl fold_left at 1.
  simpl ordered_pairs. rewrite fold_left_app, fold_left_map. simpl fst; simpl snd.
  rewrite <- IH. rewrite Nat.sub_0_r.
  rewrite <- (seq_shift (length r) 0), !fold_left_map.
  rewrite (fold_left_indices (fun h' y => F h' x y) r d h).
  apply fold_left_ext_in. intros h1 j Hj.
  replace (S (length r) - (S j + 1)) with (length r - (j + 1)) by lia.
  replace (S j + 1) with (S (j + 1)) by lia.
  rewrite <- seq_shift, fold_left_map. reflexivity.
Qed.

Lemma ordered_pairs_In {A : Type} (l : list A) (d x y : A) :
  In (x, y) (ordered_pairs l) <->
  exists a b, a < b < length l /\ nth a l d = x /\ nth b l d = y.
Proof.
  induction l as [|z l IH]; simpl.
  - split; [tauto|]. intros (a & b & H & _). lia.
  - rewrite in_app_iff, in_map_iff, IH. split.
    + intros [(y' & E & Hy) | (a & b & Hab & Ha & Hb)].
      * inversion E; subst. apply (In_nth _ _ d) in Hy. destruct Hy as (b & Hb & Eb).
        exists 0, (S b). split; [lia|]. auto.
      * exists (S a), (S b). split; [lia|]. auto.
    + intros (a & b & Hab & Ha & Hb). destruct b as [|b]; [lia|].
      destruct a as [|a].
      * left. exists y. subst. split; [reflexivity|]. apply nth_In. lia.
      * right. exists a, b. split; [lia|]. auto.
Qed.

Lemma pair_loop_pairs (acos : float -> float) (numBins : nat) (dl : list vec3)
      (nb : list Z) (hist : list float) :
  pair_loop acos numBins dl nb hist =
  fold_left (fun h jk => pair_body acos numBins dl h (fst jk) (snd jk))
            (ordered_pairs nb) hist.
Proof. exact (index_loops_pairs (pair_body acos numBins dl) (-1)%Z nb hist). Qed.

(** ** Binning *)

Lemma sub_zero_r (x : float) : (x - pzero)%js = x.
Proof. destruct x as [[|]|[|]| |s m e]; reflexivity. Qed.

Lemma of_nat_pos_ok (n : nat) : 1 <= n -> pos_ok (of_nat n).
Proof.
  intros H. unfold of_nat, of_Z. destruct (Z.of_nat n) as [|p|p] eqn:E; try lia.
  apply (binary_round_signed false). unfold emin; cbv; discriminate.
Qed.

Lemma div_zero_pos (x : float) : pos_ok x -> (pzero / x)%js = pzero.
Proof. intros [-> | (m & e & -> & _)]; reflexivity. Qed.

Lemma thetaBin_nth (numBins i : nat) :
  i <= numBins ->
  nth i (thetaBin numBins) NaN = (of_nat i * of_Z 180 / of_nat numBins)%js.
Proof.
  intros H. unfold thetaBin.
  rewrite (nth_indep _ NaN ((fun i => (of_nat i * of_Z 180 / of_nat numBins)%js) 0))
    by (rewrite length_map, length_seq; lia).
  rewrite (map_nth (fun i => (of_nat i * of_Z 180 / of_nat numBins)%js)).
  rewrite seq_nth by lia. reflexivity.
Qed.

Lemma dtheta_eq (numBins : nat) :
  1 <= numBins -> dtheta numBins = (of_Z 180 / of_nat numBins)%js.
Proof.
  intros H. unfold dtheta. rewrite !thetaBin_nth by lia.
  change (of_nat 0 * of_Z 180)%js with pzero.
  change (of_nat 1 * of_Z 180)%js with (of_Z 180).
  rewrite (div_zero_pos (of_nat_pos_ok H)). apply sub_zero_r.
Qed.

(** ** The right-angle example *)

Lemma right_angle_neighbors (boxSize : vec3) (rMax : float) :
  no_wrap right_angle boxSize ->
  (of_Z 1 < rMax)%js = true -> (sqrt2 < rMax)%js = false ->
  neighbors right_angle boxSize rMax 0 = [1%Z; 2%Z] /\
  neighbors right_angle boxSize rMax 1 = [0%Z] /\
  neighbors right_angle boxSize rMax 2 = [0%Z].
Proof.
  intros W H1 H2. unfold neighbors, mapi, distances. rewrite !W by (simpl; lia).
  assert (D0 : map norm (raw_delta right_angle 0) = [pzero; of_Z 1; of_Z 1])
    by (vm_compute; reflexivity).
  assert (D1 : map norm (raw_delta right_angle 1) = [of_Z 1; pzero; sqrt2])
    by (vm_compute; reflexivity).
  assert (D2 : map norm (raw_delta right_angle 2) = [of_Z 1; sqrt2; pzero])
    by (vm_compute; reflexivity).
  assert (G0 : (pzero > pzero)%js = false) by reflexivity.
  assert (G1 : (of_Z 1 > pzero)%js = true) by reflexivity.
  rewrite D0, D1, D2. cbn [length seq combine map fst snd].
  rewrite G0, G1, H1, H2, !andb_false_r. cbn. auto.
Qed.

Lemma right_angle_pair (acos : float -> float) (boxSize : vec3) (hist : list float) :
  no_wrap right_angle boxSize ->
  acos pzero = pio2 ->
  pair_body acos 180 (delta right_angle boxSize 0) hist 1 2 = bump hist 90.
Proof.
  intros W Hacos. rewrite W by (simpl; lia).
  assert (D : raw_delta right_angle 0 = [origin; unit_x; unit_y])
    by (vm_compute; reflexivity).
  rewrite D. unfold pair_body.
  change (Z.to_nat 1) with 1. change (Z.to_nat 2) with 2. cbn [nth].
  assert (N1 : (norm unit_x === pzero)%js = false) by reflexivity.
  assert (N2 : (norm unit_y === pzero)%js = false) by reflexivity.
  rewrite N1, N2. cbn [orb]. unfold angle.
  assert (C : cosTheta unit_x unit_y = pzero) by (vm_compute; reflexivity).
  rewrite C, Hacos. unfold count_angle.
  assert (B : binIndex 180 (pio2 * of_Z 180 / JSMath.PI)%js = of_Z 90)
    by (vm_compute; reflexivity).
  rewrite B. reflexivity.
Qed.

(** C5, as amended. With the central particle at the origin, a neighbour at
    (1,0,0) and one at (0,1,0), a box in which no periodic wrap applies, 180
    bins, [acos(0)] the Number nearest to pi/2, and a cutoff that includes
    both neighbours of the origin but not the distance sqrt 2 between the
    two neighbours themselves ([1 < rMax <= 1.4142135623730951]), the
    histogram before normalisation holds 2 in bin 90, whose left edge is 90
    degrees, and +0 in every other bin. *)
Theorem C5_right_angle (acos : float -> float) (boxSize : vec3) (rMax : float) :
  no_wrap right_angle boxSize ->
  acos pzero = pio2 ->
  (of_Z 1 < rMax)%js = true -> (sqrt2 < rMax)%js = false ->
  raw_counts acos right_angle boxSize rMax 180 = bump (repeat pzero 180) 90 /\
  nth 90 (raw_counts acos right_angle boxSize rMax 180) NaN = of_Z 2 /\
  (forall b, b <> 90 -> b < 180 ->
     nth b (raw_counts acos right_angle boxSize rMax 180) NaN = pzero) /\
  nth 90 (thetaBin 180) NaN = of_Z 90.
Proof.
  intros W Hacos H1 H2.
  destruct (right_angle_neighbors rMax W H1 H2) as (N0 & N1 & N2).
  assert (E : raw_counts acos right_angle boxSize rMax 180 = bump (repeat pzero 180) 90).
  { unfold raw_counts. cbn [right_angle length seq fold_left]. fold right_angle.
    rewrite N0, N1, N2.
    rewrite (pair_loop_short acos 180 _ [0%Z]) by (simpl; lia).
    rewrite (pair_loop_short acos 180 _ [0%Z]) by (simpl; lia).
    unfold pair_loop. cbn [length seq fold_left Nat.add Nat.sub nth].
    apply right_angle_pair; assumption. }
  rewrite E. split; [reflexivity|]. split; [reflexivity|]. split.
  - intros b Hb Hlt. rewrite bump_nth_other by auto.
    apply nth_repeat_lt; assumption.
  - vm_compute. reflexivity.
Qed.

Lemma no_wrap_box100 : no_wrap right_angle box100.
Proof.
  intros i Hi. simpl in Hi.
  destruct i as [|[|[|i]]]; try lia; vm_compute; reflexivity.
Qed.

Lemma C5_right_angle_witness :
  no_wrap right_angle box100 /\
  acos_sample pzero = pio2 /\
  (of_Z 1 < dec 12 1)%js = true /\ (sqrt2 < dec 12 1)%js = false /\
  nth 90 (raw_counts acos_sample right_angle box100 (dec 12 1) 180) NaN = of_Z 2.
Proof.
  assert (H0 : acos_sample pzero = pio2) by reflexivity.
  assert (H1 : (of_Z 1 < dec 12 1)%js = true) by reflexivity.
  assert (H2 : (sqrt2 < dec 12 1)%js = false) by reflexivity.
  split; [exact no_wrap_box100|]. split; [exact H0|]. split; [exact H1|]. split; [exact H2|].
  exact (proj1 (proj2 (C5_right_angle acos_sample (dec 12 1) no_wrap_box100 H0 H1 H2))).
Defined.

(** C5 as stated fails: a cutoff of 2 also "includes both neighbours", but
    then (1,0,0) and (0,1,0) are neighbours of each other, each of them is a
    central particle with two neighbours at 45 degrees, and bin 45 receives
    2 + 2 besides the 2 of bin 90. *)
Lemma C5_counterexample :
  neighbors right_angle box100 (of_Z 2) 1 = [0%Z; 2%Z] /\
  neighbors right_angle box100 (of_Z 2) 2 = [0%Z; 1%Z] /\
  nth 90 (raw_counts acos_sample right_angle box100 (of_Z 2) 180) NaN = of_Z 2 /\
  nth 45 (raw_counts acos_sample right_angle box100 (of_Z 2) 180) NaN = of_Z 4.
Proof. vm_compute. auto. Qed.

(** ** Rounding: shape and value of a rounded result *)

Lemma fexp_eq (k : Z) : fexp prec emax k = Z.max (k - 53) (-1074).
Proof. reflexivity. Qed.

Lemma Zdigits2_nonneg (m : Z) : (0 <= Zdigits2 m)%Z.
Proof. destruct m; simpl; lia. Qed.

Lemma Zdigits2_bounds (m : Z) :
  (0 < m)%Z -> (2 ^ (Zdigits2 m - 1) <= m < 2 ^ Zdigits2 m)%Z.
Proof. destruct m as [|p|p]; try lia. intros _. apply digits2_bounds. Qed.

Lemma Zdigits2_unique (m d : Z) :
  (2 ^ (d - 1) <= m < 2 ^ d)%Z -> (0 < d)%Z -> Zdigits2 m = d.
Proof.
  intros [H1 H2] Hd.
  assert (Hm : (0 < m)%Z).
  { apply Z.lt_le_trans with (2 ^ (d - 1))%Z; [apply Z.pow_pos_nonneg; lia|exact H1]. }
  destruct (Zdigits2_bounds Hm) as [B1 B2].
  pose proof (Zdigits2_nonneg m) as Hn.
  destruct (Z.lt_trichotomy (Zdigits2 m) d) as [L | [E | L]]; [|exact E|]; exfalso.
  - assert (2 ^ Zdigits2 m <= 2 ^ (d - 1))%Z by (apply Z.pow_le_mono_r; lia). lia.
  - assert (2 ^ d <= 2 ^ (Zdigits2 m - 1))%Z by (apply Z.pow_le_mono_r; lia). lia.
Qed.

Lemma Zdigits2_mono (a b : Z) : (0 <= a <= b)%Z -> (Zdigits2 a <= Zdigits2 b)%Z.
Proof.
  intros [Ha Hab]. destruct (Z.eq_dec a 0) as [->|Hne]; [apply Zdigits2_nonneg|].
  assert (Ha' : (0 < a)%Z) by lia. assert (Hb' : (0 < b)%Z) by lia.
  destruct (Zdigits2_bounds Ha') as [A1 A2], (Zdigits2_bounds Hb') as [B1 B2].
  destruct (Z_le_gt_dec (Zdigits2 a) (Zdigits2 b)) as [L|G]; [exact L|exfalso].
  pose proof (Zdigits2_nonneg b).
  assert (2 ^ Zdigits2 b <= 2 ^ (Zdigits2 a - 1))%Z by (apply Z.pow_le_mono_r; lia). lia.
Qed.

Lemma Zdigits2_shiftr (m n : Z) :
  (0 <= m)%Z -> (0 <= n)%Z ->
  Zdigits2 (Z.shiftr m n) = Z.max 0 (Zdigits2 m - n).
Proof.
  intros Hm Hn. rewrite Z.shiftr_div_pow2 by assumption.
  destruct (Z.eq_dec m 0) as [->|Hne].
  { rewrite Z.div_0_l by (apply Z.pow_nonzero; lia). simpl. lia. }
  assert (Hm' : (0 < m)%Z) by lia.
  destruct (Zdigits2_bounds Hm') as [B1 B2].
  assert (P : (0 < 2 ^ n)%Z) by (apply Z.pow_pos_nonneg; lia).
  destruct (Z_le_gt_dec (Zdigits2 m) n) as [L|G].
  - assert (2 ^ Zdigits2 m <= 2 ^ n)%Z by (apply Z.pow_le_mono_r; lia).
    rewrite Z.div_small by lia. simpl. lia.
  - rewrite Z.max_r by lia. apply Zdigits2_unique; [|lia]. split.
    + apply Z.div_le_lower_bound; [exact P|].
      rewrite <- Z.pow_add_r by lia. replace (n + (Zdigits2 m - n - 1))%Z with (Zdigits2 m - 1)%Z by lia.
      exact B1.
    + apply Z.div_lt_upper_bound; [exact P|].
      rewrite <- Z.pow_add_r by lia. replace (n + (Zdigits2 m - n))%Z with (Zdigits2 m) by lia.
      exact B2.
Qed.

Lemma shiftr_bracket (m n : Z) :
  (0 <= m)%Z -> (0 <= n)%Z ->
  (Z.shiftr m n * 2 ^ n <= m < (Z.shiftr m n + 1) * 2 ^ n)%Z.
Proof.
  intros Hm Hn. rewrite Z.shiftr_div_pow2 by assumption.
  assert (P : (0 < 2 ^ n)%Z) by (apply Z.pow_pos_nonneg; lia).
  pose proof (Z.div_mod m (2 ^ n)%Z ltac:(lia)) as E.
  pose proof (Z.mod_pos_bound m (2 ^ n)%Z P) as B. nia.
Qed.

(** The exponent and the mantissa [shr_fexp] leaves. *)
Lemma shr_fexp_spec (m e : Z) (l : location) :
  (0 <= m)%Z ->
  snd (shr_fexp prec emax m e l) = Z.max e (fexp prec emax (Zdigits2 m + e)) /\
  shr_m (fst (shr_fexp prec emax m e l))
    = Z.shiftr m (snd (shr_fexp prec emax m e l) - e).
Proof.
  intros Hm. unfold shr_fexp, shr.
  assert (Hr : shr_m (shr_record_of_loc m l) = m) by (destruct l as [|[| |]]; reflexivity).
  destruct (fexp prec emax (Zdigits2 m + e) - e)%Z as [|p|p] eqn:E; simpl.
  - split; [lia|]. rewrite Z.sub_diag, Hr. reflexivity.
  - split; [lia|]. rewrite shr_iter_m by (rewrite Hr; exact Hm). rewrite Hr.
    f_equal. lia.
  - split; [lia|]. rewrite Z.sub_diag, Hr. reflexivity.
Qed.

Lemma round_nearest_even_cases (m : Z) (l : location) :
  round_nearest_even m l = m \/ round_nearest_even m l = (m + 1)%Z.
Proof. destruct l as [|[| |]]; simpl; auto. destruct (Z.even m); auto. Qed.

Lemma binary_round_aux_eq (s : bool) (mx ex : Z) (lx : location) :
  binary_round_aux prec emax s mx ex lx =
  match fst (round_m_e mx ex lx) with
  | Z0 => S754_zero s
  | Zpos m => if (snd (round_m_e mx ex lx) <=? emax - prec)%Z
              then S754_finite s m (snd (round_m_e mx ex lx)) else S754_infinity s
  | Zneg _ => S754_nan
  end.
Proof.
  unfold binary_round_aux, round_m_e.
  destruct (shr_fexp prec emax mx ex lx) as [mrs' e'].
  destruct (shr_fexp prec emax _ e' loc_Exact) as [mrs'' e'']. reflexivity.
Qed.

Lemma round_m_e_spec (mx ex : Z) (lx : location) :
  (0 <= mx)%Z -> (ex <= fexp prec emax (Zdigits2 mx + ex))%Z ->
  let m := fst (round_m_e mx ex lx) in
  let e := snd (round_m_e mx ex lx) in
  (0 <= m)%Z /\ (ex <= e)%Z /\ (emin <= e)%Z /\
  ((0 < m)%Z -> canonical m e) /\
  ((m - 1) * 2 ^ (e - ex) <= mx < (m + 1) * 2 ^ (e - ex))%Z.
Proof.
  intros Hmx Hpre. unfold round_m_e.
  destruct (shr_fexp_spec ex lx Hmx) as [E1 M1].
  destruct (shr_fexp prec emax mx ex lx) as [mrs' e1]. simpl in E1, M1.
  set (m1 := shr_m mrs') in *.
  assert (He1 : e1 = fexp prec emax (Zdigits2 mx + ex)) by lia.
  assert (Hn1 : (0 <= e1 - ex)%Z) by lia.
  assert (Hm1 : (0 <= m1)%Z) by (rewrite M1; apply Z.shiftr_nonneg; exact Hmx).
  pose proof (shiftr_bracket Hmx Hn1) as B1. rewrite <- M1 in B1.
  assert (D1 : Zdigits2 m1 = Z.max 0 (Zdigits2 mx - (e1 - ex)))
    by (rewrite M1; apply Zdigits2_shiftr; assumption).
  set (m2 := round_nearest_even m1 (loc_of_shr_record mrs')).
  assert (Hm2 : (m1 <= m2 <= m1 + 1)%Z).
  { unfold m2. destruct (round_nearest_even_cases m1 (loc_of_shr_record mrs')) as [-> | ->]; lia. }
  assert (Hm2' : (0 <= m2)%Z) by lia.
  destruct (shr_fexp_spec e1 loc_Exact Hm2') as [E2 M2].
  destruct (shr_fexp prec emax m2 e1 loc_Exact) as [mrs'' e2]. simpl in E2, M2. simpl.
  set (m3 := shr_m mrs'') in *.
  assert (Hn2 : (0 <= e2 - e1)%Z) by lia.
  assert (Hm3 : (0 <= m3)%Z) by (rewrite M2; apply Z.shiftr_nonneg; exact Hm2').
  pose proof (shiftr_bracket Hm2' Hn2) as B2. rewrite <- M2 in B2.
  assert (Hemin : (emin <= e1)%Z).
  { rewrite He1, fexp_eq. unfold emin, SpecFloat.emin, prec, emax. lia. }
  (* the magnitude of m2 is at least the one e1 was chosen for *)
  assert (Hk : (e1 <= fexp prec emax (Zdigits2 m2 + e1))%Z).
  { pose proof (Zdigits2_mono (conj Hm1 (proj1 Hm2))) as Hd.
    rewrite !fexp_eq in *. unfold emin, SpecFloat.emin, prec, emax in Hemin.
    pose proof (Zdigits2_nonneg mx). lia. }
  split; [exact Hm3|]. split; [lia|]. split; [lia|]. split.
  - intros Hpos. unfold canonical.
    assert (D3 : Zdigits2 m3 = Z.max 0 (Zdigits2 m2 - (e2 - e1)))
      by (rewrite M2; apply Zdigits2_shiftr; assumption).
    assert (Zdigits2 m3 <> 0)%Z.
    { destruct m3; simpl; lia. }
    replace (Zdigits2 m3 + e2)%Z with (Zdigits2 m2 + e1)%Z by lia. lia.
  - replace (e2 - ex)%Z with ((e1 - ex) + (e2 - e1))%Z by lia.
    rewrite Z.pow_add_r by lia.
    assert (P1 : (0 < 2 ^ (e1 - ex))%Z) by (apply Z.pow_pos_nonneg; lia).
    assert (P2 : (0 < 2 ^ (e2 - e1))%Z) by (apply Z.pow_pos_nonneg; lia).
    split; nia.
Qed.

(** ** Comparing canonical numbers *)

Lemma canonical_inv (m : positive) (e : Z) :
  canonical (Zpos m) e ->
  (-1074 <= e)%Z /\ (Zpos (digits2_pos m) <= 53)%Z /\
  ((-1074 < e)%Z -> Zpos (digits2_pos m) = 53%Z).
Proof.
  unfold canonical. rewrite fexp_eq. simpl Zdigits2. lia.
Qed.

Lemma compare_canonical (m1 m2 : positive) (e1 e2 : Z) :
  canonical (Zpos m1) e1 -> canonical (Zpos m2) e2 ->
  SFcompare (S754_finite false m1 e1) (S754_finite false m2 e2)
    = Some (scaled m1 e1 ?= scaled m2 e2)%Z.
Proof.
  intros C1 C2. apply canonical_inv in C1, C2.
  destruct C1 as (L1 & D1 & N1), C2 as (L2 & D2 & N2).
  destruct (digits2_bounds m1) as [A1 B1], (digits2_bounds m2) as [A2 B2].
  unfold scaled, SFcompare. f_equal.
  destruct (Z.compare_spec e1 e2) as [E | L | G].
  - subst e2. rewrite Pos.compare_cont_spec. unfold Pos.switch_Eq.
    assert (P : (0 < 2 ^ (e1 + 1074))%Z) by (apply Z.pow_pos_nonneg; lia).
    change (m1 ?= m2)%positive with (Zpos m1 ?= Zpos m2)%Z.
    destruct (Z.compare_spec (Zpos m1) (Zpos m2)) as [E | L | G]; symmetry.
    + apply Z.compare_eq_iff. rewrite E. reflexivity.
    + apply Z.compare_lt_iff. apply Z.mul_lt_mono_pos_r; assumption.
    + apply Z.compare_gt_iff. apply Z.mul_lt_mono_pos_r; assumption.
  - symmetry. apply Z.compare_lt_iff.
    rewrite (N2 ltac:(lia)) in A2.
    apply Z.lt_le_trans with (2 ^ 53 * 2 ^ (e1 + 1074))%Z.
    + apply Z.mul_lt_mono_pos_r; [apply Z.pow_pos_nonneg; lia|].
      apply Z.lt_le_trans with (2 ^ Zpos (digits2_pos m1))%Z; [exact B1|].
      apply Z.pow_le_mono_r; lia.
    + apply Z.le_trans with (2 ^ 52 * 2 ^ (e2 + 1074))%Z.
      * rewrite <- !Z.pow_add_r by lia. apply Z.pow_le_mono_r; lia.
      * apply Z.mul_le_mono_nonneg_r; [apply Z.pow_nonneg; lia|exact A2].
  - symmetry. apply Z.compare_gt_iff.
    rewrite (N1 ltac:(lia)) in A1.
    apply Z.lt_le_trans with (2 ^ 53 * 2 ^ (e2 + 1074))%Z.
    + apply Z.mul_lt_mono_pos_r; [apply Z.pow_pos_nonneg; lia|].
      apply Z.lt_le_trans with (2 ^ Zpos (digits2_pos m2))%Z; [exact B2|].
      apply Z.pow_le_mono_r; lia.
    + apply Z.le_trans with (2 ^ 52 * 2 ^ (e1 + 1074))%Z.
      * rewrite <- !Z.pow_add_r by lia. apply Z.pow_le_mono_r; lia.
      * apply Z.mul_le_mono_nonneg_r; [apply Z.pow_nonneg; lia|exact A1].
Qed.

(** ** Integers as numbers *)

Lemma iter_xO_value (p n : positive) :
  Zpos (Pos.iter xO p n) = (Zpos p * 2 ^ Zpos n)%Z.
Proof.
  induction n as [|n IH] using Pos.peano_ind.
  - simpl. lia.
  - rewrite Pos.iter_succ, Pos2Z.inj_succ, Z.pow_succ_r by lia.
    change (Zpos (Pos.iter xO p n)~0) with (2 * Zpos (Pos.iter xO p n))%Z. lia.
Qed.

Lemma iter_xO_digits (p n : positive) :
  Zpos (digits2_pos (Pos.iter xO p n)) = (Zpos (digits2_pos p) + Zpos n)%Z.
Proof.
  induction n as [|n IH] using Pos.peano_ind.
  - simpl. lia.
  - rewrite Pos.iter_succ. simpl digits2_pos. lia.
Qed.

Lemma round_m_e_exact (m : positive) (e : Z) :
  canonical (Zpos m) e -> round_m_e (Zpos m) e loc_Exact = (Zpos m, e).
Proof.
  unfold canonical. intros C. unfold round_m_e, shr_fexp. rewrite C, Z.sub_diag.
  simpl shr. cbv iota beta. simpl round_nearest_even.
  simpl Zdigits2 in *. rewrite C, Z.sub_diag. reflexivity.
Qed.

(** An integer below 2^53 is represented exactly. *)
Lemma of_Z_exact (k : Z) :
  (0 < k < 2 ^ 53)%Z ->
  exists m e, of_Z k = S754_finite false m e /\ canonical (Zpos m) e /\
              (-52 <= e <= 0)%Z /\ Zpos m = (k * 2 ^ (- e))%Z.
Proof.
  intros [Hk Hlt]. destruct k as [|p|p]; try lia.
  assert (Hd : (Zpos (digits2_pos p) <= 53)%Z).
  { destruct (digits2_bounds p) as [A B].
    destruct (Z_le_gt_dec (Zpos (digits2_pos p)) 53) as [L|G]; [exact L|exfalso].
    assert (2 ^ 53 <= 2 ^ (Zpos (digits2_pos p) - 1))%Z by (apply Z.pow_le_mono_r; lia). lia. }
  unfold of_Z, binary_normalize, binary_round, shl_align.
  rewrite fexp_eq.
  destruct (Z.max (Zpos (digits2_pos p) + 0 - 53) (-1074) - 0)%Z as [|q|q] eqn:E; try lia.
  - (* 53 digits *)
    assert (C : canonical (Zpos p) 0).
    { unfold canonical. rewrite fexp_eq. simpl Zdigits2. lia. }
    rewrite binary_round_aux_eq, (round_m_e_exact C). cbv iota beta. cbn [fst snd].
    change (0 <=? emax - prec)%Z with true. cbv iota.
    exists p, 0%Z. split; [reflexivity|]. split; [exact C|]. split; [lia|].
    change (- 0)%Z with 0%Z. rewrite Z.pow_0_r. lia.
  - assert (C : canonical (Zpos (Pos.iter xO p q)) (Z.max (Zpos (digits2_pos p) + 0 - 53) (-1074))).
    { unfold canonical. rewrite fexp_eq. simpl Zdigits2. rewrite iter_xO_digits. lia. }
    rewrite binary_round_aux_eq, (round_m_e_exact C). cbv iota beta. cbn [fst snd].
    assert (Hle : (Z.max (Zpos (digits2_pos p) + 0 - 53) (-1074) <=? emax - prec)%Z = true).
    { apply Z.leb_le. unfold emax, prec. lia. }
    rewrite Hle.
    exists (Pos.iter xO p q), (Z.max (Zpos (digits2_pos p) + 0 - 53) (-1074)).
    split; [reflexivity|]. split; [exact C|]. split; [lia|].
    rewrite iter_xO_value. f_equal. f_equal. lia.
Qed.

Lemma floorZ_of_Z (k : Z) : (0 < k < 2 ^ 53)%Z -> floorZ (of_Z k) = k.
Proof.
  intros H. destruct (of_Z_exact H) as (m & e & -> & _ & He & Hm).
  unfold floorZ, cond_Zopp. rewrite Hm.
  rewrite Z.shiftl_div_pow2 by lia. apply Z.div_mul.
  apply Z.pow_nonzero; lia.
Qed.

(** ** Division *)

Lemma fexp_mono (a b : Z) : (a <= b)%Z -> (fexp prec emax a <= fexp prec emax b)%Z.
Proof. rewrite !fexp_eq. lia. Qed.

Lemma Zdigits2_lower (q k : Z) : (2 ^ k <= q)%Z -> (0 <= k)%Z -> (k + 1 <= Zdigits2 q)%Z.
Proof.
  intros H Hk.
  assert (Hq : (0 < q)%Z).
  { apply Z.lt_le_trans with (2 ^ k)%Z; [apply Z.pow_pos_nonneg; lia|exact H]. }
  destruct (Zdigits2_bounds Hq) as [_ B]. pose proof (Zdigits2_nonneg q).
  destruct (Z_le_gt_dec (k + 1) (Zdigits2 q)) as [L|G]; [exact L|exfalso].
  assert (2 ^ Zdigits2 q <= 2 ^ k)%Z by (apply Z.pow_le_mono_r; lia). lia.
Qed.

Lemma div_core_eq (m1 m2 : positive) (e1 e2 : Z) :
  SFdiv_core_binary prec emax (Zpos m1) e1 (Zpos m2) e2 =
  (Zpos m1 * 2 ^ (e1 - e2 - div_exponent m1 m2 e1 e2) / Zpos m2,
   div_exponent m1 m2 e1 e2,
   new_location (Zpos m2)
     ((Zpos m1 * 2 ^ (e1 - e2 - div_exponent m1 m2 e1 e2)) mod Zpos m2))%Z.
Proof.
  unfold SFdiv_core_binary. cbv zeta.
  change (Zdigits2 (Zpos m1)) with (Zpos (digits2_pos m1)).
  change (Zdigits2 (Zpos m2)) with (Zpos (digits2_pos m2)).
  fold (div_exponent m1 m2 e1 e2).
  assert (Hs : (0 <= e1 - e2 - div_exponent m1 m2 e1 e2)%Z) by (unfold div_exponent; lia).
  assert (Hm' : match (e1 - e2 - div_exponent m1 m2 e1 e2)%Z with
                | Zpos _ => Z.shiftl (Zpos m1) (e1 - e2 - div_exponent m1 m2 e1 e2)
                | Z0 => Zpos m1
                | Zneg _ => 0%Z
                end = (Zpos m1 * 2 ^ (e1 - e2 - div_exponent m1 m2 e1 e2))%Z).
  { destruct (e1 - e2 - div_exponent m1 m2 e1 e2)%Z as [|p|p]; try lia.
    apply Z.shiftl_mul_pow2. lia. }
  rewrite Hm'. unfold Z.div, Z.modulo.
  destruct (Z.div_eucl (Zpos m1 * 2 ^ (e1 - e2 - div_exponent m1 m2 e1 e2)) (Zpos m2));
    reflexivity.
Qed.

(** What [SFdiv_core_binary] hands to the rounding: a quotient with enough
    digits, bracketing the exact quotient. *)
Lemma div_core_spec (m1 m2 : positive) (e1 e2 : Z) :
  let e' := div_exponent m1 m2 e1 e2 in
  let q := (Zpos m1 * 2 ^ (e1 - e2 - e') / Zpos m2)%Z in
  (0 <= e1 - e2 - e')%Z /\
  (0 <= q)%Z /\
  (e' <= fexp prec emax (Zdigits2 q + e'))%Z /\
  (q * Zpos m2 <= Zpos m1 * 2 ^ (e1 - e2 - e') < (q + 1) * Zpos m2)%Z.
Proof.
  intros e' q.
  set (d1 := Zpos (digits2_pos m1)). set (d2 := Zpos (digits2_pos m2)).
  assert (He' : e' = Z.min (fexp prec emax (d1 + e1 - (d2 + e2))) (e1 - e2)) by reflexivity.
  set (s := (e1 - e2 - e')%Z) in *.
  assert (Hs : (0 <= s)%Z) by (unfold s; lia).
  set (m' := (Zpos m1 * 2 ^ s)%Z) in *.
  assert (P : (0 < 2 ^ s)%Z) by (apply Z.pow_pos_nonneg; lia).
  assert (Hm'pos : (0 < m')%Z) by (unfold m'; nia).
  assert (Hq : (0 <= q)%Z) by (apply Z.div_pos; lia).
  assert (Hbr : (q * Zpos m2 <= m' < (q + 1) * Zpos m2)%Z).
  { pose proof (Z.div_mod m' (Zpos m2) ltac:(lia)) as E.
    pose proof (Z.mod_pos_bound m' (Zpos m2) ltac:(lia)) as B. fold q in E. nia. }
  split; [exact Hs|]. split; [exact Hq|]. split; [|exact Hbr].
  destruct (digits2_bounds m1) as [A1 B1], (digits2_bounds m2) as [A2 B2].
  fold d1 in A1, B1. fold d2 in A2, B2.
  assert (Hd1 : (0 < d1)%Z) by (unfold d1; lia).
  assert (Hd2 : (0 < d2)%Z) by (unfold d2; lia).
  assert (Hlow : (2 ^ (d1 - 1 + s) <= m')%Z).
  { unfold m'. rewrite Z.pow_add_r by lia. nia. }
  assert (Hdig : (d1 + s - d2 <= Zdigits2 q)%Z).
  { pose proof (Zdigits2_nonneg q).
    destruct (Z_le_gt_dec (d1 + s - d2) 0) as [L|G]; [lia|].
    assert (Hk : (2 ^ (d1 + s - d2 - 1) <= q)%Z).
    { unfold q. apply Z.div_le_lower_bound; [lia|].
      apply Z.le_trans with (2 ^ d2 * 2 ^ (d1 + s - d2 - 1))%Z.
      - apply Z.mul_le_mono_nonneg_r; [apply Z.pow_nonneg; lia|lia].
      - rewrite <- Z.pow_add_r by lia.
        replace (d2 + (d1 + s - d2 - 1))%Z with (d1 - 1 + s)%Z by lia. exact Hlow. }
    pose proof (Zdigits2_lower Hk ltac:(lia)). lia. }
  apply Z.le_trans with (fexp prec emax (d1 + e1 - (d2 + e2))); [lia|].
  apply fexp_mono. unfold s in Hdig. lia.
Qed.

Lemma binary_round_aux_well_formed (s : bool) (mx ex : Z) (lx : location) :
  (0 <= mx)%Z -> (ex <= fexp prec emax (Zdigits2 mx + ex))%Z ->
  well_formed (binary_round_aux prec emax s mx ex lx).
Proof.
  intros Hm Hpre. rewrite binary_round_aux_eq.
  destruct (round_m_e_spec lx Hm Hpre) as (H0 & _ & _ & Hc & _).
  destruct (fst (round_m_e mx ex lx)) as [|m|m]; [exact I| |lia].
  destruct (snd (round_m_e mx ex lx) <=? emax - prec)%Z eqn:L; [|exact I].
  apply Z.leb_le in L. split; [apply Hc; lia|exact L].
Qed.

Lemma div_well_formed (x y : float) : well_formed (x / y)%js.
Proof.
  destruct x as [sx|sx| |sx mx ex], y as [sy|sy| |sy my ey]; simpl; auto.
  unfold div, SFdiv. rewrite div_core_eq.
  destruct (div_core_spec mx my ex ey) as (_ & Hq & Hpre & _).
  apply binary_round_aux_well_formed; assumption.
Qed.

Lemma binary_round_well_formed (s : bool) (m : positive) (e : Z) :
  well_formed (binary_round prec emax s m e).
Proof.
  unfold binary_round, shl_align.
  destruct (fexp prec emax (Zpos (digits2_pos m) + e) - e)%Z as [|p|p] eqn:E;
    apply binary_round_aux_well_formed; try lia; simpl Zdigits2; try lia.
  rewrite iter_xO_digits.
  replace (Zpos (digits2_pos m) + Zpos p + fexp prec emax (Zpos (digits2_pos m) + e))%Z
    with (Zpos (digits2_pos m) + e)%Z by lia. lia.
Qed.

(** ** The bin index is within the histogram *)

Lemma scaled_exact (m : positive) (e k : Z) :
  Zpos m = (k * 2 ^ (- e))%Z -> (-52 <= e <= 0)%Z -> scaled m e = (k * 2 ^ 1074)%Z.
Proof.
  intros Hm He. unfold scaled. rewrite Hm, <- Z.mul_assoc, <- Z.pow_add_r by lia.
  f_equal. f_equal. lia.
Qed.

Lemma ltb_of_nat (m : positive) (e : Z) (n : nat) :
  canonical (Zpos m) e -> (Z.of_nat n < 2 ^ 53)%Z ->
  (S754_finite false m e < of_nat n)%js = true ->
  (scaled m e < Z.of_nat n * 2 ^ 1074)%Z.
Proof.
  intros C Hn H. unfold of_nat in H.
  destruct (Z.eq_dec (Z.of_nat n) 0) as [E0|Hne].
  { rewrite E0 in H. discriminate. }
  destruct (@of_Z_exact (Z.of_nat n) ltac:(lia)) as (mn & en & E & Cn & Hen & Hmn).
  rewrite E in H. unfold ltb, SFltb in H. rewrite (compare_canonical C Cn) in H.
  rewrite (scaled_exact _ Hmn Hen) in H.
  destruct (Z.compare_spec (scaled m e) (Z.of_nat n * 2 ^ 1074)%Z); try discriminate.
  assumption.
Qed.

Lemma ltb_zero_of_nat (s : bool) (n : nat) :
  (S754_zero s < of_nat n)%js = true -> 0 < n.
Proof.
  intros H. destruct n; [|lia]. destruct s; discriminate.
Qed.

Lemma canonical_mantissa_bound (m : positive) (e : Z) :
  canonical (Zpos m) e -> (Zpos m < 2 ^ 53)%Z.
Proof.
  intros C. apply canonical_inv in C. destruct C as (_ & D & _).
  destruct (digits2_bounds m) as [_ B].
  apply Z.lt_le_trans with (2 ^ Zpos (digits2_pos m))%Z; [exact B|].
  apply Z.pow_le_mono_r; lia.
Qed.

Lemma floor_finite (s : bool) (m : positive) (e : Z) :
  JSMath.floor (S754_finite s m e) =
  if (0 <=? e)%Z then S754_finite s m e
  else match floorZ (S754_finite s m e) with
       | Z0 => pzero
       | k => of_Z k
       end.
Proof. reflexivity. Qed.

(** When the test of line 90 passes, the index is a position of an array of
    [numBins] elements. *)
Lemma guard_index (q : float) (n : nat) :
  well_formed q -> (Z.of_nat n < 2 ^ 53)%Z ->
  (JSMath.floor q >= pzero)%js = true ->
  (JSMath.floor q < of_nat n)%js = true ->
  Z.to_nat (floorZ (JSMath.floor q)) < n.
Proof.
  intros W Hn.
  destruct q as [s|s| |s m e].
  - change (JSMath.floor (S754_zero s)) with (S754_zero s). intros _ Hlt.
    apply ltb_zero_of_nat in Hlt. simpl. lia.
  - change (JSMath.floor (S754_infinity s)) with (S754_infinity s). intros Hge Hlt.
    destruct s; [discriminate Hge|]. exfalso. clear - Hlt.
    unfold ltb, SFltb in Hlt. simpl in Hlt.
    destruct (of_nat n) as [?|[|]| |? ? ?]; discriminate.
  - intros Hge. discriminate.
  - destruct W as [C _]. rewrite floor_finite.
    destruct (Z.leb_spec 0 e) as [He|He].
    + (* an integral number *)
      intros Hge Hlt. destruct s; [discriminate Hge|].
      pose proof (ltb_of_nat n C Hn Hlt) as H. unfold scaled in H.
      unfold floorZ, cond_Zopp. rewrite Z.shiftl_mul_pow2 by lia.
      rewrite Z.pow_add_r, Z.mul_assoc in H by lia.
      assert (P : (0 < 2 ^ 1074)%Z) by (apply Z.pow_pos_nonneg; lia).
      assert (Zpos m * 2 ^ e < Z.of_nat n)%Z by nia. lia.
    + assert (Hk : floorZ (S754_finite s m e) = (cond_Zopp s (Zpos m) / 2 ^ (- e))%Z).
      { unfold floorZ. apply Z.shiftl_div_pow2. lia. }
      assert (P : (0 < 2 ^ (- e))%Z) by (apply Z.pow_pos_nonneg; lia).
      destruct s.
      * (* a negative number: its floor is negative *)
        simpl cond_Zopp in Hk.
        assert (Hneg : (floorZ (S754_finite true m e) < 0)%Z).
        { rewrite Hk. apply Z.div_lt_upper_bound; [exact P|lia]. }
        destruct (floorZ (S754_finite true m e)) as [|k|k]; try lia.
        intros Hge _. exfalso. unfold of_Z, binary_normalize in Hge.
        destruct (@binary_round_signed true k 0 ltac:(unfold emin; cbv; discriminate))
          as [E | (m' & e' & E & _)]; rewrite E in Hge; discriminate.
      * simpl cond_Zopp in Hk.
        assert (Hpos : (0 <= floorZ (S754_finite false m e))%Z).
        { rewrite Hk. apply Z.div_pos; lia. }
        assert (Hle : (floorZ (S754_finite false m e) <= Zpos m)%Z).
        { rewrite Hk. apply Z.div_le_upper_bound; [exact P|]. nia. }
        pose proof (canonical_mantissa_bound C) as Hm.
        destruct (floorZ (S754_finite false m e)) as [|k|k]; try lia.
        -- intros _ Hlt. apply ltb_zero_of_nat in Hlt. simpl. lia.
        -- intros _ Hlt.
           assert (Hk53 : (0 < Zpos k < 2 ^ 53)%Z) by lia.
           rewrite (floorZ_of_Z Hk53).
           destruct (of_Z_exact Hk53) as (mk & ek & E & Ck & Hek & Hmk).
           rewrite E in Hlt. pose proof (ltb_of_nat n Ck Hn Hlt) as H.
           rewrite (scaled_exact _ Hmk Hek) in H.
           assert (P' : (0 < 2 ^ 1074)%Z) by (apply Z.pow_pos_nonneg; lia).
           assert (Zpos k < Z.of_nat n)%Z by nia. lia.
Qed.

Lemma count_angle_index (numBins : nat) (th : float) :
  (Z.of_nat numBins < 2 ^ 53)%Z ->
  (binIndex numBins th >= pzero)%js && (binIndex numBins th < of_nat numBins)%js = true ->
  Z.to_nat (floorZ (binIndex numBins th)) < numBins.
Proof.
  intros Hn H. apply andb_true_iff in H. destruct H as [H1 H2].
  unfold binIndex in *. apply guard_index; auto. apply div_well_formed.
Qed.

(** ** Pairs of distinct neighbours *)

Lemma ordered_pairs_length {A : Type} (l : list A) :
  2 * length (ordered_pairs l) = length l * (length l - 1).
Proof.
  induction l as [|x l IH]; [reflexivity|].
  simpl ordered_pairs. rewrite length_app, length_map. simpl length. nia.
Qed.

Lemma marked_indices_sorted (f : float -> nat -> Z) (l : list float) (s : nat) :
  (forall d idx, f d idx = Z.of_nat idx \/ f d idx = (-1)%Z) ->
  StronglySorted Z.lt
    (filter (fun idx => negb (idx =? -1)%Z)
            (map (fun p => f (snd p) (fst p)) (combine (seq s (length l)) l))) /\
  Forall (fun z => (Z.of_nat s <= z)%Z)
    (filter (fun idx => negb (idx =? -1)%Z)
            (map (fun p => f (snd p) (fst p)) (combine (seq s (length l)) l))).
Proof.
  intros Hf. revert s; induction l as [|x l IH]; intros s; simpl.
  - split; constructor.
  - destruct (IH (S s)) as [S1 F1].
    assert (F1' : Forall (fun z => (Z.of_nat s < z)%Z)
      (filter (fun idx => negb (idx =? -1)%Z)
         (map (fun p => f (snd p) (fst p)) (combine (seq (S s) (length l)) l)))).
    { eapply Forall_impl; [|exact F1]. simpl. intros; lia. }
    destruct (Hf x s) as [-> | ->].
    + destruct (Z.eqb_spec (Z.of_nat s) (-1)); [lia|]. simpl. split.
      * constructor; assumption.
      * constructor; [lia|]. eapply Forall_impl; [|exact F1']. simpl. intros; lia.
    + simpl. split; [assumption|]. eapply Forall_impl; [|exact F1']. simpl. intros; lia.
Qed.

Lemma neighbors_sorted (positions : list vec3) (boxSize : vec3) (rMax : float) (i : nat) :
  StronglySorted Z.lt (neighbors positions boxSize rMax i).
Proof.
  unfold neighbors, mapi.
  apply (marked_indices_sorted
           (fun d idx => if (d > pzero)%js && (d < rMax)%js then Z.of_nat idx else (-1)%Z)
           (distances positions boxSize i) 0).
  intros d idx. destruct (_ && _); auto.
Qed.

Lemma ordered_pairs_sorted {A : Type} (R : A -> A -> Prop) (l : list A) (x y : A) :
  StronglySorted R l -> In (x, y) (ordered_pairs l) -> R x y.
Proof.
  induction 1 as [|z l Hl IH Hz]; simpl; [tauto|].
  rewrite in_app_iff, in_map_iff. intros [(y' & E & Hy) | H].
  - inversion E; subst. rewrite Forall_forall in Hz. auto.
  - auto.
Qed.

(** ** Binning a pair *)

(** For a pair of neighbours the loop body is the binning of the angle
    between their displacements: the guard of line 84 lets it through. *)
Lemma pair_body_neighbors (acos : float -> float) (positions : list vec3) (boxSize : vec3)
      (rMax : float) (numBins i : nat) (j k : Z) (hist : list float) :
  In j (neighbors positions boxSize rMax i) ->
  In k (neighbors positions boxSize rMax i) ->
  pair_body acos numBins (delta positions boxSize i) hist j k
  = count_angle numBins hist
      (angle acos (nth (Z.to_nat j) (delta positions boxSize i) undefined_vec)
                  (nth (Z.to_nat k) (delta positions boxSize i) undefined_vec)).
Proof.
  intros Hj Hk.
  assert (G : forall z, In z (neighbors positions boxSize rMax i) ->
            (norm (nth (Z.to_nat z) (delta positions boxSize i) undefined_vec) === pzero)%js
            = false).
  { intros z Hz. apply neighbors_In in Hz.
    destruct Hz as (p & pos & -> & Hp & R). rewrite Nat2Z.id.
    assert (Hd := delta_nth_error positions boxSize i p). rewrite Hp in Hd. simpl in Hd.
    rewrite (nth_error_nth _ _ _ Hd).
    unfold in_range in R. apply andb_true_iff in R.
    exact (positive_not_zero _ (proj1 R)). }
  unfold pair_body. cbv zeta. rewrite (G j Hj), (G k Hk). reflexivity.
Qed.

(** C3, as amended. The pair loop visits every pair of positions [a < b] of
    the neighbour list exactly once, in order, and the two neighbours of a
    pair are distinct particles. For each such pair [(j, k)] the loop body
    bins the angle [th] between the displacements [delta[j]] and [delta[k]]
    at [floor(th / dtheta)], where [dtheta] is [180 / numBins]: when that
    index passes the test [0 <= index < numBins] it is a position of the
    histogram, the body increments that bin by exactly 2 and changes no
    other bin; when it does not pass, and in particular when it equals
    [numBins], the body changes no bin. With 180 bins an angle of exactly
    180 degrees has index 180 and is dropped. *)
Theorem C3_pair_binning (acos : float -> float) (positions : list vec3) (boxSize : vec3)
        (rMax : float) (numBins i : nat) :
  let nb := neighbors positions boxSize rMax i in
  let dl := delta positions boxSize i in
  (forall hist,
     pair_loop acos numBins dl nb hist =
     fold_left (fun h jk => pair_body acos numBins dl h (fst jk) (snd jk))
               (ordered_pairs nb) hist)
  /\ (forall j k, In (j, k) (ordered_pairs nb) <->
        exists a c, a < c < length nb /\ nth a nb (-1)%Z = j /\ nth c nb (-1)%Z = k)
  /\ 2 * length (ordered_pairs nb) = length nb * (length nb - 1)
  /\ (forall j k, In (j, k) (ordered_pairs nb) -> (j < k)%Z)
  /\ (1 <= numBins -> dtheta numBins = (of_Z 180 / of_nat numBins)%js)
  /\ (forall j k hist, In (j, k) (ordered_pairs nb) ->
        let th := angle acos (nth (Z.to_nat j) dl undefined_vec)
                             (nth (Z.to_nat k) dl undefined_vec) in
        let b := JSMath.floor (th / dtheta numBins)%js in
        let idx := Z.to_nat (floorZ b) in
        let hist' := pair_body acos numBins dl hist j k in
        ((b >= pzero)%js && (b < of_nat numBins)%js = true ->
         length hist = numBins -> (Z.of_nat numBins < 2 ^ 53)%Z ->
         idx < numBins /\
         hist' = bump hist idx /\
         nth idx hist' NaN = (nth idx hist NaN + of_Z 2)%js /\
         (forall c, c <> idx -> nth c hist' NaN = nth c hist NaN) /\
         length hist' = numBins)
        /\ ((b >= pzero)%js && (b < of_nat numBins)%js = false -> hist' = hist)
        /\ ((b === of_nat numBins)%js = true -> hist' = hist))
  /\ (angle acos_sample unit_x minus_unit_x = of_Z 180 /\
      binIndex 180 (of_Z 180) = of_Z 180 /\
      raw_counts acos_sample [origin; unit_x; minus_unit_x] box100 (dec 12 1) 180
      = repeat pzero 180).
Proof.
  intros nb dl.
  split; [intros hist; apply pair_loop_pairs|].
  split; [intros j k; apply ordered_pairs_In|].
  split; [apply ordered_pairs_length|].
  split; [intros j k; apply ordered_pairs_sorted, neighbors_sorted|].
  split; [apply dtheta_eq|].
  split; [|repeat split; vm_compute; reflexivity].
  intros j k hist Hjk th b idx hist'.
  assert (Hj : In j nb /\ In k nb).
  { apply (ordered_pairs_In nb (-1)%Z) in Hjk. destruct Hjk as (a & c & Hac & <- & <-).
    split; apply nth_In; lia. }
  destruct Hj as [Hj Hk].
  assert (E : hist' = count_angle numBins hist th).
  { apply (@pair_body_neighbors acos positions boxSize rMax numBins i j k hist Hj Hk). }
  rewrite E. clear E hist'. change b with (binIndex numBins th).
  split; [|split].
  - intros G Hlen Hn.
    assert (Hidx : idx < numBins) by (apply count_angle_index; assumption).
    assert (E : count_angle numBins hist th = bump hist idx).
    { unfold count_angle. rewrite G. reflexivity. }
    split; [exact Hidx|]. split; [exact E|]. rewrite E. split; [|split].
    + apply bump_nth_same. lia.
    + intros c Hc. apply bump_nth_other. auto.
    + rewrite bump_length. exact Hlen.
  - intros G. unfold count_angle. rewrite G. reflexivity.
  - intros E. unfold count_angle.
    rewrite (eqb_not_ltb _ _ E), andb_false_r. reflexivity.
Qed.

(** C3 as stated fails on its last clause: with 169 bins the width
    [180 / 169] rounds up, [180 / dtheta] is just below 169, and an angle of
    exactly 180 degrees (two antiparallel neighbours) gets index 168: it is
    counted in the last bin, not dropped. *)
Lemma C3_counterexample :
  angle acos_sample unit_x minus_unit_x = of_Z 180 /\
  binIndex 169 (of_Z 180) = of_Z 168 /\
  count_angle 169 (repeat pzero 169) (of_Z 180) = bump (repeat pzero 169) 168 /\
  nth 168 (raw_counts acos_sample [origin; unit_x; minus_unit_x] box100 (dec 12 1) 169) NaN
    = of_Z 2.
Proof. vm_compute. auto. Qed.

(** ** Exact products *)

Lemma shr_iter_exact (p M : positive) :
  iter_pos shr_1 p {| shr_m := Zpos (Pos.iter xO M p); shr_r := false; shr_s := false |}
  = {| shr_m := Zpos M; shr_r := false; shr_s := false |}.
Proof.
  revert M; induction p as [p IH|p IH|]; intros M; simpl.
  - rewrite IH, IH. reflexivity.
  - rewrite IH, IH. reflexivity.
  - reflexivity.
Qed.

(** Rounding a canonical number written with trailing zero bits gives the
    number itself. *)
Lemma round_m_e_shifted (M t : positive) (E : Z) :
  canonical (Zpos M) E ->
  round_m_e (Zpos (Pos.iter xO M t)) (E - Zpos t) loc_Exact = (Zpos M, E).
Proof.
  intros C. unfold round_m_e.
  assert (S1 : shr_fexp prec emax (Zpos (Pos.iter xO M t)) (E - Zpos t) loc_Exact
               = ({| shr_m := Zpos M; shr_r := false; shr_s := false |}, E)).
  { unfold shr_fexp. simpl Zdigits2. rewrite iter_xO_digits.
    replace (Zpos (digits2_pos M) + Zpos t + (E - Zpos t))%Z
      with (Zdigits2 (Zpos M) + E)%Z
      by (change (Zdigits2 (Zpos M)) with (Zpos (digits2_pos M)); lia).
    rewrite C. replace (E - (E - Zpos t))%Z with (Zpos t) by lia.
    simpl. rewrite shr_iter_exact. f_equal. lia. }
  rewrite S1. cbn [shr_m loc_of_shr_record round_nearest_even].
  unfold shr_fexp. rewrite C, Z.sub_diag. reflexivity.
Qed.

Lemma of_Z_normal (k : Z) :
  (0 < k < 2 ^ 53)%Z ->
  exists m e, of_Z k = S754_finite false m e /\ canonical (Zpos m) e /\
              (-52 <= e <= 0)%Z /\ Zpos m = (k * 2 ^ (- e))%Z /\
              (2 ^ 52 <= Zpos m < 2 ^ 53)%Z.
Proof.
  intros H. destruct (of_Z_exact H) as (m & e & E & C & He & Hm).
  exists m, e. repeat (split; [assumption|]).
  destruct (canonical_inv C) as (_ & _ & N).
  destruct (digits2_bounds m) as [A B]. rewrite (N ltac:(lia)) in A, B.
  split; [exact A|exact B].
Qed.

(** The product of two integers is exact when it is below 2^53. *)
Lemma mul_exact (a b : Z) :
  (0 < a)%Z -> (0 < b)%Z -> (a * b < 2 ^ 53)%Z ->
  (of_Z a * of_Z b)%js = of_Z (a * b).
Proof.
  intros Ha Hb Hab.
  assert (Ha' : (0 < a < 2 ^ 53)%Z) by nia.
  assert (Hb' : (0 < b < 2 ^ 53)%Z) by nia.
  assert (Hab' : (0 < a * b < 2 ^ 53)%Z) by nia.
  destruct (of_Z_normal Ha') as (ma & ea & Ea & Ca & Hea & Hma & Na).
  destruct (of_Z_normal Hb') as (mb & eb & Eb & Cb & Heb & Hmb & Nb).
  destruct (of_Z_normal Hab') as (M & E & EM & CM & HE & HM & NM).
  rewrite Ea, Eb, EM. unfold mul, SFmul. cbn [xorb].
  set (t := (E - ea - eb)%Z).
  assert (Pa : (0 < 2 ^ (- ea))%Z) by (apply Z.pow_pos_nonneg; lia).
  assert (Pb : (0 < 2 ^ (- eb))%Z) by (apply Z.pow_pos_nonneg; lia).
  assert (PE : (0 < 2 ^ (- E))%Z) by (apply Z.pow_pos_nonneg; lia).
  assert (Hprod : (Zpos ma * Zpos mb = a * b * 2 ^ (- ea - eb))%Z).
  { rewrite Hma, Hmb. replace (- ea - eb)%Z with (- ea + - eb)%Z by lia.
    rewrite Z.pow_add_r by lia. ring. }
  assert (Ht : (0 < t)%Z).
  { destruct (Z_lt_le_dec 0 t) as [L|G]; [exact L|exfalso].
    assert (Hle : (- ea - eb <= - E)%Z) by (unfold t in G; lia).
    assert (2 ^ (- ea - eb) <= 2 ^ (- E))%Z by (apply Z.pow_le_mono_r; lia).
    assert (Zpos ma * Zpos mb <= Zpos M)%Z by (rewrite Hprod, HM; nia).
    assert (2 ^ 52 * 2 ^ 52 <= Zpos ma * Zpos mb)%Z by nia.
    assert (2 ^ 53 < 2 ^ 52 * 2 ^ 52)%Z by (vm_compute; reflexivity). lia. }
  destruct t as [|tp|tp] eqn:Et; try lia.
  assert (Hshift : (ma * mb)%positive = Pos.iter xO M tp).
  { apply Pos2Z.inj. rewrite iter_xO_value, Pos2Z.inj_mul, Hprod, HM.
    replace (- ea - eb)%Z with (- E + Zpos tp)%Z by (unfold t in Et; lia).
    rewrite Z.pow_add_r by lia. ring. }
  rewrite binary_round_aux_eq, Hshift.
  replace (ea + eb)%Z with (E - Zpos tp)%Z by (unfold t in Et; lia).
  rewrite (round_m_e_shifted tp CM). cbn [fst snd].
  assert (Hle : (E <=? emax - prec)%Z = true) by (apply Z.leb_le; unfold emax, prec; lia).
  rewrite Hle. reflexivity.
Qed.

(** ** Quotients of integers *)

(** The quotient of two integers below 2^53 is a positive normal number
    within one unit in the last place of the exact quotient. *)
Lemma div_of_Z (A n : Z) :
  (0 < A < 2 ^ 53)%Z -> (0 < n < 2 ^ 53)%Z ->
  exists m e, (of_Z A / of_Z n)%js = S754_finite false m e /\
    canonical (Zpos m) e /\ (2 ^ 52 <= Zpos m)%Z /\ (-1074 < e)%Z /\
    ((Zpos m - 1) * 2 ^ (e + 1074) * n <= A * 2 ^ 1074)%Z /\
    (A * 2 ^ 1074 <= (Zpos m + 1) * 2 ^ (e + 1074) * n)%Z.
Proof.
  intros HA Hn.
  destruct (of_Z_normal HA) as (ma & ea & Ea & Ca & Hea & Hma & Na).
  destruct (of_Z_normal Hn) as (mn & en & En & Cn & Hen & Hmn & Nn).
  rewrite Ea, En. unfold div, SFdiv. rewrite div_core_eq. cbn [xorb].
  destruct (div_core_spec ma mn ea en) as (Hs & Hq & Hpre & Hbr).
  set (e' := div_exponent ma mn ea en) in *.
  set (q := (Zpos ma * 2 ^ (ea - en - e') / Zpos mn)%Z) in *.
  set (l := new_location (Zpos mn) ((Zpos ma * 2 ^ (ea - en - e')) mod Zpos mn)).
  assert (Da : Zpos (digits2_pos ma) = 53%Z) by (apply (canonical_inv Ca); lia).
  assert (Dn : Zpos (digits2_pos mn) = 53%Z) by (apply (canonical_inv Cn); lia).
  assert (He' : e' = (ea - en - 53)%Z).
  { unfold e', div_exponent. rewrite Da, Dn, fexp_eq. lia. }
  replace (ea - en - e')%Z with 53%Z in Hbr by lia.
  assert (Hq52 : (2 ^ 52 <= q)%Z) by nia.
  assert (Hq54 : (q < 2 ^ 54)%Z) by nia.
  destruct (round_m_e_spec l Hq Hpre) as (Hm0 & Hee & _ & Hcan & Hbk).
  assert (Hsig : signed_ok false (binary_round_aux prec emax false q e' l)).
  { destruct q as [|qp|qp]; try lia. apply binary_round_aux_signed.
    unfold emin, SpecFloat.emin, prec, emax. lia. }
  rewrite binary_round_aux_eq in Hsig |- *.
  set (m := fst (round_m_e q e' l)) in *. set (e := snd (round_m_e q e' l)) in *.
  destruct m as [|mp|mp] eqn:Em; try lia.
  { destruct Hsig as [Hs' | (? & ? & Hs' & _)]; discriminate. }
  specialize (Hcan ltac:(lia)).
  destruct (canonical_inv Hcan) as (_ & _ & N).
  assert (Hlow : (-1074 < e)%Z) by lia.
  destruct (digits2_bounds mp) as [Am Bm]. rewrite (N Hlow) in Am, Bm.
  assert (P : (0 < 2 ^ (e - e'))%Z) by (apply Z.pow_pos_nonneg; lia).
  assert (Hshift : (e - e' <= 2)%Z).
  { destruct (Z_le_gt_dec (e - e') 2) as [L|G]; [exact L|exfalso].
    assert (2 ^ 3 <= 2 ^ (e - e'))%Z by (apply Z.pow_le_mono_r; lia). nia. }
  assert (Hfin : (e <=? emax - prec)%Z = true).
  { apply Z.leb_le. unfold emax, prec. lia. }
  rewrite Hfin. exists mp, e. split; [reflexivity|]. split; [exact Hcan|].
  split; [exact Am|]. split; [exact Hlow|].
  (* the two brackets, scaled *)
  assert (Pc : (0 < 2 ^ (ea + 1021))%Z) by (apply Z.pow_pos_nonneg; lia).
  assert (Pn : (0 < 2 ^ (- en))%Z) by (apply Z.pow_pos_nonneg; lia).
  assert (Pa : (0 < 2 ^ (- ea))%Z) by (apply Z.pow_pos_nonneg; lia).
  assert (X1 : (2 ^ (e + 1074) = 2 ^ (e - e') * 2 ^ (- en) * 2 ^ (ea + 1021))%Z).
  { rewrite <- !Z.pow_add_r by lia. f_equal. lia. }
  assert (X2 : (2 ^ 1074 = 2 ^ (- ea) * 2 ^ 53 * 2 ^ (ea + 1021))%Z).
  { rewrite <- !Z.pow_add_r by lia. f_equal. lia. }
  rewrite X1, X2. rewrite Hma, Hmn in Hbr.
  set (a := (2 ^ (e - e'))%Z) in *. set (b := (2 ^ (- en))%Z) in *.
  set (c := (2 ^ (ea + 1021))%Z) in *. set (d := (2 ^ (- ea))%Z) in *.
  assert (Hnb : (0 <= n * b)%Z) by (apply Z.mul_nonneg_nonneg; lia).
  assert (L1 : ((Zpos mp - 1) * a * (n * b) <= A * d * 2 ^ 53)%Z).
  { apply Z.le_trans with (q * (n * b))%Z; [|exact (proj1 Hbr)].
    apply Z.mul_le_mono_nonneg_r; [exact Hnb|exact (proj1 Hbk)]. }
  assert (L2 : (A * d * 2 ^ 53 <= (Zpos mp + 1) * a * (n * b))%Z).
  { apply Z.le_trans with ((q + 1) * (n * b))%Z; [exact (Z.lt_le_incl _ _ (proj2 Hbr))|].
    apply Z.mul_le_mono_nonneg_r; [exact Hnb|]. pose proof (proj2 Hbk). lia. }
  split.
  - replace ((Zpos mp - 1) * (a * b * c) * n)%Z with ((Zpos mp - 1) * a * (n * b) * c)%Z by ring.
    replace (A * (d * 2 ^ 53 * c))%Z with (A * d * 2 ^ 53 * c)%Z by ring.
    apply Z.mul_le_mono_nonneg_r; [lia|exact L1].
  - replace ((Zpos mp + 1) * (a * b * c) * n)%Z with ((Zpos mp + 1) * a * (n * b) * c)%Z by ring.
    replace (A * (d * 2 ^ 53 * c))%Z with (A * d * 2 ^ 53 * c)%Z by ring.
    apply Z.mul_le_mono_nonneg_r; [lia|exact L2].
Qed.

(** ** The bin edges *)

Lemma edge_quotient (numBins i : nat) :
  valid_numBins numBins -> 1 <= i <= numBins ->
  edge numBins i = (of_Z (Z.of_nat i * 180) / of_Z (Z.of_nat numBins))%js.
Proof.
  intros [H1 H2] Hi. unfold edge, max_array_length in *. unfold of_nat at 1.
  rewrite mul_exact by lia. reflexivity.
Qed.

Lemma edge_zero (numBins : nat) : 1 <= numBins -> edge numBins 0 = pzero.
Proof.
  intros H. unfold edge. change (of_nat 0 * of_Z 180)%js with pzero.
  apply div_zero_pos, of_nat_pos_ok, H.
Qed.

(** Two quotients [A1 / n < A2 / n] that are at least [180 / n] apart, with
    [n] below 2^32, cannot round to numbers in the opposite order. *)
Lemma rounded_quotients_ordered (m1 m2 P1 P2 S n A1 A2 : Z) :
  (0 < S)%Z -> (0 < P1)%Z -> (0 < P2)%Z -> (0 < n < 2 ^ 32)%Z ->
  (2 ^ 52 <= m1)%Z -> (2 ^ 52 <= m2)%Z ->
  ((m1 - 1) * P1 * n <= A1 * S)%Z ->
  ((m2 - 1) * P2 * n <= A2 * S)%Z ->
  (A2 * S <= (m2 + 1) * P2 * n)%Z ->
  (A1 + 180 <= A2)%Z -> (A2 <= 180 * n)%Z ->
  (m1 * P1 < m2 * P2)%Z.
Proof.
  intros HS HP1 HP2 Hn N1 N2 Lo1 Lo2 Up2 Hgap HA2.
  destruct (Z_lt_le_dec (m1 * P1) (m2 * P2)) as [L|G]; [exact L|exfalso].
  assert (X1 : (0 < P1 * n)%Z) by (apply Z.mul_pos_pos; lia).
  assert (X2 : (0 < P2 * n)%Z) by (apply Z.mul_pos_pos; lia).
  assert (h4 : (m2 * P2 * n <= m1 * P1 * n)%Z)
    by (apply Z.mul_le_mono_nonneg_r; lia).
  assert (b1 : ((2 ^ 52 - 1) * (P1 * n) <= (m1 - 1) * (P1 * n))%Z)
    by (apply Z.mul_le_mono_nonneg_r; lia).
  assert (b2 : ((2 ^ 52 - 1) * (P2 * n) <= (m2 - 1) * (P2 * n))%Z)
    by (apply Z.mul_le_mono_nonneg_r; lia).
  assert (h5 : ((A1 + 180) * S <= A2 * S)%Z)
    by (apply Z.mul_le_mono_nonneg_r; lia).
  assert (h6 : (A2 * S <= 180 * n * S)%Z)
    by (apply Z.mul_le_mono_nonneg_r; lia).
  assert (k1 : (180 * S <= P1 * n + P2 * n)%Z) by lia.
  assert (k2 : ((2 ^ 52 - 1) * (P1 * n + P2 * n) <= 360 * n * S)%Z) by lia.
  assert (k3 : ((2 ^ 52 - 1) * (180 * S) <= (2 ^ 52 - 1) * (P1 * n + P2 * n))%Z)
    by (apply Z.mul_le_mono_nonneg_l; lia).
  assert (k4 : ((2 ^ 52 - 1) * 180 * S <= 360 * n * S)%Z) by lia.
  apply Z.mul_le_mono_pos_r in k4; [|exact HS]. lia.
Qed.

Lemma edges_increasing (numBins i j : nat) :
  valid_numBins numBins -> i < j <= numBins ->
  (edge numBins i < edge numBins j)%js = true.
Proof.
  intros V Hij. pose proof V as [V1 V2]. unfold max_array_length in V2.
  assert (Hn : (0 < Z.of_nat numBins < 2 ^ 53)%Z) by lia.
  assert (Hj : (0 < Z.of_nat j * 180 < 2 ^ 53)%Z) by lia.
  rewrite (@edge_quotient numBins j V) by lia.
  destruct (div_of_Z Hj Hn) as (m2 & e2 & E2 & C2 & N2 & L2 & Lo2 & Up2).
  rewrite E2.
  destruct i as [|i].
  { rewrite edge_zero by lia. reflexivity. }
  assert (Hi : (0 < Z.of_nat (S i) * 180 < 2 ^ 53)%Z) by lia.
  rewrite (@edge_quotient numBins (S i) V) by lia.
  destruct (div_of_Z Hi Hn) as (m1 & e1 & E1 & C1 & N1 & L1 & Lo1 & Up1).
  rewrite E1. unfold ltb, SFltb. rewrite (compare_canonical C1 C2).
  assert (H : (scaled m1 e1 < scaled m2 e2)%Z).
  { unfold scaled.
    apply (@rounded_quotients_ordered (Zpos m1) (Zpos m2) _ _ (2 ^ 1074)%Z
             (Z.of_nat numBins) (Z.of_nat (S i) * 180)%Z (Z.of_nat j * 180)%Z);
      try assumption; try (apply Z.pow_pos_nonneg; lia); lia. }
  apply Z.compare_lt_iff in H. rewrite H. reflexivity.
Qed.

Lemma mul_comm (x y : float) : (x * y)%js = (y * x)%js.
Proof.
  destruct x as [[|]|[|]| |sx mx ex], y as [[|]|[|]| |sy my ey]; try reflexivity;
    unfold mul, SFmul; try (destruct sx; reflexivity); try (destruct sy; reflexivity).
  rewrite (Pos.mul_comm mx my), (Z.add_comm ex ey), (xorb_comm sx sy). reflexivity.
Qed.

Lemma theta_nth (acos : float -> float) (positions : list vec3) (boxSize : vec3)
      (rMax : float) (numBins i : nat) :
  i < numBins ->
  nth i (theta (computeADF acos positions boxSize rMax numBins)) NaN = edge numBins i.
Proof.
  intros Hi.
  assert (E : theta (computeADF acos positions boxSize rMax numBins)
              = slice_but_last (thetaBin numBins)).
  { unfold computeADF. destruct (_ === _)%js; reflexivity. }
  rewrite E, slice_but_last_nth by (rewrite thetaBin_length; lia).
  apply thetaBin_nth. lia.
Qed.

(** ** The right angle with a wide cutoff *)

Lemma right_angle_wide_counts (acos : float -> float) :
  acos pzero = pio2 ->
  raw_counts acos right_angle box100 (of_Z 2) 180 =
  count_angle 180
    (count_angle 180 (bump (repeat pzero 180) 90) (acos cos45 * of_Z 180 / JSMath.PI)%js)
    (acos cos45 * of_Z 180 / JSMath.PI)%js.
Proof.
  intros Hacos.
  assert (N0 : neighbors right_angle box100 (of_Z 2) 0 = [1%Z; 2%Z])
    by (vm_compute; reflexivity).
  assert (N1 : neighbors right_angle box100 (of_Z 2) 1 = [0%Z; 2%Z])
    by (vm_compute; reflexivity).
  assert (N2 : neighbors right_angle box100 (of_Z 2) 2 = [0%Z; 1%Z])
    by (vm_compute; reflexivity).
  unfold raw_counts. cbn [right_angle length seq fold_left]. fold right_angle.
  rewrite N0, N1, N2. unfold pair_loop. cbn [length seq fold_left Nat.add Nat.sub nth].
  rewrite (@right_angle_pair acos box100 _ no_wrap_box100 Hacos).
  assert (D1 : delta right_angle box100 1
               = [minus_unit_x; origin; Vec (of_Z (-1)) (of_Z 1) pzero])
    by (vm_compute; reflexivity).
  assert (D2 : delta right_angle box100 2
               = [Vec pzero (of_Z (-1)) pzero; Vec (of_Z 1) (of_Z (-1)) pzero; origin])
    by (vm_compute; reflexivity).
  rewrite D1, D2. unfold pair_body.
  change (Z.to_nat 0) with 0. change (Z.to_nat 1) with 1. change (Z.to_nat 2) with 2.
  cbn [nth].
  assert (C1 : cosTheta minus_unit_x (Vec (of_Z (-1)) (of_Z 1) pzero) = cos45)
    by (vm_compute; reflexivity).
  assert (C2 : cosTheta (Vec pzero (of_Z (-1)) pzero) (Vec (of_Z 1) (of_Z (-1)) pzero) = cos45)
    by (vm_compute; reflexivity).
  assert (G1 : (norm minus_unit_x === pzero)%js
               || (norm (Vec (of_Z (-1)) (of_Z 1) pzero) === pzero)%js = false)
    by reflexivity.
  assert (G2 : (norm (Vec pzero (of_Z (-1)) pzero) === pzero)%js
               || (norm (Vec (of_Z 1) (of_Z (-1)) pzero) === pzero)%js = false)
    by reflexivity.
  rewrite G1, G2. unfold angle. rewrite C1, C2. reflexivity.
Qed.

(** The failure of C5 as stated does not depend on the sample of [acos]:
    with a cutoff of 2, whatever [Math.acos] returns at 0.7071067811865475,
    as soon as the resulting angle is binned at all the histogram is not the
    one with 2 in bin 90 and +0 elsewhere. *)
Lemma right_angle_wide_cutoff (acos : float -> float) :
  acos pzero = pio2 ->
  let b := binIndex 180 (acos cos45 * of_Z 180 / JSMath.PI)%js in
  (b >= pzero)%js && (b < of_nat 180)%js = true ->
  raw_counts acos right_angle box100 (of_Z 2) 180 <> bump (repeat pzero 180) 90.
Proof.
  intros Hacos b G. rewrite (@right_angle_wide_counts acos Hacos).
  unfold count_angle. fold b. rewrite G.
  assert (Hk : Z.to_nat (floorZ b) < 180).
  { apply count_angle_index; [vm_compute; reflexivity|exact G]. }
  set (k := Z.to_nat (floorZ b)) in *.
  intros E. apply (f_equal (fun h => nth k h NaN)) in E.
  rewrite !bump_nth_same in E by (rewrite ?bump_length, repeat_length; exact Hk).
  destruct (Nat.eq_dec k 90) as [->|Hne].
  - vm_compute in E. discriminate.
  - rewrite bump_nth_other, nth_repeat_lt in E by auto.
    vm_compute in E. discriminate.
Qed.

(** ** The histogram as a count of angles *)

Lemma delta_displacement (positions : list vec3) (boxSize : vec3) (i : nat) :
  delta positions boxSize i
  = map (displacement boxSize (nth i positions undefined_vec)) positions.
Proof. unfold delta, raw_delta. rewrite map_map. reflexivity. Qed.

Lemma marked_indices_vectors {A : Type} (f : A -> bool) (l : list A) (d : A) (pre : list A) :
  map (fun j => nth (Z.to_nat j) (pre ++ l) d)
      (filter (fun idx => negb (idx =? -1)%Z)
         (map (fun p => if f (snd p) then Z.of_nat (fst p) else (-1)%Z)
              (combine (seq (length pre) (length l)) l)))
  = filter f l.
Proof.
  revert pre; induction l as [|x l IH]; intros pre; [reflexivity|].
  cbn [length seq combine map fst snd filter].
  assert (IH' := IH (pre ++ [x])). rewrite <- app_assoc, length_app in IH'.
  cbn [length app] in IH'. replace (length pre + 1) with (S (length pre)) in IH' by lia.
  destruct (f x) eqn:Fx.
  - assert (E : (Z.of_nat (length pre) =? -1)%Z = false) by (apply Z.eqb_neq; lia).
    rewrite E. cbn [negb map]. rewrite Nat2Z.id, nth_middle. f_equal. exact IH'.
  - cbn [Z.eqb negb]. exact IH'.
Qed.

Lemma neighbors_vectors (positions : list vec3) (boxSize : vec3) (rMax : float) (i : nat) :
  map (fun j => nth (Z.to_nat j) (delta positions boxSize i) undefined_vec)
      (neighbors positions boxSize rMax i)
  = neighbor_vectors positions boxSize rMax (nth i positions undefined_vec).
Proof.
  unfold neighbors, neighbor_vectors, distances, mapi.
  rewrite <- delta_displacement. rewrite length_map.
  set (dl := delta positions boxSize i).
  rewrite <- (marked_indices_vectors (fun d => in_range rMax (norm d)) dl undefined_vec []).
  cbn [app length]. f_equal. f_equal.
  generalize 0. induction dl as [|x dl IH]; intros s; [reflexivity|].
  cbn [map length seq combine fst snd]. f_equal. apply IH.
Qed.

Lemma ordered_pairs_map {A B : Type} (f : A -> B) (l : list A) :
  ordered_pairs (map f l) = map (fun xy => (f (fst xy), f (snd xy))) (ordered_pairs l).
Proof.
  induction l as [|x l IH]; [reflexivity|].
  cbn [map ordered_pairs]. rewrite map_app, !map_map, IH. reflexivity.
Qed.

Lemma ordered_pairs_members {A : Type} (l : list A) (x y : A) :
  In (x, y) (ordered_pairs l) -> In x l /\ In y l.
Proof.
  induction l as [|z l IH]; cbn [ordered_pairs]; [intros []|].
  rewrite in_app_iff, in_map_iff. intros [(y' & E & Hy) | H].
  - inversion E; subst. split; [left; reflexivity|right; exact Hy].
  - destruct (IH H). split; right; assumption.
Qed.

Lemma in_range_guard (rMax : float) (v : vec3) :
  in_range rMax (norm v) = true -> (norm v === pzero)%js = false.
Proof.
  unfold in_range. intros H. apply andb_true_iff in H. destruct H as [H _].
  apply positive_not_zero. exact H.
Qed.

(** The pair loop around particle [i] bins the angles of [angles_at]. *)
Lemma pair_loop_angles (acos : float -> float) (positions : list vec3) (boxSize : vec3)
      (rMax : float) (numBins i : nat) (hist : list float) :
  pair_loop acos numBins (delta positions boxSize i) (neighbors positions boxSize rMax i) hist
  = fold_left (count_angle numBins)
      (angles_at acos positions boxSize rMax (nth i positions undefined_vec)) hist.
Proof.
  rewrite pair_loop_pairs. unfold angles_at.
  rewrite <- neighbors_vectors, ordered_pairs_map, map_map, fold_left_map.
  cbn [fst snd].
  apply fold_left_ext_in. intros h [j k] Hjk. cbn [fst snd]. unfold pair_body.
  apply ordered_pairs_members in Hjk. destruct Hjk as [Hj Hk].
  assert (G : forall z, In z (neighbors positions boxSize rMax i) ->
              (norm (nth (Z.to_nat z) (delta positions boxSize i) undefined_vec) === pzero)%js
              = false).
  { intros z Hz. apply (@in_range_guard rMax).
    assert (Hin : In (nth (Z.to_nat z) (delta positions boxSize i) undefined_vec)
                     (neighbor_vectors positions boxSize rMax (nth i positions undefined_vec))).
    { rewrite <- neighbors_vectors. apply in_map_iff. exists z. auto. }
    unfold neighbor_vectors in Hin. apply filter_In in Hin. tauto. }
  rewrite (G j Hj), (G k Hk). reflexivity.
Qed.

Lemma fold_left_flat_map {A B C : Type} (f : A -> C -> A) (g : B -> list C) (l : list B) (a : A) :
  fold_left f (flat_map g l) a = fold_left (fun x b => fold_left f (g b) x) l a.
Proof.
  revert a; induction l as [|b l IH]; intros a; [reflexivity|].
  cbn [flat_map]. rewrite fold_left_app. apply IH.
Qed.

(** The histogram before normalisation bins every angle of [all_angles]. *)
Lemma raw_counts_angles (acos : float -> float) (positions : list vec3) (boxSize : vec3)
      (rMax : float) (numBins : nat) :
  raw_counts acos positions boxSize rMax numBins
  = fold_left (count_angle numBins) (all_angles acos positions boxSize rMax)
              (repeat pzero numBins).
Proof.
  unfold raw_counts, all_angles. rewrite fold_left_flat_map.
  rewrite <- (fold_left_indices
                (fun h p => fold_left (count_angle numBins)
                                      (angles_at acos positions boxSize rMax p) h)
                positions undefined_vec).
  apply fold_left_ext_in. intros h i _. apply pair_loop_angles.
Qed.

(** ** Minimum image *)

(** C2. For every central particle [i], particle [p] and axis, the
    displacement [computeADF] works with is the raw difference
    [pos[p][axis] - pos[i][axis]] reduced by
    [d - boxSize[axis] * Math.round(d / boxSize[axis])], and nothing else is
    computed from the raw difference: the distances are the norms of the
    reduced displacements, the neighbours are the particles whose reduced
    displacement has a norm in (0, rMax), the pair loop of a central
    particle counts the angles between the reduced displacements of its
    neighbours, and the histogram is the count of those angles, central
    particle after central particle. In the box [10, 10, 10] the raw
    displacement from (0.5, 5, 5) to (9.5, 5, 5) is (9, 0, 0), of norm 9; it
    is reduced to (-1, 0, 0), the two particles are at distance exactly 1
    from each other, and with [rMax = 2] each is the other's only neighbour.
    With a third particle at (0.5, 6, 5) the angles across the face are
    counted; in a box of edge 100, where nothing wraps, none is. *)
Theorem C2_minimum_image :
  (forall d b, min_image d b = (d - b * JSMath.round (d / b))%js)
  /\ (forall positions boxSize i p,
        nth_error (delta positions boxSize i) p =
        option_map (fun pos =>
           let pi := nth i positions undefined_vec in
           Vec (min_image (c0 pos - c0 pi)%js (c0 boxSize))
               (min_image (c1 pos - c1 pi)%js (c1 boxSize))
               (min_image (c2 pos - c2 pi)%js (c2 boxSize)))
          (nth_error positions p))
  /\ (forall positions boxSize i,
        distances positions boxSize i = map norm (delta positions boxSize i))
  /\ (forall positions boxSize rMax i z,
        In z (neighbors positions boxSize rMax i) <->
        exists p pos, z = Z.of_nat p /\ nth_error positions p = Some pos /\
          let pi := nth i positions undefined_vec in
          in_range rMax
            (norm (Vec (min_image (c0 pos - c0 pi)%js (c0 boxSize))
                       (min_image (c1 pos - c1 pi)%js (c1 boxSize))
                       (min_image (c2 pos - c2 pi)%js (c2 boxSize)))) = true)
  /\ (forall acos positions boxSize rMax numBins i hist,
        let reduced pos :=
          let pi := nth i positions undefined_vec in
          Vec (min_image (c0 pos - c0 pi)%js (c0 boxSize))
              (min_image (c1 pos - c1 pi)%js (c1 boxSize))
              (min_image (c2 pos - c2 pi)%js (c2 boxSize)) in
        pair_loop acos numBins (delta positions boxSize i)
                  (neighbors positions boxSize rMax i) hist
        = fold_left (count_angle numBins)
            (map (fun vw => angle acos (fst vw) (snd vw))
               (ordered_pairs
                  (filter (fun d => in_range rMax (norm d)) (map reduced positions))))
            hist)
  /\ (forall acos positions boxSize rMax numBins,
        raw_counts acos positions boxSize rMax numBins
        = fold_left (count_angle numBins)
            (flat_map
               (fun pi =>
                  map (fun vw => angle acos (fst vw) (snd vw))
                    (ordered_pairs
                       (filter (fun d => in_range rMax (norm d))
                          (map (fun pos =>
                                  Vec (min_image (c0 pos - c0 pi)%js (c0 boxSize))
                                      (min_image (c1 pos - c1 pi)%js (c1 boxSize))
                                      (min_image (c2 pos - c2 pi)%js (c2 boxSize)))
                               positions))))
               positions)
            (repeat pzero numBins))
  /\ raw_delta [near_low_face; near_high_face] 0 = [origin; Vec (of_Z 9) pzero pzero]
  /\ norm (Vec (of_Z 9) pzero pzero) = of_Z 9
  /\ delta [near_low_face; near_high_face] box10 0 = [origin; minus_unit_x]
  /\ distances [near_low_face; near_high_face] box10 0 = [pzero; of_Z 1]
  /\ distances [near_low_face; near_high_face] box10 1 = [of_Z 1; pzero]
  /\ neighbors [near_low_face; near_high_face] box10 (of_Z 2) 0 = [1%Z]
  /\ neighbors [near_low_face; near_high_face] box10 (of_Z 2) 1 = [0%Z]
  /\ raw_counts acos_sample [near_low_face; near_high_face; beside_low_face] box10
                (of_Z 2) 4 = [pzero; of_Z 4; of_Z 2; pzero]
  /\ raw_counts acos_sample [near_low_face; near_high_face; beside_low_face] box100
                (of_Z 2) 4 = [pzero; pzero; pzero; pzero].
Proof.
  split; [reflexivity|]. split; [exact delta_nth_error|]. split; [reflexivity|].
  split; [exact neighbors_In|].
  split; [intros; apply pair_loop_angles|].
  split; [intros; apply raw_counts_angles|].
  repeat split; vm_compute; reflexivity.
Qed.

(** ** The order of a pair and of the particles *)

Lemma dot_comm (a b : vec3) : dot a b = dot b a.
Proof.
  unfold dot. rewrite (mul_comm (c0 a)), (mul_comm (c1 a)), (mul_comm (c2 a)). reflexivity.
Qed.

Lemma cosTheta_comm (v w : vec3) : cosTheta v w = cosTheta w v.
Proof. unfold cosTheta. rewrite dot_comm, (mul_comm (norm v)). reflexivity. Qed.

Lemma angle_comm (acos : float -> float) (v w : vec3) : angle acos v w = angle acos w v.
Proof. unfold angle. rewrite cosTheta_comm. reflexivity. Qed.

Lemma bump_comm (a : list float) (i j : nat) : bump (bump a i) j = bump (bump a j) i.
Proof.
  revert i j; induction a as [|x a IH]; intros [|i] [|j]; cbn [bump]; try reflexivity.
  f_equal. apply IH.
Qed.

Lemma count_angle_comm (numBins : nat) (h : list float) (a b : float) :
  count_angle numBins (count_angle numBins h a) b
  = count_angle numBins (count_angle numBins h b) a.
Proof.
  unfold count_angle.
  destruct (_ && _), (_ && _); try reflexivity. apply bump_comm.
Qed.

Lemma fold_left_permutation {A B : Type} (f : A -> B -> A) (l l' : list B) :
  (forall x b c, f (f x b) c = f (f x c) b) ->
  Permutation l l' -> forall a, fold_left f l a = fold_left f l' a.
Proof.
  intros Hf P. induction P as [|b l l' P IH|b c l|l l' l'' P1 IH1 P2 IH2]; intros a; cbn [fold_left].
  - reflexivity.
  - apply IH.
  - rewrite Hf. reflexivity.
  - rewrite IH1. apply IH2.
Qed.

Lemma ordered_pairs_permutation {A B : Type} (g : A -> A -> B) (l l' : list A) :
  (forall x y, g x y = g y x) ->
  Permutation l l' ->
  Permutation (map (fun xy => g (fst xy) (snd xy)) (ordered_pairs l))
              (map (fun xy => g (fst xy) (snd xy)) (ordered_pairs l')).
Proof.
  intros Hg P. induction P as [|x l l' P IH|x y l|l l' l'' P1 IH1 P2 IH2].
  - constructor.
  - cbn [ordered_pairs]. rewrite !map_app, !map_map. cbn [fst snd].
    apply Permutation_app; [|exact IH]. apply Permutation_map. exact P.
  - cbn [ordered_pairs map app]. rewrite !map_app, !map_map. cbn [fst snd].
    rewrite (Hg x y). constructor.
    rewrite !app_assoc. apply Permutation_app_tail. apply Permutation_app_comm.
  - eapply Permutation_trans; eassumption.
Qed.

Lemma flat_map_permutation_pointwise {A B : Type} (f g : A -> list B) (l : list A) :
  (forall x, In x l -> Permutation (f x) (g x)) ->
  Permutation (flat_map f l) (flat_map g l).
Proof.
  induction l as [|x l IH]; intros H; cbn [flat_map]; [constructor|].
  apply Permutation_app; [apply H; left; reflexivity|].
  apply IH. intros y Hy. apply H. right. exact Hy.
Qed.

Lemma filter_permutation {A : Type} (f : A -> bool) (l l' : list A) :
  Permutation l l' -> Permutation (filter f l) (filter f l').
Proof.
  intros P. induction P as [|x l l' P IH|x y l|l l' l'' P1 IH1 P2 IH2]; cbn [filter].
  - constructor.
  - destruct (f x); [constructor|]; exact IH.
  - destruct (f x), (f y); try apply Permutation_refl. constructor.
  - eapply Permutation_trans; eassumption.
Qed.

Lemma all_angles_permutation (acos : float -> float) (positions positions' : list vec3)
      (boxSize : vec3) (rMax : float) :
  Permutation positions positions' ->
  Permutation (all_angles acos positions boxSize rMax)
              (all_angles acos positions' boxSize rMax).
Proof.
  intros P. unfold all_angles.
  apply Permutation_trans with (flat_map (angles_at acos positions boxSize rMax) positions').
  - apply Permutation_flat_map. exact P.
  - apply flat_map_permutation_pointwise. intros p _. unfold angles_at.
    apply (ordered_pairs_permutation (angle acos)); [apply angle_comm|].
    unfold neighbor_vectors. apply filter_permutation, Permutation_map. exact P.
Qed.

Lemma computeADF_of_raw (acos : float -> float) (ps ps' : list vec3) (b b' : vec3)
      (r r' : float) (numBins : nat) :
  raw_counts acos ps b r numBins = raw_counts acos ps' b' r' numBins ->
  computeADF acos ps b r numBins = computeADF acos ps' b' r' numBins.
Proof.
  intros E. unfold computeADF, totalCounts. rewrite E. reflexivity.
Qed.

(** X1. [computeADF] does not depend on the order of the particles: called
    with any permutation of [positions] it returns the same object, bit for
    bit (the same edges and the same value in every bin). *)
Theorem X1_particle_order (acos : float -> float) (positions positions' : list vec3)
      (boxSize : vec3) (rMax : float) (numBins : nat) :
  Permutation positions positions' ->
  computeADF acos positions' boxSize rMax numBins
  = computeADF acos positions boxSize rMax numBins.
Proof.
  intros P. apply computeADF_of_raw. rewrite !raw_counts_angles.
  apply fold_left_permutation; [apply count_angle_comm|].
  apply Permutation_sym, all_angles_permutation, P.
Qed.

(** X2. The body of the pair loop does not depend on which of the two
    neighbours is taken first: [dot], the cosine and the angle are the same
    numbers for [(j, k)] and for [(k, j)], so the pair lands in the same bin
    and leaves the same histogram. *)
Theorem X2_pair_order (acos : float -> float) (numBins : nat) (dl : list vec3)
      (hist : list float) (j k : Z) :
  pair_body acos numBins dl hist j k = pair_body acos numBins dl hist k j.
Proof.
  unfold pair_body. rewrite orb_comm, angle_comm. reflexivity.
Qed.

(** ** Calls that find no neighbour *)

Lemma in_range_positive_cutoff (rMax d : float) :
  in_range rMax d = true -> (pzero < rMax)%js = true.
Proof.
  unfold in_range. intros H. apply andb_true_iff in H. destruct H as [H1 H2].
  destruct d as [[|]|[|]| |[|] m e]; try discriminate;
    destruct rMax as [[|]|[|]| |[|] m' e']; try discriminate; reflexivity.
Qed.

Lemma filter_none {A : Type} (f : A -> bool) (l : list A) :
  (forall x, In x l -> f x = false) -> filter f l = [].
Proof.
  induction l as [|x l IH]; intros H; [reflexivity|]. cbn [filter].
  rewrite (H x) by (left; reflexivity). apply IH. intros y Hy. apply H. right. exact Hy.
Qed.

Lemma flat_map_none {A B : Type} (f : A -> list B) (l : list A) :
  (forall x, In x l -> f x = []) -> flat_map f l = [].
Proof.
  induction l as [|x l IH]; intros H; [reflexivity|]. cbn [flat_map].
  rewrite (H x) by (left; reflexivity). apply IH. intros y Hy. apply H. right. exact Hy.
Qed.

Lemma all_angles_none (acos : float -> float) (positions : list vec3) (boxSize : vec3)
      (rMax : float) :
  (forall p q, In p positions -> In q positions ->
               in_range rMax (norm (displacement boxSize p q)) = false) ->
  all_angles acos positions boxSize rMax = [].
Proof.
  intros H. unfold all_angles. apply flat_map_none. intros p Hp.
  unfold angles_at, neighbor_vectors. rewrite filter_none; [reflexivity|].
  intros d Hd. apply in_map_iff in Hd. destruct Hd as (q & <- & Hq). apply H; assumption.
Qed.

(** When no bin is ever incremented, [computeADF] returns the histogram of
    zeros and writes the warning. *)
Lemma computeADF_run_zeros (acos : float -> float) (positions : list vec3)
      (boxSize : vec3) (rMax : float) (numBins : nat) (w : world) :
  raw_counts acos positions boxSize rMax numBins = repeat pzero numBins ->
  computeADF_run acos positions boxSize rMax numBins w
  = (Result (slice_but_last (thetaBin numBins)) (repeat pzero numBins),
     World (chartInstance w) (console w ++ [no_angles_warning])).
Proof.
  intros R. unfold computeADF_run, computeADF, totalCounts. rewrite R, sum_of_zeros.
  reflexivity.
Qed.

Lemma computeADF_run_no_angles (acos : float -> float) (positions : list vec3)
      (boxSize : vec3) (rMax : float) (numBins : nat) (w : world) :
  all_angles acos positions boxSize rMax = [] ->
  computeADF_run acos positions boxSize rMax numBins w
  = (Result (slice_but_last (thetaBin numBins)) (repeat pzero numBins),
     World (chartInstance w) (console w ++ [no_angles_warning])).
Proof.
  intros E. apply computeADF_run_zeros. rewrite raw_counts_angles, E. reflexivity.
Qed.

(** X6. With a cutoff that is zero, negative or not a number, no particle
    has a neighbour: unless [numBins] is no array length (then the call
    throws a [RangeError]), [computeADF] returns [numBins] bins that are all
    +0 and writes the warning, whatever the positions and the box. *)
Theorem X6_cutoff_not_positive (acos : float -> float) (positions : list vec3)
      (boxSize : vec3) (rMax numBins : float) (w : world) :
  (pzero < rMax)%js = false ->
  call_computeADF acos positions boxSize rMax numBins w
  = if array_length_ok numBins
    then Normal (Result (slice_but_last (thetaBin (Z.to_nat (floorZ numBins))))
                        (repeat pzero (Z.to_nat (floorZ numBins))),
                 World (chartInstance w) (console w ++ [no_angles_warning]))
    else Throw RangeError.
Proof.
  intros H. unfold call_computeADF. destruct (array_length_ok numBins); [|reflexivity].
  f_equal. apply computeADF_run_no_angles, all_angles_none. intros p q _ _.
  destruct (in_range rMax (norm (displacement boxSize p q))) eqn:E; [|reflexivity].
  apply in_range_positive_cutoff in E. congruence.
Qed.

(** ** Coordinates that are not numbers *)

Lemma sub_nan_l (x : float) : (NaN - x)%js = NaN.
Proof. reflexivity. Qed.

Lemma sub_nan_r (x : float) : (x - NaN)%js = NaN.
Proof. destruct x; reflexivity. Qed.

Lemma add_nan_l (x : float) : (NaN + x)%js = NaN.
Proof. reflexivity. Qed.

Lemma add_nan_r (x : float) : (x + NaN)%js = NaN.
Proof. destruct x; reflexivity. Qed.

Lemma norm_nan (v : vec3) : has_nan v = true -> norm v = NaN.
Proof.
  destruct v as [x y z]. unfold has_nan, norm, dot. cbn [c0 c1 c2]. intros H.
  apply orb_true_iff in H. destruct H as [H | H]; [apply orb_true_iff in H; destruct H as [H | H]|].
  - destruct x; try discriminate. reflexivity.
  - destruct y; try discriminate. change (S754_nan * S754_nan)%js with NaN.
    rewrite add_nan_r. reflexivity.
  - destruct z; try discriminate. change (S754_nan * S754_nan)%js with NaN.
    rewrite add_nan_r. reflexivity.
Qed.

Lemma in_range_nan (rMax : float) : in_range rMax NaN = false.
Proof. reflexivity. Qed.

Lemma is_nan_eq (x : float) : is_nan x = true -> x = NaN.
Proof. destruct x; try discriminate; reflexivity. Qed.

Lemma min_image_nan (b : float) : min_image NaN b = NaN.
Proof. reflexivity. Qed.

Lemma displacement_nan_from (boxSize p q : vec3) :
  has_nan p = true -> has_nan (displacement boxSize p q) = true.
Proof.
  unfold has_nan, displacement. cbn [c0 c1 c2]. intros H.
  apply orb_true_iff in H. destruct H as [H | H]; [apply orb_true_iff in H; destruct H as [H | H]|];
    apply is_nan_eq in H; rewrite H, sub_nan_r, min_image_nan; cbn [is_nan NaN orb];
    rewrite ?orb_true_r; reflexivity.
Qed.

Lemma displacement_nan_to (boxSize p q : vec3) :
  has_nan q = true -> has_nan (displacement boxSize p q) = true.
Proof.
  unfold has_nan, displacement. cbn [c0 c1 c2]. intros H.
  apply orb_true_iff in H. destruct H as [H | H]; [apply orb_true_iff in H; destruct H as [H | H]|];
    apply is_nan_eq in H; rewrite H, sub_nan_l, min_image_nan; cbn [is_nan NaN orb];
    rewrite ?orb_true_r; reflexivity.
Qed.

Lemma neighbor_vectors_skip (l1 l2 : list vec3) (boxSize : vec3) (rMax : float) (p q : vec3) :
  has_nan p = true ->
  neighbor_vectors (l1 ++ p :: l2) boxSize rMax q = neighbor_vectors (l1 ++ l2) boxSize rMax q.
Proof.
  intros H. unfold neighbor_vectors. rewrite !map_app, !filter_app. cbn [map filter].
  rewrite (norm_nan _ (displacement_nan_to boxSize q p H)), in_range_nan. reflexivity.
Qed.

Lemma angles_at_nan (acos : float -> float) (positions : list vec3) (boxSize : vec3)
      (rMax : float) (p : vec3) :
  has_nan p = true -> angles_at acos positions boxSize rMax p = [].
Proof.
  intros H. unfold angles_at, neighbor_vectors. rewrite filter_none; [reflexivity|].
  intros d Hd. apply in_map_iff in Hd. destruct Hd as (q & <- & _).
  rewrite (norm_nan _ (displacement_nan_from boxSize p q H)). reflexivity.
Qed.

(** X8. A particle with a coordinate that is NaN (a field [parseFloat]
    could not read) is ignored: it is nobody's neighbour and has no
    neighbour, and [computeADF] returns what it returns without it. *)
Theorem X8_nan_particle (acos : float -> float) (l1 l2 : list vec3) (p : vec3)
      (boxSize : vec3) (rMax : float) (numBins : nat) :
  has_nan p = true ->
  computeADF acos (l1 ++ p :: l2) boxSize rMax numBins
  = computeADF acos (l1 ++ l2) boxSize rMax numBins.
Proof.
  intros H. apply computeADF_of_raw. rewrite !raw_counts_angles. f_equal.
  unfold all_angles. rewrite !flat_map_app. cbn [flat_map].
  rewrite (angles_at_nan acos _ boxSize rMax p H). cbn [app].
  f_equal; apply flat_map_ext; intros q; unfold angles_at;
    rewrite (neighbor_vectors_skip l1 l2 boxSize rMax p q H); reflexivity.
Qed.

(** ** Particles at the same place *)

(** X19. Two particles with the same coordinates are never neighbours of
    each other (their distance is +0 or NaN, as that of a particle from
    itself): neither is in the neighbour list of the other. *)
Theorem X19_coincident_particles (positions : list vec3) (boxSize : vec3) (rMax : float)
      (i j : nat) (a : vec3) :
  nth_error positions i = Some a -> nth_error positions j = Some a ->
  ~ In (Z.of_nat j) (neighbors positions boxSize rMax i).
Proof.
  intros Hi Hj H. apply neighbors_In in H. destruct H as (p & pos & E & Hp & R).
  apply Nat2Z.inj in E. subst p. rewrite Hj in Hp. inversion Hp; subst pos.
  rewrite (nth_error_nth _ _ undefined_vec Hi), self_not_in_range in R. discriminate.
Qed.

(** ** Exact sums *)

(** Rounding a number the format holds gives that number: written with a
    longer mantissa at a smaller exponent, *)
Lemma binary_round_shifted_down (s : bool) (S M : positive) (e E : Z) :
  canonical (Zpos M) E -> (E <= 971)%Z -> (e <= E)%Z ->
  Zpos S = (Zpos M * 2 ^ (E - e))%Z ->
  binary_round prec emax s S e = S754_finite s M E.
Proof.
  intros C HE He HS.
  assert (Hle : (E <=? emax - prec)%Z = true) by (apply Z.leb_le; unfold emax, prec; lia).
  unfold binary_round.
  destruct (E - e)%Z as [|t|t] eqn:Et; try lia.
  - assert (e = E) by lia. subst e. rewrite Z.pow_0_r, Z.mul_1_r in HS.
    apply Pos2Z.inj in HS. subst S.
    change (Zpos (digits2_pos M)) with (Zdigits2 (Zpos M)). rewrite C.
    unfold shl_align. rewrite Z.sub_diag.
    rewrite binary_round_aux_eq, (round_m_e_exact C). cbn [fst snd]. rewrite Hle. reflexivity.
  - assert (HS' : S = Pos.iter xO M t).
    { apply Pos2Z.inj. rewrite iter_xO_value. exact HS. }
    subst S. rewrite iter_xO_digits.
    replace (Zpos (digits2_pos M) + Zpos t + e)%Z with (Zdigits2 (Zpos M) + E)%Z
      by (change (Zdigits2 (Zpos M)) with (Zpos (digits2_pos M)); lia).
    rewrite C. unfold shl_align. rewrite Et.
    replace e with (E - Zpos t)%Z by lia.
    rewrite binary_round_aux_eq, (round_m_e_shifted t C). cbn [fst snd]. rewrite Hle.
    reflexivity.
Qed.

(** or with a shorter mantissa at a larger exponent. *)
Lemma binary_round_shifted_up (s : bool) (S M : positive) (e E : Z) :
  canonical (Zpos M) E -> (E <= 971)%Z -> (E <= e)%Z ->
  Zpos M = (Zpos S * 2 ^ (e - E))%Z ->
  binary_round prec emax s S e = S754_finite s M E.
Proof.
  intros C HE He HM.
  assert (Hle : (E <=? emax - prec)%Z = true) by (apply Z.leb_le; unfold emax, prec; lia).
  unfold binary_round.
  destruct (e - E)%Z as [|t|t] eqn:Et; try lia.
  - assert (e = E) by lia. subst e. rewrite Z.pow_0_r, Z.mul_1_r in HM.
    apply Pos2Z.inj in HM. subst S.
    change (Zpos (digits2_pos M)) with (Zdigits2 (Zpos M)). rewrite C.
    unfold shl_align. rewrite Z.sub_diag.
    rewrite binary_round_aux_eq, (round_m_e_exact C). cbn [fst snd]. rewrite Hle. reflexivity.
  - assert (HM' : M = Pos.iter xO S t).
    { apply Pos2Z.inj. rewrite iter_xO_value. exact HM. }
    assert (D : (Zpos (digits2_pos S) + e = Zdigits2 (Zpos M) + E)%Z).
    { change (Zdigits2 (Zpos M)) with (Zpos (digits2_pos M)).
      rewrite HM', iter_xO_digits. lia. }
    rewrite D, C. unfold shl_align.
    replace (E - e)%Z with (Zneg t) by lia.
    unfold shift_pos. rewrite <- HM'.
    rewrite binary_round_aux_eq, (round_m_e_exact C). cbn [fst snd]. rewrite Hle. reflexivity.
Qed.

Lemma shl_align_value (m : positive) (e e' : Z) :
  (e' <= e)%Z -> Zpos (fst (shl_align m e e')) = (Zpos m * 2 ^ (e - e'))%Z.
Proof.
  intros H. unfold shl_align.
  destruct (e' - e)%Z as [|t|t] eqn:Et; try lia; cbn [fst].
  - replace (e - e')%Z with 0%Z by lia. rewrite Z.pow_0_r. lia.
  - unfold shift_pos. rewrite iter_xO_value. f_equal. f_equal. lia.
Qed.

(** The sum of two integers is exact when it is below 2^53. *)
Lemma add_exact (a b : Z) :
  (0 < a)%Z -> (0 < b)%Z -> (a + b < 2 ^ 53)%Z ->
  (of_Z a + of_Z b)%js = of_Z (a + b).
Proof.
  intros Ha Hb Hab.
  destruct (@of_Z_exact a ltac:(lia)) as (ma & ea & Ea & Ca & Hea & Hma).
  destruct (@of_Z_exact b ltac:(lia)) as (mb & eb & Eb & Cb & Heb & Hmb).
  destruct (@of_Z_exact (a + b) ltac:(lia)) as (M & E & EM & CM & HE & HM).
  rewrite Ea, Eb, EM. unfold add, SFadd. cbv zeta. unfold cond_Zopp.
  set (ez := Z.min ea eb).
  change (Zpos ?x + Zpos ?y)%Z with (Zpos (x + y)). unfold binary_normalize.
  assert (HS : Zpos (fst (shl_align ma ea ez) + fst (shl_align mb eb ez))
               = ((a + b) * 2 ^ (- ez))%Z).
  { rewrite Pos2Z.inj_add, !shl_align_value by (unfold ez; lia).
    rewrite Hma, Hmb, <- !Z.mul_assoc, <- !Z.pow_add_r by (unfold ez; lia).
    replace (- ea + (ea - ez))%Z with (- ez)%Z by lia.
    replace (- eb + (eb - ez))%Z with (- ez)%Z by lia. ring. }
  assert (Hez : (-52 <= ez <= 0)%Z) by (unfold ez; lia).
  destruct (Z_le_gt_dec ez E) as [L|G].
  - apply binary_round_shifted_down; try assumption; try lia.
    rewrite HS, HM, <- Z.mul_assoc, <- Z.pow_add_r by lia.
    f_equal. f_equal. lia.
  - apply binary_round_shifted_up; try assumption; try lia.
    rewrite HS, HM, <- Z.mul_assoc, <- Z.pow_add_r by lia.
    f_equal. f_equal. lia.
Qed.

Lemma add_exact_nonneg (a b : Z) :
  (0 <= a)%Z -> (0 <= b)%Z -> (a + b < 2 ^ 53)%Z ->
  (of_Z a + of_Z b)%js = of_Z (a + b).
Proof.
  intros Ha Hb Hab.
  destruct (Z.eq_dec a 0) as [->|Na]; destruct (Z.eq_dec b 0) as [->|Nb].
  - reflexivity.
  - destruct (@of_Z_exact b ltac:(lia)) as (mb & eb & Eb & _).
    rewrite Z.add_0_l, Eb. reflexivity.
  - destruct (@of_Z_exact a ltac:(lia)) as (ma & ea & Ea & _).
    rewrite Z.add_0_r, Ea. reflexivity.
  - apply add_exact; lia.
Qed.

(** ** Counts without rounding *)

Lemma count_angle_bin_of (numBins : nat) (h : list float) (th : float) :
  count_angle numBins h th
  = match bin_of numBins th with Some i => bump h i | None => h end.
Proof. unfold count_angle, bin_of. destruct (_ && _); reflexivity. Qed.

Lemma bin_of_lt (numBins : nat) (th : float) (i : nat) :
  (Z.of_nat numBins < 2 ^ 53)%Z -> bin_of numBins th = Some i -> i < numBins.
Proof.
  intros Hn. unfold bin_of.
  destruct (_ && _) eqn:G; [|discriminate]. intros E. inversion E; subst.
  apply count_angle_index; assumption.
Qed.

Lemma count_angle_length (numBins : nat) (h : list float) (th : float) :
  length (count_angle numBins h th) = length h.
Proof. rewrite count_angle_bin_of. destruct (bin_of numBins th); [apply bump_length|reflexivity]. Qed.

Lemma binned_cons (numBins : nat) (th : float) (angles : list float) (b : nat) :
  binned numBins (th :: angles) b
  = (match bin_of numBins th with
     | Some i => if i =? b then 1 else 0
     | None => 0
     end) + binned numBins angles b.
Proof.
  unfold binned. cbn [filter].
  destruct (bin_of numBins th) as [i|]; [destruct (i =? b)|]; reflexivity.
Qed.

(** Each bin holds twice the number of angles counted in it, exactly. *)
Lemma fold_count_exact (numBins : nat) (angles : list float) (h : list float) (b : nat) (k : Z) :
  b < length h -> (0 <= k)%Z -> nth b h NaN = of_Z (2 * k) ->
  (2 * (k + Z.of_nat (length angles)) < 2 ^ 53)%Z ->
  nth b (fold_left (count_angle numBins) angles h) NaN
  = of_Z (2 * (k + Z.of_nat (binned numBins angles b))).
Proof.
  revert h k; induction angles as [|th angles IH]; intros h k Hb Hk Hn Hlen.
  - cbn. rewrite Z.add_0_r. exact Hn.
  - cbn [fold_left]. rewrite binned_cons, count_angle_bin_of.
    cbn [length] in Hlen.
    destruct (bin_of numBins th) as [i|].
    + destruct (Nat.eqb_spec i b) as [->|Hne].
      * rewrite (IH (bump h b) (k + 1)%Z).
        -- f_equal. lia.
        -- rewrite bump_length. exact Hb.
        -- lia.
        -- rewrite bump_nth_same by exact Hb. rewrite Hn.
           change (of_Z 2) with (of_Z (2 * 1)).
           rewrite add_exact_nonneg by lia. f_equal. lia.
        -- lia.
      * rewrite (IH (bump h i) k);
          [reflexivity | rewrite bump_length; exact Hb | exact Hk
          | rewrite bump_nth_other by exact Hne; exact Hn | lia].
    + rewrite (IH h k); [reflexivity | exact Hb | exact Hk | exact Hn | lia].
Qed.

Lemma ordered_pairs_length_le {A : Type} (l : list A) :
  2 * length (ordered_pairs l) <= length l * length l.
Proof. pose proof (ordered_pairs_length l). nia. Qed.

Lemma all_angles_length (acos : float -> float) (positions : list vec3) (boxSize : vec3)
      (rMax : float) :
  2 * length (all_angles acos positions boxSize rMax)
  <= length positions * (length positions * length positions).
Proof.
  unfold all_angles.
  assert (G : forall l, 2 * length (flat_map (angles_at acos positions boxSize rMax) l)
                        <= length l * (length positions * length positions)).
  { induction l as [|p l IH]; [cbn; lia|].
    cbn [flat_map length]. rewrite length_app.
    assert (2 * length (angles_at acos positions boxSize rMax p)
            <= length positions * length positions).
    { unfold angles_at. rewrite length_map.
      pose proof (ordered_pairs_length_le (neighbor_vectors positions boxSize rMax p)) as H.
      assert (length (neighbor_vectors positions boxSize rMax p) <= length positions).
      { unfold neighbor_vectors.
        pose proof (filter_length_le (fun d => in_range rMax (norm d))
                      (map (displacement boxSize p) positions)) as F.
        rewrite length_map in F. exact F. }
      nia. }
    lia. }
  apply G.
Qed.

(** X3. For up to 208063 particles ([N^3 < 2^53]) no increment is lost to
    rounding: before normalisation, bin [b] holds exactly twice the number
    of the angles of the call that are counted in bin [b]. *)
Theorem X3_exact_counts (acos : float -> float) (positions : list vec3) (boxSize : vec3)
      (rMax : float) (numBins b : nat) :
  (Z.of_nat (length positions) ^ 3 < 2 ^ 53)%Z ->
  b < numBins ->
  nth b (raw_counts acos positions boxSize rMax numBins) NaN
  = of_Z (2 * Z.of_nat (binned numBins (all_angles acos positions boxSize rMax) b)).
Proof.
  intros HN Hb. rewrite raw_counts_angles.
  rewrite (@fold_count_exact numBins _ (repeat pzero numBins) b 0).
  - f_equal.
  - rewrite repeat_length. exact Hb.
  - lia.
  - rewrite nth_repeat_lt by exact Hb. reflexivity.
  - pose proof (all_angles_length acos positions boxSize rMax) as L.
    replace (Z.of_nat (length positions) ^ 3)%Z
      with (Z.of_nat (length positions * (length positions * length positions))) in HN
      by (rewrite !Nat2Z.inj_mul; ring).
    lia.
Qed.

(** ** The total and the density *)

Lemma raw_counts_bins (acos : float -> float) (positions : list vec3) (boxSize : vec3)
      (rMax : float) (numBins : nat) :
  (Z.of_nat (length positions) ^ 3 < 2 ^ 53)%Z ->
  raw_counts acos positions boxSize rMax numBins
  = map (fun b => of_Z (2 * Z.of_nat (binned numBins (all_angles acos positions boxSize rMax) b)))
        (seq 0 numBins).
Proof.
  intros HN.
  destruct (raw_counts_ok acos positions boxSize rMax numBins) as [Hlen _].
  set (f := fun b => of_Z (2 * Z.of_nat (binned numBins
                                   (all_angles acos positions boxSize rMax) b))).
  apply (nth_ext _ _ NaN NaN); [rewrite length_map, length_seq; exact Hlen|].
  intros b Hb. rewrite Hlen in Hb.
  rewrite (nth_indep (map f (seq 0 numBins)) NaN (f 0))
    by (rewrite length_map, length_seq; exact Hb).
  rewrite map_nth, seq_nth by exact Hb. cbn [Nat.add]. unfold f.
  rewrite raw_counts_angles.
  rewrite (@fold_count_exact numBins _ (repeat pzero numBins) b 0).
  - reflexivity.
  - rewrite repeat_length. exact Hb.
  - lia.
  - rewrite nth_repeat_lt by exact Hb. reflexivity.
  - pose proof (all_angles_length acos positions boxSize rMax) as L.
    replace (Z.of_nat (length positions) ^ 3)%Z
      with (Z.of_nat (length positions * (length positions * length positions))) in HN
      by (rewrite !Nat2Z.inj_mul; ring).
    lia.
Qed.

Lemma sum_of_counts (cs : list nat) (acc : nat) :
  (2 * Z.of_nat (acc + list_sum cs) < 2 ^ 53)%Z ->
  fold_left add (map (fun c => of_Z (2 * Z.of_nat c)) cs) (of_Z (2 * Z.of_nat acc))
  = of_Z (2 * Z.of_nat (acc + list_sum cs)).
Proof.
  revert acc; induction cs as [|c cs IH]; intros acc H; cbn [map fold_left].
  - cbn [list_sum fold_right]. rewrite Nat.add_0_r. reflexivity.
  - change (list_sum (c :: cs)) with (c + list_sum cs) in *.
    rewrite add_exact_nonneg by lia.
    replace (2 * Z.of_nat acc + 2 * Z.of_nat c)%Z with (2 * Z.of_nat (acc + c))%Z by lia.
    rewrite IH by (rewrite <- Nat.add_assoc; exact H).
    rewrite Nat.add_assoc. reflexivity.
Qed.

Lemma indicator_sum (i s n : nat) :
  list_sum (map (fun b => if i =? b then 1 else 0) (seq s n))
  = if (s <=? i) && (i <? s + n) then 1 else 0.
Proof.
  revert s; induction n as [|n IH]; intros s; cbn [seq map].
  - destruct (Nat.leb_spec s i), (Nat.ltb_spec i (s + 0)); cbn; try reflexivity; lia.
  - change (list_sum (?a :: ?r)) with (a + list_sum r). rewrite IH.
    destruct (Nat.eqb_spec i s), (Nat.leb_spec (S s) i), (Nat.ltb_spec i (S s + n)),
             (Nat.leb_spec s i), (Nat.ltb_spec i (s + S n)); cbn; try reflexivity; lia.
Qed.

Lemma list_sum_map_add (f g : nat -> nat) (l : list nat) :
  list_sum (map (fun b => f b + g b) l) = list_sum (map f l) + list_sum (map g l).
Proof.
  induction l as [|x l IH]; [reflexivity|]. cbn [map].
  change (list_sum (?a :: ?r)) with (a + list_sum r). lia.
Qed.

Lemma counted_cons (numBins : nat) (th : float) (angles : list float) :
  counted numBins (th :: angles)
  = (match bin_of numBins th with Some _ => 1 | None => 0 end) + counted numBins angles.
Proof. unfold counted. cbn [filter]. destruct (bin_of numBins th); reflexivity. Qed.

Lemma list_sum_zeros {A : Type} (l : list A) : list_sum (map (fun _ => 0) l) = 0.
Proof. induction l as [|x l IH]; [reflexivity|exact IH]. Qed.

(** The bins share out the angles that pass the test of line 90. *)
Lemma binned_sum (numBins : nat) (angles : list float) :
  (Z.of_nat numBins < 2 ^ 53)%Z ->
  list_sum (map (binned numBins angles) (seq 0 numBins)) = counted numBins angles.
Proof.
  intros Hn. induction angles as [|th angles IH].
  - apply (list_sum_zeros (seq 0 numBins)).
  - rewrite counted_cons, <- IH.
    rewrite (map_ext _ _ (fun b => binned_cons numBins th angles b)).
    rewrite list_sum_map_add. f_equal.
    destruct (bin_of numBins th) as [i|] eqn:E.
    + rewrite indicator_sum. pose proof (@bin_of_lt numBins th i Hn E) as Hi.
      destruct (Nat.leb_spec 0 i), (Nat.ltb_spec i (0 + numBins)); cbn; try reflexivity; lia.
    + apply list_sum_zeros.
Qed.

Lemma counted_le (numBins : nat) (angles : list float) :
  counted numBins angles <= length angles.
Proof. apply filter_length_le. Qed.

Lemma totalCounts_exact (acos : float -> float) (positions : list vec3) (boxSize : vec3)
      (rMax : float) (numBins : nat) :
  (Z.of_nat (length positions) ^ 3 < 2 ^ 53)%Z -> (Z.of_nat numBins < 2 ^ 53)%Z ->
  totalCounts acos positions boxSize rMax numBins
  = of_Z (2 * Z.of_nat (counted numBins (all_angles acos positions boxSize rMax))).
Proof.
  intros HN Hn. unfold totalCounts. rewrite (@raw_counts_bins acos positions boxSize rMax numBins HN).
  rewrite <- (@binned_sum numBins (all_angles acos positions boxSize rMax) Hn).
  rewrite <- (map_map (binned numBins (all_angles acos positions boxSize rMax))
                      (fun c => of_Z (2 * Z.of_nat c))).
  change pzero with (of_Z (2 * Z.of_nat 0)).
  rewrite sum_of_counts; [reflexivity|].
  rewrite (@binned_sum numBins (all_angles acos positions boxSize rMax) Hn). cbn [Nat.add].
  pose proof (counted_le numBins (all_angles acos positions boxSize rMax)) as C.
  pose proof (all_angles_length acos positions boxSize rMax) as L.
  replace (Z.of_nat (length positions) ^ 3)%Z
    with (Z.of_nat (length positions * (length positions * length positions))) in HN
    by (rewrite !Nat2Z.inj_mul; ring).
  lia.
Qed.

Lemma of_Z_zero_iff (c : nat) :
  (2 * Z.of_nat c < 2 ^ 53)%Z -> (of_Z (2 * Z.of_nat c) === pzero)%js = (c =? 0).
Proof.
  intros H. destruct c as [|c]; [reflexivity|].
  destruct (@of_Z_exact (2 * Z.of_nat (S c)) ltac:(lia)) as (m & e & E & _).
  rewrite E. reflexivity.
Qed.

(** X4. Under the same bound on the number of particles, and fewer than
    2^53 bins: [totalCounts] is exactly twice the number of angles that pass
    the test of line 90, and the returned [adf] is, bin by bin, +0 when that
    number is 0 and otherwise [2 c_b / (2 C * dthetaRad)], with [c_b] the
    number of angles counted in bin [b] and [C] their total. *)
Theorem X4_exact_density (acos : float -> float) (positions : list vec3) (boxSize : vec3)
      (rMax : float) (numBins : nat) :
  (Z.of_nat (length positions) ^ 3 < 2 ^ 53)%Z -> (Z.of_nat numBins < 2 ^ 53)%Z ->
  let angles := all_angles acos positions boxSize rMax in
  let total := of_Z (2 * Z.of_nat (counted numBins angles)) in
  totalCounts acos positions boxSize rMax numBins = total /\
  adf (computeADF acos positions boxSize rMax numBins)
  = map (fun b => if counted numBins angles =? 0 then pzero
                  else (of_Z (2 * Z.of_nat (binned numBins angles b))
                        / (total * dthetaRad numBins))%js)
        (seq 0 numBins).
Proof.
  intros HN Hn angles total.
  pose proof (@totalCounts_exact acos positions boxSize rMax numBins HN Hn) as T.
  fold angles in T. fold total in T. split; [exact T|].
  assert (Hc : (2 * Z.of_nat (counted numBins angles) < 2 ^ 53)%Z).
  { pose proof (counted_le numBins angles) as C.
    pose proof (all_angles_length acos positions boxSize rMax) as L. fold angles in L.
    replace (Z.of_nat (length positions) ^ 3)%Z
      with (Z.of_nat (length positions * (length positions * length positions))) in HN
      by (rewrite !Nat2Z.inj_mul; ring).
    lia. }
  unfold computeADF. rewrite T. unfold total at 1. rewrite (@of_Z_zero_iff _ Hc).
  rewrite (@raw_counts_bins acos positions boxSize rMax numBins HN). fold angles.
  destruct (Nat.eqb_spec (counted numBins angles) 0) as [E0|Hne]; cbn [adf].
  - apply map_ext_in. intros b Hb. apply in_seq in Hb.
    assert (Hb0 : binned numBins angles b = 0).
    { pose proof (@binned_sum numBins angles Hn) as S. rewrite E0 in S.
      clear - S Hb. revert S.
      assert (G : forall l, In b l ->
                  list_sum (map (binned numBins angles) l) = 0 -> binned numBins angles b = 0).
      { induction l as [|x l IH]; cbn [map]; [intros []|].
        change (list_sum (?a :: ?r)) with (a + list_sum r).
        intros [->|Hin] S; [lia|]. apply IH; [exact Hin|lia]. }
      apply G. apply in_seq. exact Hb. }
    rewrite Hb0. reflexivity.
  - rewrite map_map. reflexivity.
Qed.

(** ** Boxes the minimum image cannot work with *)

Lemma min_image_degenerate (d b : float) : degenerate b = true -> min_image d b = NaN.
Proof.
  destruct b as [[|]|[|]| |s m e]; try discriminate; intros _;
    destruct d as [[|]|[|]| |[|] m' e']; reflexivity.
Qed.

Lemma displacement_degenerate (boxSize p q : vec3) :
  has_degenerate_edge boxSize = true -> has_nan (displacement boxSize p q) = true.
Proof.
  unfold has_degenerate_edge, has_nan, displacement. cbn [c0 c1 c2]. intros H.
  apply orb_true_iff in H. destruct H as [H | H]; [apply orb_true_iff in H; destruct H as [H | H]|];
    rewrite (min_image_degenerate _ _ H); cbn [is_nan NaN orb];
    rewrite ?orb_true_r; reflexivity.
Qed.

(** X7. With a box edge that is zero, infinite or NaN, every displacement
    has a NaN component and no particle has a neighbour: unless [numBins] is
    no array length (then the call throws a [RangeError]), [computeADF] does
    not fail, it returns [numBins] bins that are all +0 and writes the
    warning. *)
Theorem X7_degenerate_edge (acos : float -> float) (positions : list vec3)
      (boxSize : vec3) (rMax numBins : float) (w : world) :
  has_degenerate_edge boxSize = true ->
  call_computeADF acos positions boxSize rMax numBins w
  = if array_length_ok numBins
    then Normal (Result (slice_but_last (thetaBin (Z.to_nat (floorZ numBins))))
                        (repeat pzero (Z.to_nat (floorZ numBins))),
                 World (chartInstance w) (console w ++ [no_angles_warning]))
    else Throw RangeError.
Proof.
  intros H. unfold call_computeADF. destruct (array_length_ok numBins); [|reflexivity].
  f_equal. apply computeADF_run_no_angles, all_angles_none. intros p q _ _.
  rewrite (norm_nan _ (displacement_degenerate boxSize p q H)). reflexivity.
Qed.

(** X9. Called with [numBins = 0] (which the click handler never passes),
    [computeADF] returns two empty arrays and writes the warning, whatever
    the other arguments. *)
Theorem X9_no_bins (acos : float -> float) (positions : list vec3)
      (boxSize : vec3) (rMax : float) (w : world) :
  computeADF_run acos positions boxSize rMax 0 w
  = (Result [] [], World (chartInstance w) (console w ++ [no_angles_warning])).
Proof.
  rewrite computeADF_run_zeros; [reflexivity|].
  destruct (raw_counts_ok acos positions boxSize rMax 0) as [Hlen _].
  destruct (raw_counts acos positions boxSize rMax 0); [reflexivity|discriminate].
Qed.

(** ** The sign of the returned values *)

Lemma binary_round_aux_not_negative (m e : Z) (l : location) :
  not_negative (binary_round_aux prec emax false m e l).
Proof.
  rewrite binary_round_aux_eq. destruct (fst (round_m_e m e l)); cbn; auto.
  destruct (_ <=? _)%Z; reflexivity.
Qed.

Lemma mul_not_negative (x y : float) :
  not_negative x -> not_negative y -> not_negative (x * y)%js.
Proof.
  destruct x as [sx|sx| |sx mx ex], y as [sy|sy| |sy my ey]; cbn; intros Hx Hy; subst; auto.
  apply binary_round_aux_not_negative.
Qed.

Lemma div_not_negative (x y : float) :
  not_negative x -> not_negative y -> not_negative (x / y)%js.
Proof.
  destruct x as [sx|sx| |sx mx ex], y as [sy|sy| |sy my ey]; cbn; intros Hx Hy; subst; auto.
  unfold div, SFdiv. cbn [xorb].
  destruct (SFdiv_core_binary prec emax (Zpos mx) ex (Zpos my) ey) as [[mz ez] lz].
  apply binary_round_aux_not_negative.
Qed.

Lemma is_count_not_negative (x : float) : is_count x -> not_negative x.
Proof.
  intros [-> | [-> | (m & e & -> & _)]]; reflexivity.
Qed.

Lemma not_negative_ltb (x : float) : not_negative x -> (x < pzero)%js = false.
Proof. destruct x as [s|s| |s m e]; cbn; intros H; subst; reflexivity. Qed.

Lemma sum_is_count (l : list float) (acc : float) :
  Forall is_count l -> is_count acc -> is_count (fold_left add l acc).
Proof.
  revert acc; induction l as [|x l IH]; intros acc Hl Hacc; [exact Hacc|].
  inversion Hl; subst. cbn [fold_left]. apply IH; [assumption|].
  apply add_is_count; assumption.
Qed.

Lemma PI_not_negative : not_negative JSMath.PI.
Proof. reflexivity. Qed.

Lemma of_Z_not_negative (z : Z) : (0 <= z)%Z -> not_negative (of_Z z).
Proof.
  intros H. destruct z as [|p|p]; try lia; [reflexivity|].
  unfold of_Z, binary_normalize, binary_round.
  destruct (shl_align _ _ _). apply binary_round_aux_not_negative.
Qed.

(** X5. No value of the returned [adf] is negative, and none is -0: every
    value [x] is NaN or has a positive sign, so [x < 0] is false. *)
Theorem X5_not_negative (acos : float -> float) (positions : list vec3) (boxSize : vec3)
      (rMax : float) (numBins : nat) :
  Forall (fun x => not_negative x /\ (x < pzero)%js = false)
         (adf (computeADF acos positions boxSize rMax numBins)).
Proof.
  apply Forall_forall. intros x Hx.
  assert (G : not_negative x); [|split; [exact G|apply not_negative_ltb, G]].
  destruct (raw_counts_ok acos positions boxSize rMax numBins) as [Hlen Hcnt].
  unfold computeADF in Hx. destruct (_ === _)%js; cbn [adf] in Hx.
  - rewrite Forall_forall in Hcnt. apply is_count_not_negative, Hcnt, Hx.
  - apply in_map_iff in Hx. destruct Hx as (c & <- & Hc).
    assert (Hn : 1 <= numBins).
    { destruct numBins; [|lia]. cbn in Hlen.
      destruct (raw_counts acos positions boxSize rMax 0); [destruct Hc|discriminate]. }
    apply div_not_negative.
    { rewrite Forall_forall in Hcnt. apply is_count_not_negative, Hcnt, Hc. }
    apply mul_not_negative.
    + apply is_count_not_negative. unfold totalCounts.
      apply sum_is_count; [exact Hcnt|left; reflexivity].
    + unfold dthetaRad. rewrite (dtheta_eq Hn).
      apply div_not_negative; [|apply of_Z_not_negative; lia].
      apply mul_not_negative; [|apply PI_not_negative].
      apply div_not_negative; apply of_Z_not_negative; lia.
Qed.

(** ** Tokens *)

Lemma split_ws_from_cons (g : bool) (s : jsstring) :
  exists h t, split_ws_from g s = h :: t.
Proof.
  revert g; induction s as [|c s IH]; intros g; cbn [split_ws_from].
  - eauto.
  - destruct (is_white c).
    + destruct g; [apply IH|eauto].
    + destruct (IH false) as (h & t & ->). eauto.
Qed.

Lemma split_ws_from_blank_free (g : bool) (s : jsstring) :
  Forall (fun t => blank_free t = true) (split_ws_from g s).
Proof.
  revert g; induction s as [|c s IH]; intros g; cbn [split_ws_from].
  - repeat constructor.
  - destruct (is_white c) eqn:W.
    + destruct g; [apply IH|]. constructor; [reflexivity|apply IH].
    + specialize (IH false). destruct (split_ws_from false s) as [|l ls].
      * repeat constructor. cbn. rewrite W. reflexivity.
      * inversion IH; subst. constructor; [|assumption].
        cbn. rewrite W. cbn. assumption.
Qed.

Lemma ends_black_cons (c : N) (s : jsstring) :
  s <> [] -> ends_black (c :: s) -> ends_black s.
Proof.
  intros Hs (s' & d & E & W). destruct s' as [|c' s'].
  - cbn in E. inversion E; subst. congruence.
  - cbn in E. inversion E; subst. exists s', d. auto.
Qed.

Lemma split_ws_from_nonempty (g : bool) (s : jsstring) :
  ends_black s ->
  exists h t, split_ws_from g s = h :: t /\ Forall (fun x => x <> []) t /\
              (h = [] -> g = false /\ exists c s', s = c :: s' /\ is_white c = true).
Proof.
  revert g; induction s as [|c s IH]; intros g Hb.
  - destruct Hb as (s' & d & E & _). destruct s'; discriminate.
  - cbn [split_ws_from]. destruct s as [|c' s].
    + destruct Hb as (s' & d & E & W).
      assert (c = d).
      { destruct s' as [|? [|? ?]]; cbn in E; inversion E; subst; reflexivity. }
      subst d. rewrite W. cbn. exists [c], [].
      split; [reflexivity|]. split; [constructor|discriminate].
    + assert (Hb' : ends_black (c' :: s)) by (apply (@ends_black_cons c); [discriminate|exact Hb]).
      destruct (is_white c) eqn:W.
      * destruct (IH true Hb') as (h & t & E & Ft & Hh).
        assert (Hne : h <> []) by (intros Eh; destruct (Hh Eh); discriminate).
        destruct g.
        -- exists h, t. split; [assumption|]. split; [assumption|].
           intros Eh; congruence.
        -- exists [], (h :: t). rewrite E. split; [reflexivity|].
           split; [constructor; assumption|].
           intros _. split; [reflexivity|]. exists c, (c' :: s). auto.
      * destruct (IH false Hb') as (h & t & E & Ft & Hh). rewrite E.
        exists (c :: h), t. split; [reflexivity|]. split; [assumption|discriminate].
Qed.

Lemma drop_white_app_black (l : jsstring) (c : N) :
  is_white c = false -> drop_white (l ++ [c]) = drop_white l ++ [c].
Proof.
  intros W. induction l as [|d l IH]; cbn [app drop_white].
  - rewrite W. reflexivity.
  - destruct (is_white d); [exact IH|reflexivity].
Qed.

Lemma drop_white_head (s : jsstring) :
  drop_white s = [] \/ exists c s', drop_white s = c :: s' /\ is_white c = false.
Proof.
  induction s as [|c s IH]; cbn [drop_white]; [left; reflexivity|].
  destruct (is_white c) eqn:W; [exact IH|]. right. eauto.
Qed.

(** A trimmed string is empty, or starts and ends with code units that are
    not white space. *)
Lemma trim_shape (s : jsstring) :
  trim s = [] \/
  (ends_black (trim s) /\ exists c s', trim s = c :: s' /\ is_white c = false).
Proof.
  unfold trim. destruct (drop_white_head s) as [-> | (c & s' & -> & W)].
  - left. reflexivity.
  - right. cbn [rev]. rewrite (@drop_white_app_black (rev s') c W), rev_app_distr. cbn [rev app].
    split; [|eauto].
    destruct (drop_white_head (rev s')) as [E | (d & r & E & Wd)]; rewrite E.
    + exists [], c. auto.
    + exists (c :: rev r), d. cbn [rev]. rewrite app_comm_cons. auto.
Qed.

(** X10. The tokens [line.trim().split(/\s+/)] gives: for a line of white
    space only, the single empty token (so [parts.length] is 1, never 0, and
    [boxLine[0]] always exists); for any other line, tokens that are all
    non-empty and free of white space. *)
Theorem X10_tokens (s : jsstring) :
  (trim s = [] /\ split_ws (trim s) = [[]]) \/
  (trim s <> [] /\
   Forall (fun t => t <> [] /\ blank_free t = true) (split_ws (trim s))).
Proof.
  destruct (trim_shape s) as [E | (Hb & c & s' & E & W)].
  - left. rewrite E. auto.
  - right. split; [rewrite E; discriminate|].
    pose proof (split_ws_from_blank_free false (trim s)) as B.
    destruct (split_ws_from_nonempty false Hb) as (h & t & Et & Ft & Hh).
    unfold split_ws. rewrite Et in *.
    assert (Hne : h <> []).
    { intros Eh. destruct (Hh Eh) as (_ & c1 & s1 & E1 & W1). congruence. }
    inversion B as [|? ? Bh Bt]; subst.
    constructor; [auto|].
    rewrite Forall_forall in *. intros x Hx. split; [apply Ft|apply Bt]; assumption.
Qed.

(** ** Line ends *)

Lemma drop_white_app_white (b : jsstring) (w : N) :
  is_white w = true ->
  drop_white (b ++ [w]) = match drop_white b with [] => [] | x => x ++ [w] end.
Proof.
  intros W. induction b as [|d b IH]; cbn [app drop_white].
  - rewrite W. reflexivity.
  - destruct (is_white d); [exact IH|reflexivity].
Qed.

Lemma trim_app_white (b : jsstring) (w : N) : is_white w = true -> trim (b ++ [w]) = trim b.
Proof.
  intros W. unfold trim. rewrite (@drop_white_app_white b w W).
  destruct (drop_white b) as [|x r]; [reflexivity|].
  rewrite rev_app_distr. cbn [rev app drop_white]. rewrite W. reflexivity.
Qed.

Lemma same_line_trim (a b : jsstring) : same_line a b -> trim a = trim b.
Proof. intros [-> | ->]; [reflexivity|]. apply trim_app_white. reflexivity. Qed.

Lemma split_lines_crlf (t : jsstring) :
  Forall2 same_line (split_lines (crlf t)) (split_lines t).
Proof.
  induction t as [|c t IH]; cbn [crlf split_lines].
  - constructor; [left; reflexivity|constructor].
  - destruct (N.eqb_spec c 10) as [->|Hne].
    + cbn [split_lines N.eqb Pos.eqb]. constructor; [right; reflexivity|exact IH].
    + cbn [split_lines]. destruct (N.eqb_spec c 10) as [E|_]; [contradiction|].
      inversion IH as [|a b la lb R F Ea Eb]; [constructor; [left; reflexivity|constructor]|].
      constructor; [|exact F].
      destruct R as [-> | ->]; [left; reflexivity|right; reflexivity].
Qed.

Section ReadXYZFacts.

Variable parseInt : jsstring -> float.
Variable parseFloat : jsstring -> float.

Lemma read_line_trim (a b : jsstring) :
  trim a = trim b -> read_line parseFloat a = read_line parseFloat b.
Proof. intros E. unfold read_line. rewrite E. reflexivity. Qed.

Lemma read_positions_same_lines (n : float) (l1 l2 : list jsstring) :
  Forall2 same_line l1 l2 ->
  forall i acc, read_positions parseFloat n i l1 acc = read_positions parseFloat n i l2 acc.
Proof.
  induction 1 as [|a b l1 l2 R F IH]; intros i acc; cbn [read_positions]; [reflexivity|].
  rewrite (read_line_trim a b (same_line_trim R)), IH. reflexivity.
Qed.

Lemma Forall2_skipn {A B : Type} (R : A -> B -> Prop) (n : nat) (l1 : list A) (l2 : list B) :
  Forall2 R l1 l2 -> Forall2 R (skipn n l1) (skipn n l2).
Proof.
  revert l1 l2; induction n as [|n IH]; intros l1 l2 F; [exact F|].
  destruct F; cbn [skipn]; [constructor|apply IH; assumption].
Qed.

Lemma read_lines_same_lines (l1 l2 : list jsstring) :
  Forall2 same_line l1 l2 ->
  read_lines parseInt parseFloat l1 = read_lines parseInt parseFloat l2.
Proof.
  intros F. unfold read_lines.
  assert (E0 : trim (nth 0 l1 []) = trim (nth 0 l2 [])).
  { destruct F as [|a b ? ? R _]; [reflexivity|]. apply same_line_trim, R. }
  assert (E1 : read_header parseFloat l1 = read_header parseFloat l2).
  { unfold read_header. destruct F as [|a b ? ? _ F]; [reflexivity|].
    destruct F as [|a' b' ? ? R _]; [reflexivity|]. cbn [nth_error].
    rewrite (same_line_trim R). reflexivity. }
  rewrite E0, E1, (read_positions_same_lines _ (Forall2_skipn 2 F)). reflexivity.
Qed.

(** X11. A file with Windows line ends reads as the same file with Unix
    line ends: putting a carriage return before every line feed changes
    neither the positions and the box handed to the callback nor the error
    thrown. *)
Theorem X11_line_ends (text : jsstring) :
  read_xyz parseInt parseFloat (crlf text) = read_xyz parseInt parseFloat text.
Proof. apply read_lines_same_lines, split_lines_crlf. Qed.

(** ** What follows the first frame *)

Lemma split_lines_cons (s : jsstring) : exists l ls, split_lines s = l :: ls.
Proof.
  induction s as [|c s (l & ls & E)]; cbn [split_lines]; [eauto|].
  destruct (c =? 10)%N; [eauto|]. rewrite E. eauto.
Qed.

Lemma split_lines_app (a b : jsstring) :
  split_lines (a ++ 10%N :: b) = split_lines a ++ split_lines b.
Proof.
  induction a as [|c a IH]; cbn [app split_lines].
  - reflexivity.
  - rewrite IH. destruct (c =? 10)%N; [reflexivity|].
    destruct (split_lines_cons a) as (l & ls & ->). reflexivity.
Qed.

Lemma read_positions_more (n : float) (rest more : list jsstring) :
  forall i acc r,
    read_positions parseFloat n i rest acc = Normal r ->
    read_positions parseFloat n i (rest ++ more) acc = Normal r.
Proof.
  induction rest as [|line rest IH]; intros i acc r; cbn [app].
  - destruct more; cbn [read_positions]; destruct (_ < _)%js; try discriminate; auto.
  - cbn [read_positions]. destruct (_ < _)%js; [apply IH|auto].
Qed.

Lemma read_lines_more (lines more : list jsstring) (r : list vec3 * vec3) :
  read_lines parseInt parseFloat lines = Normal r ->
  read_lines parseInt parseFloat (lines ++ more) = Normal r.
Proof.
  unfold read_lines, read_header.
  destruct lines as [|l0 [|l1 rest]]; cbn [nth_error app nth skipn]; try discriminate.
  destruct (negb _); [discriminate|].
  destruct (_ =? _)%Z; [discriminate|].
  destruct (_ <? _); [discriminate|].
  destruct (read_positions parseFloat _ 2 rest []) as [ps|e] eqn:E; [|discriminate].
  rewrite (read_positions_more _ _ more _ _ E). auto.
Qed.

(** X12. Only the first frame is read: when a text is read without error,
    the same text followed by a line feed and anything else gives the same
    positions and the same box. *)
Theorem X12_first_frame (text more : jsstring) (r : list vec3 * vec3) :
  read_xyz parseInt parseFloat text = Normal r ->
  read_xyz parseInt parseFloat (text ++ 10%N :: more) = Normal r.
Proof.
  unfold read_xyz. rewrite split_lines_app. apply read_lines_more.
Qed.

(** ** The declared number of particles *)

Lemma ltb_of_Z (a b : Z) :
  (0 <= a < 2 ^ 53)%Z -> (0 <= b < 2 ^ 53)%Z -> (of_Z a < of_Z b)%js = (a <? b)%Z.
Proof.
  intros Ha Hb.
  destruct (Z.eq_dec a 0) as [->|Na]; destruct (Z.eq_dec b 0) as [->|Nb].
  - reflexivity.
  - destruct (@of_Z_exact b ltac:(lia)) as (mb & eb & Eb & _). rewrite Eb.
    symmetry. apply Z.ltb_lt. lia.
  - destruct (@of_Z_exact a ltac:(lia)) as (ma & ea & Ea & _). rewrite Ea.
    symmetry. apply Z.ltb_ge. lia.
  - destruct (@of_Z_exact a ltac:(lia)) as (ma & ea & Ea & Ca & Hea & Hma).
    destruct (@of_Z_exact b ltac:(lia)) as (mb & eb & Eb & Cb & Heb & Hmb).
    rewrite Ea, Eb. unfold ltb, SFltb. rewrite (compare_canonical Ca Cb).
    rewrite (scaled_exact _ Hma Hea), (scaled_exact _ Hmb Heb).
    assert (P : (0 < 2 ^ 1074)%Z) by (apply Z.pow_pos_nonneg; lia).
    destruct (Z.compare_spec (a * 2 ^ 1074) (b * 2 ^ 1074)) as [E | L | G]; symmetry.
    + apply Z.ltb_ge. apply Z.mul_cancel_r in E; lia.
    + apply Z.ltb_lt. apply Z.mul_lt_mono_pos_r in L; assumption.
    + apply Z.ltb_ge. apply Z.mul_lt_mono_pos_r in G; lia.
Qed.




(** X14. A first line that [parseInt] cannot read (NaN) is no error: when
    the second line gives a box, the callback is called with no position at
    all. *)
Theorem X14_unreadable_count (text : jsstring) (boxSize : vec3) :
  is_nan (parseInt (trim (nth 0 (split_lines text) []))) = true ->
  read_header parseFloat (split_lines text) = Normal boxSize ->
  read_xyz parseInt parseFloat text = Normal ([], boxSize).
Proof.
  intros En Hh. unfold read_xyz, read_lines. rewrite Hh.
  apply is_nan_eq in En. rewrite En.
  destruct (skipn 2 (split_lines text)); reflexivity.
Qed.

End ReadXYZFacts.

(** ** One chart at a time *)

Lemma destroy_length (h : nat) (cs : list chart) : length (destroy h cs) = length cs.
Proof. revert h; induction cs as [|c cs IH]; intros [|h]; cbn; auto. Qed.

Lemma destroy_nth_error (h k : nat) (cs : list chart) (c : chart) :
  nth_error (destroy h cs) k = Some c -> destroyed c = false ->
  k <> h /\ nth_error cs k = Some c.
Proof.
  revert h k; induction cs as [|x cs IH]; intros [|h] [|k]; cbn [destroy nth_error];
    try discriminate.
  - intros E D. inversion E; subst. discriminate.
  - intros E _. split; [discriminate|exact E].
  - intros E _. split; [discriminate|exact E].
  - intros E D. destruct (IH h k E D). split; [congruence|assumption].
Qed.

Section PageFacts.

Variable acos : float -> float.
Variable parseInt : jsstring -> float.
Variable parseFloat : jsstring -> float.
Variable toFixed2 : float -> jsstring.

Lemma plotADF_tidy (theta adf : list float) (p : page) :
  tidy p -> tidy (plotADF toFixed2 theta adf p).
Proof.
  intros T. unfold plotADF.
  set (cs := match chartInstance (globals p) with
             | Some h => destroy h (charts p)
             | None => charts p
             end).
  assert (D : forall k c, nth_error cs k = Some c -> destroyed c = false -> False).
  { intros k c E Dc. unfold cs in E. destruct (chartInstance (globals p)) as [h|] eqn:I.
    - destruct (destroy_nth_error _ _ _ E Dc) as [Hne E'].
      pose proof (proj1 (T k) (ex_intro _ c (conj E' Dc))) as I'. congruence.
    - pose proof (proj1 (T k) (ex_intro _ c (conj E Dc))) as I'. congruence. }
  intros k. cbn [globals charts chartInstance]. split.
  - intros (c & E & Dc). destruct (Nat.lt_ge_cases k (length cs)) as [Lt|Ge].
    + rewrite nth_error_app1 in E by exact Lt. destruct (D k c E Dc).
    + rewrite nth_error_app2 in E by exact Ge.
      destruct (k - length cs) as [|d] eqn:Ek; [f_equal; lia|].
      destruct d; discriminate.
  - intros E. inversion E; subst.
    exists (Chart (map toFixed2 theta) adf false).
    rewrite nth_error_app2, Nat.sub_diag by lia. auto.
Qed.

Lemma computeADF_run_chartInstance (positions : list vec3) (boxSize : vec3) (rMax : float)
      (numBins : nat) (w : world) :
  chartInstance (snd (computeADF_run acos positions boxSize rMax numBins w)) = chartInstance w.
Proof. unfold computeADF_run. destruct (_ === _)%js; reflexivity. Qed.

Lemma file_loaded_tidy (rq : request) (p : page) :
  tidy p -> tidy (file_loaded acos parseInt parseFloat toFixed2 rq p).
Proof.
  intros T. unfold file_loaded.
  destruct (read_xyz parseInt parseFloat (req_text rq)) as [[positions boxSize]|e];
    [|exact T].
  unfold plot_callback, call_computeADF.
  destruct (array_length_ok (req_numBins rq)); [|exact T].
  destruct (computeADF_run acos positions boxSize (req_rMax rq)
              (Z.to_nat (floorZ (req_numBins rq))) (globals p)) as [r w] eqn:E.
  apply (plotADF_tidy (theta r) (adf r)
           (p := Page w (charts p) (error_text p) (plot_disabled p))).
  pose proof (computeADF_run_chartInstance positions boxSize (req_rMax rq)
                (Z.to_nat (floorZ (req_numBins rq))) (globals p)) as I.
  rewrite E in I. cbn [snd] in I.
  intros h. cbn [globals charts]. rewrite I. apply T.
Qed.

Lemma handle_tidy (p : page) (ev : event) :
  tidy p -> tidy (handle acos parseInt parseFloat toFixed2 p ev).
Proof.
  intros T. destruct ev as [file|file r n|rq]; cbn [handle].
  - destruct file; exact T.
  - unfold plot_clicked. destruct file; [|exact T].
    destruct (_ || _); [exact T|]. destruct (_ || _); exact T.
  - apply file_loaded_tidy, T.
Qed.

(** X18. From a page without a chart, after any sequence of file choices,
    clicks and file loads, the charts that are not destroyed are exactly the
    one [chartInstance] holds: at most one chart is alive, and every chart a
    new one replaced was destroyed first. *)
Theorem X18_one_chart (evs : list event) (w : list string) (t : text_content) (d : bool)
      (h : nat) :
  let p := run acos parseInt parseFloat toFixed2 evs (Page (World None w) [] t d) in
  (exists c, nth_error (charts p) h = Some c /\ destroyed c = false)
  <-> chartInstance (globals p) = Some h.
Proof.
  intros p. revert h. change (tidy p). unfold p, run.
  apply fold_left_invariant; [intros x ev; apply handle_tidy|].
  intros h. cbn. split; [intros (c & E & _); destruct h; discriminate|discriminate].
Qed.

(** ** The checks of a click *)

Lemma not_valid_iff (x y : float) :
  is_nan y = false ->
  is_nan x || (x <= y)%js = negb (y < x)%js.
Proof.
  intros Hy. destruct (is_nan x) eqn:Hx.
  - apply is_nan_eq in Hx. subst x. destruct y; try discriminate; reflexivity.
  - unfold leb, ltb, SFleb, SFltb. rewrite (SFcompare_antisym x y).
    destruct (SFcompare_some x y Hx Hy) as [[| |] ->]; reflexivity.
Qed.

(** X15. A click on the plot button calls [readXYZFile] exactly when a file
    is selected, [rMax > 0] and [numBins >= 1] (so neither is NaN), with
    those two numbers; in every case it leaves the charts, [chartInstance]
    and the console as they were. *)
Theorem X15_click_checks (file : option jsstring) (rMaxValue numBinsValue : jsstring)
      (p : page) :
  let rMax := parseFloat rMaxValue in
  let numBins := parseInt numBinsValue in
  let p' := fst (plot_clicked parseInt parseFloat file rMaxValue numBinsValue p) in
  snd (plot_clicked parseInt parseFloat file rMaxValue numBinsValue p)
  = match file with
    | Some f => if (pzero < rMax)%js && (of_Z 1 <= numBins)%js
                then Some (Request f rMax numBins) else None
    | None => None
    end /\
  globals p' = globals p /\ charts p' = charts p.
Proof.
  intros rMax numBins p'. unfold p', plot_clicked. fold rMax. fold numBins.
  destruct file as [f|]; [|auto].
  rewrite (@not_valid_iff rMax pzero eq_refl).
  assert (E : is_nan numBins || (numBins < of_Z 1)%js = negb (of_Z 1 <= numBins)%js).
  { destruct (is_nan numBins) eqn:Hn.
    - apply is_nan_eq in Hn. rewrite Hn. reflexivity.
    - unfold leb, ltb, SFleb, SFltb. rewrite (SFcompare_antisym numBins (of_Z 1)).
      destruct (@SFcompare_some numBins (of_Z 1) Hn eq_refl) as [[| |] ->]; reflexivity. }
  rewrite E.
  destruct (pzero < rMax)%js, (of_Z 1 <= numBins)%js; cbn; auto.
Qed.

End PageFacts.

(** ** The page after a file is read *)

Section LoadFacts.

Variable acos : float -> float.
Variable parseInt : jsstring -> float.
Variable parseFloat : jsstring -> float.
Variable toFixed2 : float -> jsstring.

Lemma computeADF_lengths (positions : list vec3) (boxSize : vec3) (rMax : float)
      (numBins : nat) :
  length (theta (computeADF acos positions boxSize rMax numBins)) = numBins /\
  length (adf (computeADF acos positions boxSize rMax numBins)) = numBins.
Proof.
  destruct (raw_counts_ok acos positions boxSize rMax numBins) as [Hlen _].
  unfold computeADF. destruct (_ === _)%js; cbn [theta adf];
    rewrite slice_but_last_length, thetaBin_length, ?length_map; lia.
Qed.

Lemma computeADF_run_fst (positions : list vec3) (boxSize : vec3) (rMax : float)
      (numBins : nat) (w : world) :
  fst (computeADF_run acos positions boxSize rMax numBins w)
  = computeADF acos positions boxSize rMax numBins.
Proof. unfold computeADF_run. destruct (_ === _)%js; reflexivity. Qed.

(** X16. What [reader.onload] does to the page. If reading the text throws,
    or if [numBins] is not a length arrays can have (more than 2^32 - 2),
    only the error text changes: it becomes the message of the error, and
    the chart on display and the console stay as they were. Otherwise the
    error text is cleared, and one chart is added and becomes
    [chartInstance]: it is not destroyed, its data is the [adf] that
    [computeADF] returns for the positions and the box read, and it has
    [numBins] labels and [numBins] values. *)
Theorem X16_file_loaded (rq : request) (p : page) :
  let p' := file_loaded acos parseInt parseFloat toFixed2 rq p in
  match read_xyz parseInt parseFloat (req_text rq) with
  | Throw e => p' = set_error (message e) p
  | Normal (positions, boxSize) =>
      if array_length_ok (req_numBins rq)
      then
        let n := Z.to_nat (floorZ (req_numBins rq)) in
        let r := computeADF acos positions boxSize (req_rMax rq) n in
        error_text p' = Text [] /\
        plot_disabled p' = plot_disabled p /\
        length (charts p') = S (length (charts p)) /\
        chartInstance (globals p') = Some (length (charts p)) /\
        nth_error (charts p') (length (charts p))
          = Some (Chart (map toFixed2 (theta r)) (adf r) false) /\
        length (map toFixed2 (theta r)) = n /\ length (adf r) = n
      else p' = set_error (MessageOf RangeError) p
  end.
Proof.
  intros p'. unfold p', file_loaded.
  destruct (read_xyz parseInt parseFloat (req_text rq)) as [[positions boxSize]|e];
    [|reflexivity].
  unfold plot_callback, call_computeADF.
  destruct (array_length_ok (req_numBins rq)); [|reflexivity].
  set (n := Z.to_nat (floorZ (req_numBins rq))).
  pose proof (computeADF_run_fst positions boxSize (req_rMax rq) n (globals p)) as F.
  destruct (computeADF_run acos positions boxSize (req_rMax rq) n (globals p)) as [r w].
  cbn [fst] in F. subst r. cbv zeta.
  destruct (computeADF_lengths positions boxSize (req_rMax rq) n) as [L1 L2].
  unfold plotADF, set_error. cbn [globals charts error_text plot_disabled chartInstance].
  set (cs := match chartInstance w with
             | Some h => destroy h (charts p)
             | None => charts p
             end).
  assert (Lcs : length cs = length (charts p)).
  { unfold cs. destruct (chartInstance w); [apply destroy_length|reflexivity]. }
  rewrite Lcs.
  split; [reflexivity|]. split; [reflexivity|].
  split; [rewrite length_app, Lcs; cbn; lia|]. split; [reflexivity|].
  split; [rewrite nth_error_app2, Lcs, Nat.sub_diag by lia; reflexivity|].
  split; [rewrite length_map; exact L1|exact L2].
Qed.

(** X17. A file that yields fewer than three positions (an unreadable or
    too small count, or lines of fewer than four tokens) is no error: when
    [numBins] is an array length, the page gets a chart whose [numBins] values
    are all +0, the warning is written to the console and the error text is
    cleared. *)
Theorem X17_flat_chart (rq : request) (p : page) (positions : list vec3) (boxSize : vec3) :
  read_xyz parseInt parseFloat (req_text rq) = Normal (positions, boxSize) ->
  length positions < 3 ->
  array_length_ok (req_numBins rq) = true ->
  let p' := file_loaded acos parseInt parseFloat toFixed2 rq p in
  let n := Z.to_nat (floorZ (req_numBins rq)) in
  console (globals p') = console (globals p) ++ [no_angles_warning] /\
  error_text p' = Text [] /\
  exists labels,
    nth_error (charts p') (length (charts p)) = Some (Chart labels (repeat pzero n) false) /\
    chartInstance (globals p') = Some (length (charts p)).
Proof.
  intros R H3 A p' n. unfold p', file_loaded. rewrite R.
  unfold plot_callback, call_computeADF. rewrite A. fold n.
  rewrite (@computeADF_run_zeros acos positions boxSize (req_rMax rq) n (globals p)
             (raw_counts_few acos positions boxSize (req_rMax rq) n H3)).
  unfold plotADF, set_error.
  cbn [globals charts error_text plot_disabled chartInstance console theta adf].
  set (cs := match chartInstance (globals p) with
             | Some h => destroy h (charts p)
             | None => charts p
             end).
  assert (Lcs : length cs = length (charts p)).
  { unfold cs. destruct (chartInstance (globals p)); [apply destroy_length|reflexivity]. }
  split; [reflexivity|]. split; [reflexivity|].
  exists (map toFixed2 (slice_but_last (thetaBin n))). rewrite Lcs.
  split; [rewrite nth_error_app2, Lcs, Nat.sub_diag by lia; reflexivity|reflexivity].
Qed.

End LoadFacts.

Example parse_digits_runs :
  parse_digits (str "100") = of_Z 100 /\ parse_digits (str "abc") = NaN /\
  toFixed2_sample (of_Z 45) = str "45.00" /\ toFixed2_sample (dec 1125 1) = str "112.50" /\
  toFixed2_sample (dec 5 3) = str "0.01" /\ toFixed2_sample (of_Z (-3)) = str "-3.00".
Proof. vm_compute. auto 10. Qed.

Lemma X1_particle_order_witness :
  Permutation [unit_x; origin; unit_y] right_angle /\
  computeADF acos_sample right_angle box100 (of_Z 2) 180
  = computeADF acos_sample [unit_x; origin; unit_y] box100 (of_Z 2) 180.
Proof.
  assert (P : Permutation [unit_x; origin; unit_y] right_angle) by apply perm_swap.
  split; [exact P|]. exact (@X1_particle_order acos_sample [unit_x; origin; unit_y] right_angle box100
           (of_Z 2) 180 P).
Defined.

Lemma X3_exact_counts_witness :
  (Z.of_nat (length right_angle) ^ 3 < 2 ^ 53)%Z /\ 90 < 180 /\
  binned 180 (all_angles acos_sample right_angle box100 (dec 12 1)) 90 = 1 /\
  nth 90 (raw_counts acos_sample right_angle box100 (dec 12 1) 180) NaN
  = of_Z (2 * Z.of_nat (binned 180 (all_angles acos_sample right_angle box100 (dec 12 1)) 90)).
Proof.
  assert (H1 : (Z.of_nat (length right_angle) ^ 3 < 2 ^ 53)%Z) by (vm_compute; reflexivity).
  assert (H2 : 90 < 180) by lia.
  split; [exact H1|]. split; [exact H2|]. split; [vm_compute; reflexivity|].
  exact (@X3_exact_counts acos_sample right_angle box100 (dec 12 1) 180 90 H1 H2).
Defined.

Lemma X4_exact_density_witness :
  (Z.of_nat (length right_angle) ^ 3 < 2 ^ 53)%Z /\ (Z.of_nat 4 < 2 ^ 53)%Z /\
  totalCounts acos_sample right_angle box100 (dec 12 1) 4
  = of_Z (2 * Z.of_nat (counted 4 (all_angles acos_sample right_angle box100 (dec 12 1)))).
Proof.
  assert (H1 : (Z.of_nat (length right_angle) ^ 3 < 2 ^ 53)%Z) by (vm_compute; reflexivity).
  assert (H2 : (Z.of_nat 4 < 2 ^ 53)%Z) by (vm_compute; reflexivity).
  split; [exact H1|]. split; [exact H2|].
  exact (proj1 (@X4_exact_density acos_sample right_angle box100 (dec 12 1) 4 H1 H2)).
Defined.

Lemma X6_cutoff_not_positive_witness :
  (pzero < of_Z (-1))%js = false /\
  call_computeADF acos_sample right_angle box100 (of_Z (-1)) (of_Z 4) no_world
  = Normal (Result (slice_but_last (thetaBin 4)) (repeat pzero 4),
            World None [no_angles_warning]) /\
  call_computeADF acos_sample right_angle box100 (of_Z (-1)) (of_Z 4294967295) no_world
  = Throw RangeError.
Proof.
  assert (H : (pzero < of_Z (-1))%js = false) by reflexivity.
  split; [exact H|]. split.
  - exact (@X6_cutoff_not_positive acos_sample right_angle box100 (of_Z (-1)) (of_Z 4)
             no_world H).
  - exact (@X6_cutoff_not_positive acos_sample right_angle box100 (of_Z (-1))
             (of_Z 4294967295) no_world H).
Defined.

Lemma X7_degenerate_edge_witness :
  has_degenerate_edge (Vec (of_Z 100) pzero (of_Z 100)) = true /\
  call_computeADF acos_sample right_angle (Vec (of_Z 100) pzero (of_Z 100)) (of_Z 2)
                  (of_Z 4) no_world
  = Normal (Result (slice_but_last (thetaBin 4)) (repeat pzero 4),
            World None [no_angles_warning]) /\
  call_computeADF acos_sample right_angle (Vec (of_Z 100) pzero (of_Z 100)) (of_Z 2)
                  (of_Z 4294967295) no_world
  = Throw RangeError.
Proof.
  assert (H : has_degenerate_edge (Vec (of_Z 100) pzero (of_Z 100)) = true) by reflexivity.
  split; [exact H|]. split.
  - exact (@X7_degenerate_edge acos_sample right_angle (Vec (of_Z 100) pzero (of_Z 100))
             (of_Z 2) (of_Z 4) no_world H).
  - exact (@X7_degenerate_edge acos_sample right_angle (Vec (of_Z 100) pzero (of_Z 100))
             (of_Z 2) (of_Z 4294967295) no_world H).
Defined.

Lemma X8_nan_particle_witness :
  has_nan (Vec NaN pzero pzero) = true /\
  computeADF acos_sample ([origin] ++ Vec NaN pzero pzero :: [unit_x; unit_y])
             box100 (dec 12 1) 180
  = computeADF acos_sample ([origin] ++ [unit_x; unit_y]) box100 (dec 12 1) 180.
Proof.
  assert (H : has_nan (Vec NaN pzero pzero) = true) by reflexivity.
  split; [exact H|].
  exact (@X8_nan_particle acos_sample [origin] [unit_x; unit_y] (Vec NaN pzero pzero)
           box100 (dec 12 1) 180 H).
Defined.

Lemma X12_first_frame_witness :
  read_xyz parse_digits parse_digits right_angle_xyz = Normal (right_angle, box100) /\
  read_xyz parse_digits parse_digits (right_angle_xyz ++ 10%N :: pair_xyz)
  = Normal (right_angle, box100).
Proof.
  assert (H : read_xyz parse_digits parse_digits right_angle_xyz
              = Normal (right_angle, box100)) by (vm_compute; reflexivity).
  split; [exact H|].
  exact (@X12_first_frame parse_digits parse_digits right_angle_xyz pair_xyz
           (right_angle, box100) H).
Defined.


Lemma X14_unreadable_count_witness :
  is_nan (parse_digits (trim (nth 0 (split_lines no_count_xyz) []))) = true /\
  read_header parse_digits (split_lines no_count_xyz) = Normal box100 /\
  read_xyz parse_digits parse_digits no_count_xyz = Normal ([], box100).
Proof.
  assert (H1 : is_nan (parse_digits (trim (nth 0 (split_lines no_count_xyz) []))) = true)
    by (vm_compute; reflexivity).
  assert (H2 : read_header parse_digits (split_lines no_count_xyz) = Normal box100)
    by (vm_compute; reflexivity).
  split; [exact H1|]. split; [exact H2|].
  exact (@X14_unreadable_count parse_digits parse_digits no_count_xyz box100 H1 H2).
Defined.

Lemma X17_flat_chart_witness :
  let rq := Request pair_xyz (of_Z 2) (of_Z 4) in
  let p' := file_loaded acos_sample parse_digits parse_digits toFixed2_sample rq new_page in
  read_xyz parse_digits parse_digits pair_xyz = Normal ([origin; unit_x], box100) /\
  length [origin; unit_x] < 3 /\
  array_length_ok (of_Z 4) = true /\
  console (globals p') = console (globals new_page) ++ [no_angles_warning] /\
  error_text p' = Text [] /\
  exists labels,
    nth_error (charts p') (length (charts new_page))
    = Some (Chart labels (repeat pzero (Z.to_nat (floorZ (of_Z 4)))) false) /\
    chartInstance (globals p') = Some (length (charts new_page)).
Proof.
  intros rq p'.
  assert (H1 : read_xyz parse_digits parse_digits pair_xyz = Normal ([origin; unit_x], box100))
    by (vm_compute; reflexivity).
  assert (H2 : length [origin; unit_x] < 3) by (cbn; lia).
  assert (H3 : array_length_ok (of_Z 4) = true) by (vm_compute; reflexivity).
  split; [exact H1|]. split; [exact H2|]. split; [exact H3|].
  exact (@X17_flat_chart acos_sample parse_digits parse_digits toFixed2_sample
           rq new_page [origin; unit_x] box100 H1 H2 H3).
Defined.

(** The three handlers run on the sample files: a click without a file, a
    click with a radius that is no number, and the load of the file of two
    particles with 4 bins. *)
Example handlers_run :
  fst (plot_clicked parse_digits parse_digits None (str "2") (str "4") new_page)
  = Page no_world [] (Text no_file_message) true /\
  plot_clicked parse_digits parse_digits (Some pair_xyz) (str "abc") (str "4") new_page
  = (Page no_world [] (Text radius_message) true, None) /\
  plot_clicked parse_digits parse_digits (Some pair_xyz) (str "2") (str "4") new_page
  = (new_page, Some (Request pair_xyz (of_Z 2) (of_Z 4))) /\
  file_loaded acos_sample parse_digits parse_digits toFixed2_sample
              (Request pair_xyz (of_Z 2) (of_Z 4)) new_page
  = Page (World (Some 0) [no_angles_warning])
         [Chart [str "0.00"; str "45.00"; str "90.00"; str "135.00"]
                [pzero; pzero; pzero; pzero] false]
         (Text []) true /\
  file_loaded acos_sample parse_digits parse_digits toFixed2_sample
              (Request (str "3") (of_Z 2) (of_Z 4)) new_page
  = Page no_world [] (MessageOf TypeError) true.
Proof. vm_compute. auto 10. Qed.

Lemma X19_coincident_particles_witness :
  nth_error [origin; unit_x; origin] 0 = Some origin /\
  nth_error [origin; unit_x; origin] 2 = Some origin /\
  neighbors [origin; unit_x; origin] box100 (of_Z 2) 0 = [1%Z] /\
  ~ In 2%Z (neighbors [origin; unit_x; origin] box100 (of_Z 2) 0).
Proof.
  assert (H1 : nth_error [origin; unit_x; origin] 0 = Some origin) by reflexivity.
  assert (H2 : nth_error [origin; unit_x; origin] 2 = Some origin) by reflexivity.
  split; [exact H1|]. split; [exact H2|]. split; [vm_compute; reflexivity|].
  exact (@X19_coincident_particles [origin; unit_x; origin] box100 (of_Z 2) 0 2 origin H1 H2).
Defined.

(** ** Particles out of range *)

Lemma flat_map_ext_members {A B : Type} (f g : A -> list B) (l : list A) :
  (forall x, In x l -> f x = g x) -> flat_map f l = flat_map g l.
Proof.
  induction l as [|x l IH]; intros H; [reflexivity|]. cbn [flat_map].
  rewrite (H x) by (left; reflexivity). f_equal. apply IH.
  intros y Hy. apply H. right. exact Hy.
Qed.

Lemma displacement_self (boxSize p : vec3) (rMax : float) :
  in_range rMax (norm (displacement boxSize p p)) = false.
Proof. exact (self_not_in_range boxSize p rMax). Qed.

(** X20. A particle that is out of range of every other particle (further
    than the cutoff, or at a distance that is +0 or NaN) changes nothing:
    [computeADF] returns what it returns without it. *)
Theorem X20_isolated_particle (acos : float -> float) (l1 l2 : list vec3) (p : vec3)
      (boxSize : vec3) (rMax : float) (numBins : nat) :
  (forall q, In q (l1 ++ l2) -> out_of_range boxSize rMax p q) ->
  computeADF acos (l1 ++ p :: l2) boxSize rMax numBins
  = computeADF acos (l1 ++ l2) boxSize rMax numBins.
Proof.
  intros H. apply computeADF_of_raw. rewrite !raw_counts_angles. f_equal.
  unfold all_angles. rewrite !flat_map_app. cbn [flat_map].
  assert (Hp : angles_at acos (l1 ++ p :: l2) boxSize rMax p = []).
  { unfold angles_at, neighbor_vectors. rewrite filter_none; [reflexivity|].
    intros d Hd. apply in_map_iff in Hd. destruct Hd as (q & <- & Hq).
    apply in_app_iff in Hq. destruct Hq as [Hq | [<- | Hq]].
    - apply (H q). apply in_app_iff. left. exact Hq.
    - apply displacement_self.
    - apply (H q). apply in_app_iff. right. exact Hq. }
  rewrite Hp. cbn [app].
  assert (Hq : forall q, In q (l1 ++ l2) ->
                angles_at acos (l1 ++ p :: l2) boxSize rMax q
                = angles_at acos (l1 ++ l2) boxSize rMax q).
  { intros q Hq. unfold angles_at, neighbor_vectors.
    rewrite !map_app, !filter_app. cbn [map filter].
    rewrite (proj2 (H q Hq)). reflexivity. }
  f_equal; apply flat_map_ext_members; intros q Hin; apply Hq, in_app_iff; auto.
Qed.

Lemma X20_isolated_particle_witness :
  (forall q, In q ([origin] ++ [unit_x; unit_y]) ->
             out_of_range box100 (dec 12 1) (Vec (of_Z 50) (of_Z 50) (of_Z 50)) q) /\
  computeADF acos_sample ([origin] ++ Vec (of_Z 50) (of_Z 50) (of_Z 50) :: [unit_x; unit_y])
             box100 (dec 12 1) 180
  = computeADF acos_sample ([origin] ++ [unit_x; unit_y]) box100 (dec 12 1) 180.
Proof.
  assert (H : forall q, In q ([origin] ++ [unit_x; unit_y]) ->
                out_of_range box100 (dec 12 1) (Vec (of_Z 50) (of_Z 50) (of_Z 50)) q).
  { intros q [<- | [<- | [<- | []]]]; split; vm_compute; reflexivity. }
  split; [exact H|].
  exact (@X20_isolated_particle acos_sample [origin] [unit_x; unit_y]
           (Vec (of_Z 50) (of_Z 50) (of_Z 50)) box100 (dec 12 1) 180 H).
Defined.

(** ** Products and quotients of normal numbers *)

Lemma normal_of_canonical (m : positive) (e : Z) :
  canonical (Zpos m) e -> (-1074 < e)%Z -> normal m e.
Proof.
  intros C He. split; [exact C|].
  destruct (canonical_inv C) as (_ & _ & N). destruct (digits2_bounds m) as [A B].
  rewrite (N He) in A, B. split; assumption.
Qed.

Lemma normal_exponent (m : positive) (e : Z) : normal m e -> (-1074 <= e)%Z.
Proof. intros [C _]. apply (canonical_inv C). Qed.

(** The product of two normal numbers, away from the ends of the format, is
    a normal number within one unit in the last place of the exact
    product. *)
Lemma mul_normal (mx my : positive) (ex ey : Z) :
  normal mx ex -> normal my ey -> (-1074 < ex + ey)%Z -> (ex + ey + 54 <= 971)%Z ->
  exists m e,
    (S754_finite false mx ex * S754_finite false my ey)%js = S754_finite false m e /\
    normal m e /\ (ex + ey <= e <= ex + ey + 54)%Z /\
    ((Zpos m - 1) * 2 ^ (e - (ex + ey)) <= Zpos mx * Zpos my)%Z /\
    (Zpos mx * Zpos my <= (Zpos m + 1) * 2 ^ (e - (ex + ey)))%Z.
Proof.
  intros [Cx Nx] [Cy Ny] Hlo Hhi.
  unfold mul, SFmul. cbn [xorb].
  set (exy := (ex + ey)%Z) in *.
  assert (Hprod : (2 ^ 104 <= Zpos (mx * my) < 2 ^ 106)%Z).
  { rewrite Pos2Z.inj_mul.
    change (2 ^ 104)%Z with (2 ^ 52 * 2 ^ 52)%Z. change (2 ^ 106)%Z with (2 ^ 53 * 2 ^ 53)%Z.
    split.
    - apply Z.mul_le_mono_nonneg; lia.
    - apply Z.mul_lt_mono_nonneg; lia. }
  assert (Hm : (0 <= Zpos (mx * my))%Z) by lia.
  assert (Hpre : (exy <= fexp prec emax (Zdigits2 (Zpos (mx * my)) + exy))%Z).
  { pose proof (@Zdigits2_lower (Zpos (mx * my)) 104 (proj1 Hprod) ltac:(lia)) as D.
    rewrite fexp_eq. lia. }
  destruct (round_m_e_spec loc_Exact Hm Hpre) as (Hm0 & Hee & _ & Hcan & Hbk).
  assert (Hsig : signed_ok false (binary_round_aux prec emax false (Zpos (mx * my)) exy loc_Exact)).
  { apply binary_round_aux_signed. unfold emin, SpecFloat.emin, prec, emax. lia. }
  rewrite binary_round_aux_eq in Hsig |- *.
  set (m := fst (round_m_e (Zpos (mx * my)) exy loc_Exact)) in *.
  set (e := snd (round_m_e (Zpos (mx * my)) exy loc_Exact)) in *.
  destruct m as [|mp|mp] eqn:Em; try lia.
  { destruct Hsig as [Hs' | (? & ? & Hs' & _)]; discriminate. }
  specialize (Hcan ltac:(lia)).
  assert (Nm : normal mp e) by (apply normal_of_canonical; [exact Hcan|lia]).
  assert (P : (0 < 2 ^ (e - exy))%Z) by (apply Z.pow_pos_nonneg; lia).
  assert (Hshift : (e - exy <= 54)%Z).
  { destruct (Z_le_gt_dec (e - exy) 54) as [L|G]; [exact L|exfalso].
    assert (H55 : (2 ^ 55 <= 2 ^ (e - exy))%Z) by (apply Z.pow_le_mono_r; lia).
    assert (H1 : ((2 ^ 52 - 1) * 2 ^ 55 <= (Zpos mp - 1) * 2 ^ (e - exy))%Z).
    { apply Z.mul_le_mono_nonneg; destruct Nm as [_ Nm]; lia. }
    assert (H2 : (2 ^ 106 < (2 ^ 52 - 1) * 2 ^ 55)%Z) by (vm_compute; reflexivity).
    lia. }
  assert (Hfin : (e <=? emax - prec)%Z = true).
  { apply Z.leb_le. unfold emax, prec. lia. }
  rewrite Hfin. exists mp, e. split; [reflexivity|]. split; [exact Nm|].
  split; [lia|]. rewrite Pos2Z.inj_mul in Hbk. split; [exact (proj1 Hbk)|].
  exact (Z.lt_le_incl _ _ (proj2 Hbk)).
Qed.

(** The quotient of two normal numbers, away from the ends of the format,
    is a normal number within one unit in the last place of the exact
    quotient. *)
Lemma div_normal (mx my : positive) (ex ey : Z) :
  normal mx ex -> normal my ey -> (-1074 < ex - ey - 53)%Z -> (ex - ey - 51 <= 971)%Z ->
  exists m e,
    (S754_finite false mx ex / S754_finite false my ey)%js = S754_finite false m e /\
    normal m e /\ (ex - ey - 53 <= e <= ex - ey - 51)%Z /\
    ((Zpos m - 1) * 2 ^ (e - (ex - ey - 53)) * Zpos my <= Zpos mx * 2 ^ 53)%Z /\
    (Zpos mx * 2 ^ 53 <= (Zpos m + 1) * 2 ^ (e - (ex - ey - 53)) * Zpos my)%Z.
Proof.
  intros [Cx Nx] [Cy Ny] Hlo Hhi.
  unfold div, SFdiv. rewrite div_core_eq. cbn [xorb].
  destruct (div_core_spec mx my ex ey) as (Hs & Hq & Hpre & Hbr).
  set (e' := div_exponent mx my ex ey) in *.
  set (q := (Zpos mx * 2 ^ (ex - ey - e') / Zpos my)%Z) in *.
  set (l := new_location (Zpos my) ((Zpos mx * 2 ^ (ex - ey - e')) mod Zpos my)).
  assert (Dx : Zpos (digits2_pos mx) = 53%Z).
  { apply Zdigits2_unique with (m := Zpos mx); lia. }
  assert (Dy : Zpos (digits2_pos my) = 53%Z).
  { apply Zdigits2_unique with (m := Zpos my); lia. }
  assert (He' : e' = (ex - ey - 53)%Z).
  { unfold e', div_exponent. rewrite Dx, Dy, fexp_eq. lia. }
  replace (ex - ey - e')%Z with 53%Z in Hbr by lia.
  assert (Hq52 : (2 ^ 52 <= q)%Z).
  { destruct (Z_le_gt_dec (2 ^ 52) q) as [L|G]; [exact L|exfalso].
    assert ((q + 1) * Zpos my <= 2 ^ 52 * Zpos my)%Z by (apply Z.mul_le_mono_nonneg_r; lia).
    assert (2 ^ 52 * Zpos my < 2 ^ 52 * 2 ^ 53)%Z by (apply Z.mul_lt_mono_pos_l; lia).
    assert (2 ^ 52 * 2 ^ 53 <= Zpos mx * 2 ^ 53)%Z by (apply Z.mul_le_mono_nonneg_r; lia).
    lia. }
  assert (Hq54 : (q < 2 ^ 54)%Z).
  { destruct (Z_lt_le_dec q (2 ^ 54)) as [L|G]; [exact L|exfalso].
    assert (2 ^ 54 * Zpos my <= q * Zpos my)%Z by (apply Z.mul_le_mono_nonneg_r; lia).
    assert (2 ^ 54 * 2 ^ 52 <= 2 ^ 54 * Zpos my)%Z by (apply Z.mul_le_mono_nonneg_l; lia).
    assert (Zpos mx * 2 ^ 53 < 2 ^ 53 * 2 ^ 53)%Z by (apply Z.mul_lt_mono_pos_r; lia).
    assert (2 ^ 53 * 2 ^ 53 = 2 ^ 54 * 2 ^ 52)%Z by reflexivity.
    lia. }
  destruct (round_m_e_spec l Hq Hpre) as (Hm0 & Hee & _ & Hcan & Hbk).
  assert (Hsig : signed_ok false (binary_round_aux prec emax false q e' l)).
  { destruct q as [|qp|qp]; try lia. apply binary_round_aux_signed.
    unfold emin, SpecFloat.emin, prec, emax. lia. }
  rewrite binary_round_aux_eq in Hsig |- *.
  set (m := fst (round_m_e q e' l)) in *. set (e := snd (round_m_e q e' l)) in *.
  destruct m as [|mp|mp] eqn:Em; try lia.
  { destruct Hsig as [Hs' | (? & ? & Hs' & _)]; discriminate. }
  specialize (Hcan ltac:(lia)).
  assert (Nm : normal mp e) by (apply normal_of_canonical; [exact Hcan|lia]).
  assert (P : (0 < 2 ^ (e - e'))%Z) by (apply Z.pow_pos_nonneg; lia).
  assert (Hshift : (e - e' <= 2)%Z).
  { destruct (Z_le_gt_dec (e - e') 2) as [L|G]; [exact L|exfalso].
    assert (H3 : (2 ^ 3 <= 2 ^ (e - e'))%Z) by (apply Z.pow_le_mono_r; lia).
    assert (H1 : ((2 ^ 52 - 1) * 2 ^ 3 <= (Zpos mp - 1) * 2 ^ (e - e'))%Z).
    { apply Z.mul_le_mono_nonneg; destruct Nm as [_ Nm]; lia. }
    assert (H2 : (2 ^ 54 < (2 ^ 52 - 1) * 2 ^ 3)%Z) by (vm_compute; reflexivity).
    lia. }
  assert (Hfin : (e <=? emax - prec)%Z = true).
  { apply Z.leb_le. unfold emax, prec. lia. }
  rewrite Hfin. exists mp, e. split; [reflexivity|]. split; [exact Nm|].
  split; [lia|]. rewrite <- He'. split.
  - apply Z.le_trans with (q * Zpos my)%Z; [|exact (proj1 Hbr)].
    apply Z.mul_le_mono_nonneg_r; [lia|exact (proj1 Hbk)].
  - apply Z.le_trans with ((q + 1) * Zpos my)%Z; [exact (Z.lt_le_incl _ _ (proj2 Hbr))|].
    apply Z.mul_le_mono_nonneg_r; [lia|]. pose proof (proj2 Hbk). lia.
Qed.

(** ** Relative errors *)

(** One unit in the last place of a normal number is at most [2 ^ -52] of
    it. *)
Lemma relative_error (m P X : Z) :
  (2 ^ 52 <= m)%Z -> (0 < P)%Z -> ((m - 1) * P <= X)%Z -> (X <= (m + 1) * P)%Z ->
  ((2 ^ 52 - 1) * (m * P) <= 2 ^ 52 * X)%Z /\ (2 ^ 52 * X <= (2 ^ 52 + 1) * (m * P))%Z.
Proof.
  intros Hm HP L U.
  assert (H : (2 ^ 52 * P <= m * P)%Z) by (apply Z.mul_le_mono_nonneg_r; lia).
  rewrite Z.mul_sub_distr_r in L. rewrite Z.mul_add_distr_r in U.
  set (Y := (m * P)%Z) in *. clearbody Y. clear Hm.
  change (2 ^ 52)%Z with 4503599627370496%Z in *. lia.
Qed.

Lemma mul_scaled (mx my : positive) (ex ey : Z) :
  normal mx ex -> normal my ey -> (-1074 < ex + ey)%Z -> (ex + ey + 54 <= 971)%Z ->
  exists m e,
    (S754_finite false mx ex * S754_finite false my ey)%js = S754_finite false m e /\
    normal m e /\ (ex + ey <= e <= ex + ey + 54)%Z /\
    ((2 ^ 52 - 1) * (scaled m e * 2 ^ 1074) <= 2 ^ 52 * (scaled mx ex * scaled my ey))%Z /\
    (2 ^ 52 * (scaled mx ex * scaled my ey) <= (2 ^ 52 + 1) * (scaled m e * 2 ^ 1074))%Z.
Proof.
  intros Nx Ny Hlo Hhi.
  destruct (mul_normal Nx Ny Hlo Hhi) as (m & e & E & Nm & He & L & U).
  exists m, e. split; [exact E|]. split; [exact Nm|]. split; [exact He|].
  pose proof (normal_exponent Nx) as Hex. pose proof (normal_exponent Ny) as Hey.
  set (t := (e - (ex + ey))%Z) in *.
  set (W := (2 ^ (ex + ey + 2148))%Z).
  assert (PW : (0 <= W)%Z) by (apply Z.pow_nonneg; lia).
  assert (Pt : (0 < 2 ^ t)%Z) by (apply Z.pow_pos_nonneg; unfold t; lia).
  assert (E1 : (scaled mx ex * scaled my ey = Zpos mx * Zpos my * W)%Z).
  { unfold scaled, W. replace (ex + ey + 2148)%Z with ((ex + 1074) + (ey + 1074))%Z by lia.
    rewrite (Z.pow_add_r 2 (ex + 1074) (ey + 1074)) by lia. ring. }
  assert (E2 : (scaled m e * 2 ^ 1074 = Zpos m * 2 ^ t * W)%Z).
  { unfold scaled, W. replace (e + 1074)%Z with (t + (ex + ey + 1074))%Z by (unfold t; lia).
    replace (ex + ey + 2148)%Z with ((ex + ey + 1074) + 1074)%Z by lia.
    rewrite (Z.pow_add_r 2 t (ex + ey + 1074)) by (unfold t; lia).
    rewrite (Z.pow_add_r 2 (ex + ey + 1074) 1074) by lia. ring. }
  destruct (@relative_error (Zpos m) (2 ^ t) (Zpos mx * Zpos my)
              (proj1 (proj2 Nm)) Pt L U) as [R1 R2].
  rewrite E1, E2, !Z.mul_assoc. rewrite !Z.mul_assoc in R1, R2.
  split; apply Z.mul_le_mono_nonneg_r; assumption.
Qed.

Lemma div_scaled (mx my : positive) (ex ey : Z) :
  normal mx ex -> normal my ey -> (-1074 < ex - ey - 53)%Z -> (ex - ey - 51 <= 971)%Z ->
  exists m e,
    (S754_finite false mx ex / S754_finite false my ey)%js = S754_finite false m e /\
    normal m e /\ (ex - ey - 53 <= e <= ex - ey - 51)%Z /\
    ((2 ^ 52 - 1) * (scaled m e * scaled my ey) <= 2 ^ 52 * (scaled mx ex * 2 ^ 1074))%Z /\
    (2 ^ 52 * (scaled mx ex * 2 ^ 1074) <= (2 ^ 52 + 1) * (scaled m e * scaled my ey))%Z.
Proof.
  intros Nx Ny Hlo Hhi.
  destruct (div_normal Nx Ny Hlo Hhi) as (m & e & E & Nm & He & L & U).
  exists m, e. split; [exact E|]. split; [exact Nm|]. split; [exact He|].
  pose proof (normal_exponent Nx) as Hex. pose proof (normal_exponent Ny) as Hey.
  set (t := (e - (ex - ey - 53))%Z) in *.
  set (W := (2 ^ (ex + 2095))%Z).
  assert (PW : (0 <= W)%Z) by (apply Z.pow_nonneg; lia).
  assert (Pt : (0 < 2 ^ t * Zpos my)%Z).
  { apply Z.mul_pos_pos; [apply Z.pow_pos_nonneg; unfold t; lia|lia]. }
  assert (E1 : (scaled m e * scaled my ey = Zpos m * (2 ^ t * Zpos my) * W)%Z).
  { unfold scaled, W.
    replace (e + 1074)%Z with (t + (ex - ey + 1021))%Z by (unfold t; lia).
    replace (ex + 2095)%Z with ((ex - ey + 1021) + (ey + 1074))%Z by lia.
    rewrite (Z.pow_add_r 2 t (ex - ey + 1021)) by (unfold t; lia).
    rewrite (Z.pow_add_r 2 (ex - ey + 1021) (ey + 1074)) by lia. ring. }
  assert (E2 : (scaled mx ex * 2 ^ 1074 = Zpos mx * 2 ^ 53 * W)%Z).
  { unfold scaled, W.
    replace (ex + 2095)%Z with ((ex + 1074) + 1021)%Z by lia.
    rewrite (Z.pow_add_r 2 (ex + 1074) 1021) by lia.
    replace (2 ^ 1074)%Z with (2 ^ 53 * 2 ^ 1021)%Z by (rewrite <- Z.pow_add_r by lia; reflexivity).
    ring. }
  rewrite <- !Z.mul_assoc in L, U.
  destruct (@relative_error (Zpos m) (2 ^ t * Zpos my) (Zpos mx * 2 ^ 53)
              (proj1 (proj2 Nm)) Pt L U) as [R1 R2].
  rewrite E1, E2, !Z.mul_assoc. rewrite !Z.mul_assoc in R1, R2.
  split; apply Z.mul_le_mono_nonneg_r; assumption.
Qed.

(** ** The density integrates to one *)

Lemma of_Z_scaled (k : Z) :
  (0 < k < 2 ^ 53)%Z ->
  exists m e, of_Z k = S754_finite false m e /\ normal m e /\ (-52 <= e <= 0)%Z /\
              scaled m e = (k * 2 ^ 1074)%Z.
Proof.
  intros H. destruct (of_Z_normal H) as (m & e & E & C & He & Hm & N).
  exists m, e. split; [exact E|]. split; [split; assumption|]. split; [exact He|].
  apply scaled_exact; assumption.
Qed.

Lemma PI_normal : normal 7074237752028440 (-51).
Proof. split; [reflexivity|]. split; [vm_compute; discriminate|vm_compute; reflexivity]. Qed.

(** The width of a bin in radians is a positive normal number. *)
Lemma dthetaRad_normal (numBins : nat) :
  1 <= numBins -> (Z.of_nat numBins < 2 ^ 53)%Z ->
  exists m e, dthetaRad numBins = S754_finite false m e /\ normal m e /\ (-209 <= e <= 5)%Z.
Proof.
  intros H1 Hn. unfold dthetaRad. rewrite (dtheta_eq H1). unfold of_nat.
  destruct (@of_Z_scaled 180 ltac:(split; [lia|vm_compute; reflexivity]))
    as (m0 & e0 & E0 & N0 & He0 & _).
  destruct (@of_Z_scaled (Z.of_nat numBins) ltac:(lia)) as (mn & en & En & Nn & Hen & _).
  rewrite E0, En.
  destruct (@div_normal m0 mn e0 en N0 Nn ltac:(lia) ltac:(lia))
    as (m1 & e1 & E1 & N1 & He1 & _).
  rewrite E1. unfold JSMath.PI.
  destruct (@mul_normal m1 7074237752028440 e1 (-51) N1 PI_normal ltac:(lia) ltac:(lia))
    as (m2 & e2 & E2 & N2 & He2 & _).
  rewrite E2.
  destruct (@div_normal m2 m0 e2 e0 N2 N0 ltac:(lia) ltac:(lia))
    as (m3 & e3 & E3 & N3 & He3 & _).
  rewrite E3. exists m3, e3. split; [reflexivity|]. split; [exact N3|lia].
Qed.

(** What the sum of quotients that are each within [2 ^ -52] of exact is
    within. *)
Lemma sum_bracket (T : float) (VT KK : Z) (g : nat -> nat) (l : list nat) :
  (forall b, In b l ->
     ((2 ^ 52 - 1) * (scaled_value (of_Z (2 * Z.of_nat (g b)) / T)%js * VT)
        <= 2 ^ 52 * (2 * Z.of_nat (g b) * KK))%Z /\
     (2 ^ 52 * (2 * Z.of_nat (g b) * KK)
        <= (2 ^ 52 + 1) * (scaled_value (of_Z (2 * Z.of_nat (g b)) / T)%js * VT))%Z) ->
  let S := scaled_sum (map (fun b => (of_Z (2 * Z.of_nat (g b)) / T)%js) l) in
  ((2 ^ 52 - 1) * (S * VT) <= 2 ^ 52 * (2 * Z.of_nat (list_sum (map g l)) * KK))%Z /\
  (2 ^ 52 * (2 * Z.of_nat (list_sum (map g l)) * KK) <= (2 ^ 52 + 1) * (S * VT))%Z.
Proof.
  induction l as [|b l IH]; intros H S.
  - unfold S, scaled_sum. cbn. lia.
  - destruct (H b (or_introl eq_refl)) as [L U].
    destruct (IH (fun c Hc => H c (or_intror Hc))) as [L' U']. clear IH H.
    unfold S, scaled_sum in *. cbn [map fold_right].
    change (list_sum (g b :: map g l)) with (g b + list_sum (map g l)).
    rewrite Nat2Z.inj_add.
    set (x := scaled_value (of_Z (2 * Z.of_nat (g b)) / T)%js) in *.
    set (s := fold_right Z.add 0%Z
                (map scaled_value (map (fun b => (of_Z (2 * Z.of_nat (g b)) / T)%js) l))) in *.
    replace ((x + s) * VT)%Z with (x * VT + s * VT)%Z by ring.
    replace (2 * (Z.of_nat (g b) + Z.of_nat (list_sum (map g l))) * KK)%Z
      with (2 * Z.of_nat (g b) * KK + 2 * Z.of_nat (list_sum (map g l)) * KK)%Z by ring.
    set (A := (x * VT)%Z) in *. set (B := (s * VT)%Z) in *.
    set (G := (2 * Z.of_nat (g b) * KK)%Z) in *.
    set (G' := (2 * Z.of_nat (list_sum (map g l)) * KK)%Z) in *.
    clearbody A B G G'.
    change (2 ^ 52)%Z with 4503599627370496%Z in *. lia.
Qed.

(** The last step: from the brackets of the total and of the sum to the
    bracket of the integral. *)
Lemma integral_bracket (S VT VD C KK : Z) :
  (0 <= S)%Z -> (0 < C)%Z -> (0 <= VT)%Z ->
  ((2 ^ 52 - 1) * (S * VT) <= 2 ^ 52 * (2 * C * KK))%Z ->
  (2 ^ 52 * (2 * C * KK) <= (2 ^ 52 + 1) * (S * VT))%Z ->
  ((2 ^ 52 - 1) * VT <= 2 ^ 52 * (2 * C * VD))%Z ->
  (2 ^ 52 * (2 * C * VD) <= (2 ^ 52 + 1) * VT)%Z ->
  ((2 ^ 52 - 1) * KK <= (2 ^ 52 + 1) * (S * VD))%Z /\
  ((2 ^ 52 - 1) * (S * VD) <= (2 ^ 52 + 1) * KK)%Z.
Proof.
  intros HS HC HT I1 I2 M1 M2.
  set (a := (2 ^ 52)%Z) in *.
  assert (Ha : (1 < a)%Z) by (unfold a; vm_compute; reflexivity).
  assert (Hp : (0 < a * (2 * C))%Z) by (apply Z.mul_pos_pos; lia).
  split.
  - apply (Z.mul_le_mono_pos_l _ _ (a * (2 * C))); [exact Hp|].
    apply Z.le_trans with ((a - 1) * ((a + 1) * (S * VT)))%Z.
    + replace (a * (2 * C) * ((a - 1) * KK))%Z with ((a - 1) * (a * (2 * C * KK)))%Z by ring.
      apply Z.mul_le_mono_nonneg_l; [lia|exact I2].
    + replace ((a - 1) * ((a + 1) * (S * VT)))%Z with ((a + 1) * S * ((a - 1) * VT))%Z by ring.
      replace (a * (2 * C) * ((a + 1) * (S * VD)))%Z
        with ((a + 1) * S * (a * (2 * C * VD)))%Z by ring.
      apply Z.mul_le_mono_nonneg_l; [apply Z.mul_nonneg_nonneg; lia|exact M1].
  - apply (Z.mul_le_mono_pos_l _ _ (a * (2 * C))); [exact Hp|].
    apply Z.le_trans with ((a + 1) * ((a - 1) * (S * VT)))%Z.
    + replace (a * (2 * C) * ((a - 1) * (S * VD)))%Z
        with ((a - 1) * S * (a * (2 * C * VD)))%Z by ring.
      replace ((a + 1) * ((a - 1) * (S * VT)))%Z with ((a - 1) * S * ((a + 1) * VT))%Z by ring.
      apply Z.mul_le_mono_nonneg_l; [apply Z.mul_nonneg_nonneg; lia|exact M2].
    + replace (a * (2 * C) * ((a + 1) * KK))%Z with ((a + 1) * (a * (2 * C * KK)))%Z by ring.
      apply Z.mul_le_mono_nonneg_l; [lia|exact I1].
Qed.

Lemma scaled_value_nonneg (x : float) : (0 <= scaled_value x)%Z.
Proof.
  destruct x as [s|s| |[|] m e]; cbn [scaled_value]; try lia. unfold scaled.
  apply Z.mul_nonneg_nonneg; [lia|apply Z.pow_nonneg; lia].
Qed.

Lemma scaled_sum_nonneg (a : list float) : (0 <= scaled_sum a)%Z.
Proof.
  unfold scaled_sum. induction a as [|x a IH]; cbn [map fold_right]; [lia|].
  pose proof (scaled_value_nonneg x). lia.
Qed.

Lemma binned_le (numBins : nat) (angles : list float) (b : nat) :
  binned numBins angles b <= length angles.
Proof. apply filter_length_le. Qed.

(** X21. The density integrates to one. For up to 208063 particles and
    fewer than 2^53 bins, when some angle was counted: every returned value
    is +0 or a positive normal number, and the exact sum of the returned
    values times the width of a bin in radians ([dthetaRad], the number the
    code divides by) is within a factor [(2^52 + 1) / (2^52 - 1)] of 1,
    that is within [2^-50] of it. The values are scaled by [2^1074] to
    integers, so that the product is compared with [2^2148]. *)
Theorem X21_density_integrates_to_one (acos : float -> float) (positions : list vec3)
      (boxSize : vec3) (rMax : float) (numBins : nat) :
  (Z.of_nat (length positions) ^ 3 < 2 ^ 53)%Z ->
  1 <= numBins -> (Z.of_nat numBins < 2 ^ 53)%Z ->
  (totalCounts acos positions boxSize rMax numBins === pzero)%js = false ->
  let values := adf (computeADF acos positions boxSize rMax numBins) in
  let integral := (scaled_sum values * scaled_value (dthetaRad numBins))%Z in
  Forall (fun x => x = pzero \/ exists m e, x = S754_finite false m e /\ normal m e) values /\
  ((2 ^ 52 - 1) * 2 ^ 2148 <= (2 ^ 52 + 1) * integral)%Z /\
  ((2 ^ 52 - 1) * integral <= (2 ^ 52 + 1) * 2 ^ 2148)%Z.
Proof.
  intros HN H1 Hn Htot values integral.
  set (angles := all_angles acos positions boxSize rMax).
  set (C := counted numBins angles).
  pose proof (@totalCounts_exact acos positions boxSize rMax numBins HN Hn) as T0.
  fold angles in T0. fold C in T0.
  assert (Hlen : (2 * Z.of_nat (length angles) < 2 ^ 53)%Z).
  { pose proof (all_angles_length acos positions boxSize rMax) as L. fold angles in L.
    replace (Z.of_nat (length positions) ^ 3)%Z
      with (Z.of_nat (length positions * (length positions * length positions))) in HN
      by (rewrite !Nat2Z.inj_mul; ring).
    lia. }
  assert (HC : (2 * Z.of_nat C < 2 ^ 53)%Z).
  { pose proof (counted_le numBins angles). unfold C. lia. }
  assert (HC1 : 1 <= C).
  { rewrite T0, (@of_Z_zero_iff C HC) in Htot. apply Nat.eqb_neq in Htot. lia. }
  destruct (dthetaRad_normal H1 Hn) as (mD & eD & ED & ND & HeD).
  destruct (@of_Z_scaled (2 * Z.of_nat C) ltac:(lia)) as (mS & eS & ES & NS & HeS & VS).
  destruct (@mul_scaled mS mD eS eD NS ND ltac:(lia) ltac:(lia))
    as (mT & eT & ET & NT & HeT & M1 & M2).
  rewrite VS in M1, M2.
  assert (PK : (0 < 2 ^ 1074)%Z) by (apply Z.pow_pos_nonneg; lia).
  (* the values returned *)
  assert (Hv : values = map (fun b => (of_Z (2 * Z.of_nat (binned numBins angles b))
                                       / S754_finite false mT eT)%js) (seq 0 numBins)).
  { unfold values, computeADF. rewrite Htot. cbn [adf].
    rewrite (@raw_counts_bins acos positions boxSize rMax numBins HN), map_map.
    rewrite T0, ES, ED, ET. reflexivity. }
  (* every bin *)
  assert (Hbin : forall b,
    let x := (of_Z (2 * Z.of_nat (binned numBins angles b)) / S754_finite false mT eT)%js in
    (x = pzero \/ exists m e, x = S754_finite false m e /\ normal m e) /\
    ((2 ^ 52 - 1) * (scaled_value x * scaled mT eT)
       <= 2 ^ 52 * (2 * Z.of_nat (binned numBins angles b) * (2 ^ 1074 * 2 ^ 1074)))%Z /\
    (2 ^ 52 * (2 * Z.of_nat (binned numBins angles b) * (2 ^ 1074 * 2 ^ 1074))
       <= (2 ^ 52 + 1) * (scaled_value x * scaled mT eT))%Z).
  { intros b x. unfold x. pose proof (binned_le numBins angles b) as Hb.
    destruct (binned numBins angles b) as [|c] eqn:Ec.
    - change (of_Z (2 * Z.of_nat 0)) with pzero.
      change (pzero / S754_finite false mT eT)%js with pzero.
      split; [left; reflexivity|]. cbn [scaled_value pzero]. cbn. lia.
    - destruct (@of_Z_scaled (2 * Z.of_nat (S c)) ltac:(lia))
        as (mc & ec & Ec' & Nc & Hec & Vc).
      rewrite Ec'.
      destruct (@div_scaled mc mT ec eT Nc NT ltac:(lia) ltac:(lia))
        as (mq & eq & Eq & Nq & _ & Q1 & Q2).
      rewrite Eq. cbn [scaled_value]. rewrite Vc in Q1, Q2.
      split; [right; exists mq, eq; auto|].
      replace (2 * Z.of_nat (S c) * (2 ^ 1074 * 2 ^ 1074))%Z
        with (2 * Z.of_nat (S c) * 2 ^ 1074 * 2 ^ 1074)%Z by ring.
      split; assumption. }
  split.
  { rewrite Hv. apply Forall_forall. intros x Hx. apply in_map_iff in Hx.
    destruct Hx as (b & <- & _). apply (Hbin b). }
  (* the sum *)
  destruct (@sum_bracket (S754_finite false mT eT) (scaled mT eT) (2 ^ 1074 * 2 ^ 1074)
              (binned numBins angles) (seq 0 numBins)) as [I1 I2].
  { intros b _. exact (proj2 (Hbin b)). }
  rewrite <- Hv in I1, I2. rewrite (@binned_sum numBins angles Hn) in I1, I2. fold C in I1, I2.
  unfold integral. rewrite ED. cbn [scaled_value].
  replace (2 ^ 2148)%Z with (2 ^ 1074 * 2 ^ 1074)%Z
    by (rewrite <- Z.pow_add_r by lia; reflexivity).
  apply (@integral_bracket (scaled_sum values) (scaled mT eT) (scaled mD eD)
           (Z.of_nat C) (2 ^ 1074 * 2 ^ 1074)).
  - apply scaled_sum_nonneg.
  - lia.
  - apply (scaled_value_nonneg (S754_finite false mT eT)).
  - exact I1.
  - exact I2.
  - apply (Z.mul_le_mono_pos_r _ _ (2 ^ 1074)); [exact PK|].
    apply Z.le_trans with ((2 ^ 52 - 1) * (scaled mT eT * 2 ^ 1074))%Z;
      [apply Z.eq_le_incl; ring|].
    apply Z.le_trans with (2 ^ 52 * (2 * Z.of_nat C * 2 ^ 1074 * scaled mD eD))%Z;
      [exact M1|apply Z.eq_le_incl; ring].
  - apply (Z.mul_le_mono_pos_r _ _ (2 ^ 1074)); [exact PK|].
    apply Z.le_trans with (2 ^ 52 * (2 * Z.of_nat C * 2 ^ 1074 * scaled mD eD))%Z;
      [apply Z.eq_le_incl; ring|].
    apply Z.le_trans with ((2 ^ 52 + 1) * (scaled mT eT * 2 ^ 1074))%Z;
      [exact M2|apply Z.eq_le_incl; ring].
Qed.

Lemma X21_density_integrates_to_one_witness :
  (Z.of_nat (length right_angle) ^ 3 < 2 ^ 53)%Z /\ 1 <= 4 /\ (Z.of_nat 4 < 2 ^ 53)%Z /\
  (totalCounts acos_sample right_angle box100 (dec 12 1) 4 === pzero)%js = false /\
  ((2 ^ 52 - 1)
   * (scaled_sum (adf (computeADF acos_sample right_angle box100 (dec 12 1) 4))
      * scaled_value (dthetaRad 4))
   <= (2 ^ 52 + 1) * 2 ^ 2148)%Z.
Proof.
  assert (H1 : (Z.of_nat (length right_angle) ^ 3 < 2 ^ 53)%Z) by (vm_compute; reflexivity).
  assert (H2 : 1 <= 4) by lia.
  assert (H3 : (Z.of_nat 4 < 2 ^ 53)%Z) by (vm_compute; reflexivity).
  assert (H4 : (totalCounts acos_sample right_angle box100 (dec 12 1) 4 === pzero)%js = false)
    by (vm_compute; reflexivity).
  split; [exact H1|]. split; [exact H2|]. split; [exact H3|]. split; [exact H4|].
  exact (proj2 (proj2 (@X21_density_integrates_to_one acos_sample right_angle box100
                         (dec 12 1) 4 H1 H2 H3 H4))).
Defined.

(** ** A larger cutoff *)

(** [d < r] and [r <= r'] give [d < r'], for a positive [d]. *)
Lemma ltb_leb_trans (d r r' : float) :
  (pzero < d)%js = true -> (d < r)%js = true -> (r <= r')%js = true -> (d < r')%js = true.
Proof.
  unfold ltb, leb, SFltb, SFleb.
  destruct d as [[|]|[|]| |[|] md ed]; try discriminate; intros _;
    destruct r as [[|]|[|]| |[|] mr er]; try discriminate;
    destruct r' as [[|]|[|]| |[|] mr' er']; try discriminate; try reflexivity.
  cbn [SFcompare].
  change (Pos.compare_cont Eq md mr) with (md ?= mr)%positive.
  change (Pos.compare_cont Eq mr mr') with (mr ?= mr')%positive.
  change (Pos.compare_cont Eq md mr') with (md ?= mr')%positive.
  destruct (Z.compare_spec ed er) as [E1|L1|G1]; try discriminate;
    destruct (Z.compare_spec er er') as [E2|L2|G2]; try discriminate;
    destruct (Z.compare_spec ed er') as [E3|L3|G3]; try lia; try reflexivity.
  destruct (Pos.compare_spec md mr) as [C1|C1|C1]; try discriminate;
    destruct (Pos.compare_spec mr mr') as [C2|C2|C2]; try discriminate;
    destruct (Pos.compare_spec md mr') as [C3|C3|C3]; try lia; reflexivity.
Qed.

(** X22. Raising the cutoff never loses a neighbour: with [rMax <= rMax'],
    every index in the neighbour list of a particle for [rMax] is in its
    neighbour list for [rMax']. *)
Theorem X22_larger_cutoff (positions : list vec3) (boxSize : vec3) (rMax rMax' : float)
      (i : nat) (z : Z) :
  (rMax <= rMax')%js = true ->
  In z (neighbors positions boxSize rMax i) -> In z (neighbors positions boxSize rMax' i).
Proof.
  intros Hr H. apply neighbors_In in H. destruct H as (p & pos & E & Hp & R).
  apply neighbors_In. exists p, pos. split; [exact E|]. split; [exact Hp|].
  unfold in_range in *. apply andb_true_iff in R. destruct R as [R1 R2].
  rewrite R1. cbn [andb]. exact (ltb_leb_trans _ _ _ R1 R2 Hr).
Qed.

Lemma X22_larger_cutoff_witness :
  (dec 12 1 <= of_Z 2)%js = true /\
  In 1%Z (neighbors right_angle box100 (dec 12 1) 0) /\
  In 1%Z (neighbors right_angle box100 (of_Z 2) 0).
Proof.
  assert (H1 : (dec 12 1 <= of_Z 2)%js = true) by (vm_compute; reflexivity).
  assert (H2 : In 1%Z (neighbors right_angle box100 (dec 12 1) 0)).
  { assert (E : neighbors right_angle box100 (dec 12 1) 0 = [1%Z; 2%Z])
      by (vm_compute; reflexivity).
    rewrite E. left. reflexivity. }
  split; [exact H1|]. split; [exact H2|].
  exact (@X22_larger_cutoff right_angle box100 (dec 12 1) (of_Z 2) 0 1%Z H1 H2).
Defined.

(** ** Bin counts that are array lengths *)

Lemma leb_of_Z (a b : Z) :
  (0 <= a < 2 ^ 53)%Z -> (0 <= b < 2 ^ 53)%Z -> (of_Z a <= of_Z b)%js = (a <=? b)%Z.
Proof.
  intros Ha Hb.
  destruct (Z.eq_dec a 0) as [->|Na]; destruct (Z.eq_dec b 0) as [->|Nb].
  - reflexivity.
  - destruct (@of_Z_exact b ltac:(lia)) as (mb & eb & Eb & _). rewrite Eb.
    symmetry. apply Z.leb_le. lia.
  - destruct (@of_Z_exact a ltac:(lia)) as (ma & ea & Ea & _). rewrite Ea.
    symmetry. apply Z.leb_gt. lia.
  - destruct (@of_Z_exact a ltac:(lia)) as (ma & ea & Ea & Ca & Hea & Hma).
    destruct (@of_Z_exact b ltac:(lia)) as (mb & eb & Eb & Cb & Heb & Hmb).
    rewrite Ea, Eb. unfold leb, SFleb. rewrite (compare_canonical Ca Cb).
    rewrite (scaled_exact _ Hma Hea), (scaled_exact _ Hmb Heb).
    assert (P : (0 < 2 ^ 1074)%Z) by (apply Z.pow_pos_nonneg; lia).
    destruct (Z.compare_spec (a * 2 ^ 1074) (b * 2 ^ 1074)) as [E | L | G]; symmetry.
    + apply Z.leb_le. apply Z.mul_cancel_r in E; lia.
    + apply Z.leb_le. apply Z.mul_lt_mono_pos_r in L; lia.
    + apply Z.leb_gt. apply Z.mul_lt_mono_pos_r in G; lia.
Qed.

(** An integer below 2^53 is its own floor. *)
Lemma floor_of_Z (k : Z) : (0 <= k < 2 ^ 53)%Z -> JSMath.floor (of_Z k) = of_Z k.
Proof.
  intros H. destruct (Z.eq_dec k 0) as [->|N]; [reflexivity|].
  assert (Hk : (0 < k < 2 ^ 53)%Z) by lia.
  pose proof (floorZ_of_Z Hk) as F.
  destruct (of_Z_exact Hk) as (m & e & E & _ & He & _).
  rewrite E in F |- *. rewrite floor_finite, F.
  destruct (0 <=? e)%Z; [reflexivity|].
  destruct k as [|p|p]; try lia. exact E.
Qed.

(** Among the integers below 2^53, the array lengths [computeADF] accepts
    are those up to 2^32 - 2. *)
Lemma array_length_ok_of_nat (n : nat) :
  (Z.of_nat n < 2 ^ 53)%Z ->
  array_length_ok (of_nat n) = (Z.of_nat n + 1 <=? max_array_length)%Z.
Proof.
  intros H. unfold array_length_ok, of_nat.
  rewrite floor_of_Z by lia.
  assert (E : (of_Z (Z.of_nat n) === of_Z (Z.of_nat n))%js = true).
  { unfold eqb, SFeqb.
    pose proof (@leb_of_Z (Z.of_nat n) (Z.of_nat n) ltac:(lia) ltac:(lia)) as L.
    rewrite Z.leb_refl in L. unfold leb, SFleb in L.
    pose proof (@ltb_of_Z (Z.of_nat n) (Z.of_nat n) ltac:(lia) ltac:(lia)) as L'.
    rewrite Z.ltb_irrefl in L'. unfold ltb, SFltb in L'.
    destruct (SFcompare (of_Z (Z.of_nat n)) (of_Z (Z.of_nat n))) as [[| |]|];
      try discriminate; reflexivity. }
  rewrite E. change pzero with (of_Z 0).
  rewrite !leb_of_Z by (unfold max_array_length; lia).
  unfold max_array_length.
  destruct (Z.leb_spec 0 (Z.of_nat n)); [|lia]. cbn [andb].
  destruct (Z.leb_spec (Z.of_nat n) (2 ^ 32 - 1 - 1)), (Z.leb_spec (Z.of_nat n + 1) (2 ^ 32 - 1));
    try reflexivity; lia.
Qed.

(** The call with a bin count that is an array length. *)
Lemma call_computeADF_of_nat (acos : float -> float) (positions : list vec3)
      (boxSize : vec3) (rMax : float) (n : nat) (w : world) :
  (Z.of_nat n + 1 <= max_array_length)%Z ->
  call_computeADF acos positions boxSize rMax (of_nat n) w
  = Normal (computeADF_run acos positions boxSize rMax n w).
Proof.
  intros H. unfold call_computeADF.
  assert (B : (Z.of_nat n < 2 ^ 53)%Z) by (unfold max_array_length in H; lia).
  rewrite (@array_length_ok_of_nat n B).
  destruct (Z.leb_spec (Z.of_nat n + 1) max_array_length); [|lia].
  destruct n as [|n]; [reflexivity|].
  unfold of_nat. rewrite floorZ_of_Z by lia. rewrite Nat2Z.id. reflexivity.
Qed.

(** The call with an integer that is too large to be one. *)
Lemma call_computeADF_too_long (acos : float -> float) (positions : list vec3)
      (boxSize : vec3) (rMax : float) (n : nat) (w : world) :
  (max_array_length <= Z.of_nat n < 2 ^ 53)%Z ->
  call_computeADF acos positions boxSize rMax (of_nat n) w = Throw RangeError.
Proof.
  intros H. unfold call_computeADF.
  rewrite array_length_ok_of_nat by lia.
  destruct (Z.leb_spec (Z.of_nat n + 1) max_array_length); [lia|reflexivity].
Qed.

(** ** Fewer than three particles, as a call *)

(** C6, as amended. With fewer than three particles (N = 0, 1 or 2) and a
    number of bins that is an array length ([numBins + 1 <= 2^32 - 1]),
    whatever the box and the cutoff, no pair is ever formed: the sum of the
    counts is +0, and the call returns, on the [total === 0] path and with
    the warning written, [numBins] edges and an [adf] of [numBins] bins that
    are all +0. *)
Theorem C6_few_particles (acos : float -> float) (positions : list vec3) (boxSize : vec3)
        (rMax : float) (numBins : nat) (w : world) :
  length positions < 3 ->
  (Z.of_nat numBins + 1 <= max_array_length)%Z ->
  totalCounts acos positions boxSize rMax numBins = pzero /\
  exists r,
    call_computeADF acos positions boxSize rMax (of_nat numBins) w
      = Normal (r, World (chartInstance w) (console w ++ [no_angles_warning])) /\
    adf r = repeat pzero numBins /\
    length (adf r) = numBins /\
    Forall (eq pzero) (adf r) /\
    length (theta r) = numBins.
Proof.
  intros H V.
  assert (Hraw := raw_counts_few acos positions boxSize rMax numBins H).
  assert (Htot : totalCounts acos positions boxSize rMax numBins = pzero).
  { unfold totalCounts. rewrite Hraw. apply sum_of_zeros. }
  split; [exact Htot|].
  exists (Result (slice_but_last (thetaBin numBins)) (repeat pzero numBins)).
  split.
  { rewrite call_computeADF_of_nat by exact V.
    unfold computeADF_run, computeADF. rewrite Htot, Hraw. reflexivity. }
  cbn [adf theta]. split; [reflexivity|]. split; [apply repeat_length|]. split.
  - apply Forall_forall. intros x Hx. apply repeat_spec in Hx. auto.
  - rewrite slice_but_last_length, thetaBin_length. lia.
Qed.

Lemma C6_few_particles_witness :
  length [near_low_face; near_high_face] < 3 /\
  (Z.of_nat 4 + 1 <= max_array_length)%Z /\
  exists r,
    call_computeADF acos_sample [near_low_face; near_high_face] box10 (of_Z 2) (of_nat 4)
                    no_world
      = Normal (r, World None [no_angles_warning]) /\
    adf r = [pzero; pzero; pzero; pzero] /\
    length (adf r) = 4 /\
    Forall (eq pzero) (adf r) /\
    length (theta r) = 4.
Proof.
  assert (H : length [near_low_face; near_high_face] < 3) by (simpl; lia).
  assert (V : (Z.of_nat 4 + 1 <= max_array_length)%Z) by (vm_compute; discriminate).
  split; [exact H|]. split; [exact V|].
  exact (proj2 (@C6_few_particles acos_sample [near_low_face; near_high_face]
                  box10 (of_Z 2) 4 no_world H V)).
Defined.

(** C6 as stated fails for bin counts that are no array length: with
    [numBins = 2^32 - 1], which passes the caller's check [numBins >= 1],
    line 53 throws a [RangeError] and nothing is returned, however few
    the particles. *)
Lemma C6_counterexample :
  length [near_low_face; near_high_face] < 3 /\
  (of_Z 4294967295 >= of_Z 1)%js = true /\
  (of_Z 2 > pzero)%js = true /\
  call_computeADF acos_sample [near_low_face; near_high_face] box10 (of_Z 2)
                  (of_Z 4294967295) no_world
  = Throw RangeError /\
  call_computeADF acos_sample [] box10 (of_Z 2) (of_Z 4294967295) no_world
  = Throw RangeError.
Proof.
  split; [simpl; lia|]. repeat split; vm_compute; reflexivity.
Qed.

(** ** The edges a call returns *)

(** C7, as amended. For every bin count from 1 that is an array length
    ([numBins + 1 <= 2^32 - 1]) the call returns, and the returned [theta]
    and [adf] both have exactly [numBins] elements; the [i]-th edge is the
    Number [(i * 180) / numBins], that is 0, [180 / numBins],
    [(2 * 180) / numBins], ... in double arithmetic; the first edge is +0,
    the last one is [180 * (numBins - 1) / numBins], and [dtheta] is
    [180 / numBins]. The edges are strictly increasing, and a positive edge
    is a normal number [m * 2^e] within one unit in the last place of the
    exact multiple [i * 180 / numBins] of the bin width
    ([(m - 1) * 2^e <= i * 180 / numBins <= (m + 1) * 2^e], stated with both
    sides scaled by [2^1074 * numBins]): the spacing is uniform up to that
    rounding of each edge, and not in general exactly. *)
Theorem C7_edges (acos : float -> float) (positions : list vec3) (boxSize : vec3)
        (rMax : float) (numBins : nat) (w : world) :
  valid_numBins numBins ->
  let r := computeADF acos positions boxSize rMax numBins in
  (exists w', call_computeADF acos positions boxSize rMax (of_nat numBins) w
              = Normal (r, w')) /\
  length (theta r) = numBins /\
  length (adf r) = numBins /\
  (forall i, i < numBins ->
     nth i (theta r) NaN = (of_nat i * of_Z 180 / of_nat numBins)%js) /\
  dtheta numBins = (of_Z 180 / of_nat numBins)%js /\
  nth 0 (theta r) NaN = pzero /\
  nth 1 (thetaBin numBins) NaN = dtheta numBins /\
  nth (numBins - 1) (theta r) NaN
    = (of_Z 180 * of_nat (numBins - 1) / of_nat numBins)%js /\
  (forall i j, i < j < numBins ->
     (nth i (theta r) NaN < nth j (theta r) NaN)%js = true) /\
  (forall i, 1 <= i < numBins ->
     exists m e, nth i (theta r) NaN = S754_finite false m e /\
       ((Zpos m - 1) * 2 ^ (e + 1074) * Z.of_nat numBins
          <= Z.of_nat i * 180 * 2 ^ 1074)%Z /\
       (Z.of_nat i * 180 * 2 ^ 1074
          <= (Zpos m + 1) * 2 ^ (e + 1074) * Z.of_nat numBins)%Z).
Proof.
  intros V r. pose proof V as [V1 V2].
  assert (Ht : theta r = slice_but_last (thetaBin numBins)).
  { unfold r, computeADF. destruct (_ === _)%js; reflexivity. }
  split.
  { rewrite call_computeADF_of_nat by exact V2. unfold computeADF_run. fold r.
    destruct (_ === _)%js; eexists; reflexivity. }
  split. { rewrite Ht, slice_but_last_length, thetaBin_length. lia. }
  split.
  { destruct (raw_counts_ok acos positions boxSize rMax numBins) as [Hlen _].
    unfold r, computeADF. destruct (_ === _)%js; simpl; [|rewrite length_map]; exact Hlen. }
  split. { intros i Hi. apply theta_nth. exact Hi. }
  split. { apply dtheta_eq. exact V1. }
  split. { unfold r. rewrite theta_nth by lia. apply edge_zero. exact V1. }
  split.
  { rewrite dtheta_eq, thetaBin_nth by lia.
    change (of_nat 1 * of_Z 180)%js with (of_Z 180). reflexivity. }
  split.
  { unfold r. rewrite theta_nth by lia. unfold edge. rewrite mul_comm. reflexivity. }
  split.
  - intros i j Hij. unfold r. rewrite !theta_nth by lia.
    apply edges_increasing; [exact V|lia].
  - intros i Hi. unfold r. rewrite theta_nth by lia.
    rewrite (@edge_quotient numBins i V) by lia.
    unfold max_array_length in V2.
    destruct (@div_of_Z (Z.of_nat i * 180) (Z.of_nat numBins) ltac:(lia) ltac:(lia))
      as (m & e & E & _ & _ & _ & Lo & Up).
    exists m, e. split; [exact E|]. split; [exact Lo|exact Up].
Qed.

Lemma C7_edges_witness :
  valid_numBins 4 /\
  (exists w', call_computeADF acos_sample right_angle box100 (dec 12 1) (of_nat 4) no_world
              = Normal (computeADF acos_sample right_angle box100 (dec 12 1) 4, w')) /\
  theta (computeADF acos_sample right_angle box100 (dec 12 1) 4)
    = [pzero; of_Z 45; of_Z 90; of_Z 135] /\
  length (adf (computeADF acos_sample right_angle box100 (dec 12 1) 4)) = 4 /\
  (nth 1 (theta (computeADF acos_sample right_angle box100 (dec 12 1) 4)) NaN
   < nth 2 (theta (computeADF acos_sample right_angle box100 (dec 12 1) 4)) NaN)%js = true.
Proof.
  assert (V : valid_numBins 4) by (split; [lia|vm_compute; discriminate]).
  pose proof (@C7_edges acos_sample right_angle box100 (dec 12 1) 4 no_world V) as T.
  split; [exact V|]. split; [exact (proj1 T)|]. split; [vm_compute; reflexivity|].
  split; [exact (proj1 (proj2 (proj2 T)))|].
  apply (proj1 (proj2 (proj2 (proj2 (proj2 (proj2 (proj2 (proj2 (proj2 T))))))))). lia.
Defined.

(** C7 as stated fails on the spacing and on the bin counts it covers. With
    7 bins the width [dtheta] is 25.714285714285715 (the edge of index 1),
    but the edge of index 3 less the edge of index 2 is 25.714285714285708:
    in double arithmetic the differences of consecutive edges are not all
    [180 / numBins]. And with [numBins = 2^32 - 1] line 53 throws a
    [RangeError]: no arrays are returned. *)
Lemma C7_counterexample :
  let r := computeADF acos_sample right_angle box100 (dec 12 1) 7 in
  (exists w', call_computeADF acos_sample right_angle box100 (dec 12 1) (of_Z 7) no_world
              = Normal (r, w')) /\
  dtheta 7 = (of_Z 180 / of_Z 7)%js /\
  (nth 1 (theta r) NaN - nth 0 (theta r) NaN)%js = dtheta 7 /\
  (nth 2 (theta r) NaN - nth 1 (theta r) NaN)%js = dtheta 7 /\
  ((nth 3 (theta r) NaN - nth 2 (theta r) NaN)%js === dtheta 7)%js = false /\
  (nth 3 (theta r) NaN - nth 2 (theta r) NaN < dtheta 7)%js = true /\
  (of_Z 4294967295 >= of_Z 1)%js = true /\
  call_computeADF acos_sample right_angle box100 (dec 12 1) (of_Z 4294967295) no_world
  = Throw RangeError.
Proof.
  intros r. split; [eexists; vm_compute; reflexivity|].
  repeat split; vm_compute; reflexivity.
Qed.

(** ** The memory of a call *)

Ltac run_step := cbv beta iota; cbn [numbers tables index_arrays outside].

Lemma nth_error_app_some {A : Type} (l l' : list A) (a : nat) (x : A) :
  nth_error l a = Some x -> nth_error (l ++ l') a = Some x.
Proof.
  intros H. rewrite nth_error_app1; [exact H|].
  apply nth_error_Some. rewrite H. discriminate.
Qed.

Lemma nth_error_app_here {A : Type} (l l' : list A) (x : A) :
  nth_error (l ++ x :: l') (length l) = Some x.
Proof. rewrite nth_error_app2, Nat.sub_diag by lia. reflexivity. Qed.

Lemma store_app_here {A : Type} (l l' : list A) (x y : A) :
  store (l ++ x :: l') (length l) y = l ++ y :: l'.
Proof. induction l as [|z l IH]; simpl; [reflexivity|]. rewrite IH. reflexivity. Qed.

Lemma vec_of_row3 (v : vec3) : vec_of (row3 v) = v.
Proof. destruct v. reflexivity. Qed.

(** A loop whose body acts on the memory as [f] acts on a state [s] that
    the memory is a function of. *)
Lemma for_each_fold {A S : Type} (inj : S -> memory) (f : S -> A -> S)
      (body : A -> action unit) (l : list A) :
  (forall s x, In x l -> body x (inj s) = (Normal tt, inj (f s x))) ->
  forall s, for_each l body (inj s) = (Normal tt, inj (fold_left f l s)).
Proof.
  induction l as [|x l IH]; intros Hb s; [reflexivity|].
  cbn [for_each fold_left]. unfold bind. rewrite (Hb s x) by (left; reflexivity).
  apply IH. intros s' y Hy. apply Hb. right. exact Hy.
Qed.

(** Lines 58-62. *)
Lemma make_rows_run (pa i : nat) (ps : list vec3) (N : list (list float))
      (T : list (list nat)) (I : list (list Z)) (w : world) (all : list nat)
      (ri : nat) (xi : list float) :
  nth_error T pa = Some all -> nth_error all i = Some ri -> nth_error N ri = Some xi ->
  forall (rows : list nat) (qs : list vec3) (X : list (list float)),
    Forall2 (fun r p => exists xs, nth_error N r = Some xs /\ vec_of xs = p) rows qs ->
    map_each rows (fun pos =>
        p <- get_numbers pos ;;
        rows' <- get_table pa ;;
        ri <- element rows' i ;;
        pi <- get_numbers ri ;;
        new_numbers [ (coordinate p 0 - coordinate pi 0)%js;
                      (coordinate p 1 - coordinate pi 1)%js;
                      (coordinate p 2 - coordinate pi 2)%js ])
      (Memory (N ++ X) T I w)
    = (Normal (seq (length (N ++ X)) (length rows)),
       Memory (N ++ X ++ map row3
                 (map (fun pos => Vec (c0 pos - c0 (vec_of xi)) (c1 pos - c1 (vec_of xi))
                                      (c2 pos - c2 (vec_of xi)))%js qs)) T I w).
Proof.
  intros HT Hall Hri rows qs X F. revert X.
  induction F as [|r q rows qs (xs & Hr & Hq) F IH]; intros X.
  - cbn. rewrite app_nil_r. reflexivity.
  - cbn [map_each]. unfold bind at 1. unfold bind at 1. unfold get_numbers at 1.
    cbn [numbers]. rewrite (nth_error_app_some _ _ _ Hr).
    unfold bind at 1. unfold get_table. cbn [tables]. rewrite HT.
    unfold bind at 1. unfold element. rewrite Hall. unfold ret at 1.
    unfold bind at 1. unfold get_numbers at 1. cbn [numbers].
    rewrite (nth_error_app_some _ _ _ Hri).
    unfold new_numbers at 1. cbn [numbers tables index_arrays outside].
    rewrite <- app_assoc. unfold bind at 1. rewrite IH.
    unfold ret. cbn [length seq map]. rewrite !length_app. cbn [length].
    rewrite <- Hq. cbn [vec_of c0 c1 c2 row3].
    replace (length N + (length X + 1)) with (S (length N + length X)) by lia.
    rewrite <- !app_assoc. reflexivity.
Qed.

Lemma make_delta_run (pa ba i : nat) (ps : list vec3) (box : vec3)
      (N : list (list float)) (T : list (list nat)) (I : list (list Z)) (w : world) :
  holds (Memory N T I w) pa ba ps box -> i < length ps ->
  make_delta pa i (Memory N T I w)
  = (Normal (length T),
     Memory (N ++ map row3 (raw_delta ps i)) (T ++ [seq (length N) (length ps)]) I w).
Proof.
  intros [(rows & HT & F) _] Hi. cbn [tables numbers] in HT, F.
  assert (Hlen : length rows = length ps) by (eapply Forall2_length; exact F).
  destruct (nth_error rows i) as [ri|] eqn:Eri;
    [|apply nth_error_None in Eri; lia].
  destruct (nth_error ps i) as [pi|] eqn:Epi;
    [|apply nth_error_None in Epi; lia].
  assert (Hxi : exists xi, nth_error N ri = Some xi /\ vec_of xi = pi).
  { clear - F Eri Epi. revert i Eri Epi.
    induction F as [|r q rows qs H F IH]; intros [|i] Er Ep; try discriminate.
    - cbn in Er, Ep. inversion Er; inversion Ep; subst. exact H.
    - cbn in Er, Ep. eapply IH; eassumption. }
  destruct Hxi as (xi & Hri & Hvi).
  unfold make_delta. unfold bind at 1. unfold get_table at 1. cbn [tables]. rewrite HT.
  unfold bind at 1.
  pose proof (@make_rows_run pa i ps N T I w rows ri xi HT Eri Hri rows ps [] F) as R.
  rewrite app_nil_r in R. rewrite R. clear R.
  unfold new_table. cbn [tables numbers index_arrays outside app].
  rewrite Hlen, Hvi. unfold raw_delta. rewrite (nth_error_nth _ _ undefined_vec Epi).
  reflexivity.
Qed.

(** Lines 65-69. *)
Lemma reduce_row_run (ba : nat) (bs : list float) (v : vec3)
      (P Q : list (list float)) (T : list (list nat)) (I : list (list Z)) (w : world) :
  nth_error P ba = Some bs ->
  for_each [0; 1; 2] (fun j =>
      xs <- get_numbers (length P) ;;
      bs <- get_numbers ba ;;
      put_numbers (length P) (store xs j (min_image (coordinate xs j) (coordinate bs j))))
    (Memory (P ++ row3 v :: Q) T I w)
  = (Normal tt,
     Memory (P ++ row3 (Vec (min_image (c0 v) (c0 (vec_of bs)))
                            (min_image (c1 v) (c1 (vec_of bs)))
                            (min_image (c2 v) (c2 (vec_of bs)))) :: Q) T I w).
Proof.
  intros Hb. cbn [for_each].
  unfold bind, get_numbers, put_numbers, ret. cbn [numbers tables index_arrays outside].
  do 3 (rewrite nth_error_app_here; run_step;
        rewrite (nth_error_app_some _ _ _ Hb); run_step;
        rewrite store_app_here).
  reflexivity.
Qed.

Lemma reduce_rows_run (ba : nat) (bs : list float) (T : list (list nat))
      (I : list (list Z)) (w : world) (vs : list vec3) :
  forall (P Q : list (list float)),
    nth_error P ba = Some bs ->
    for_each (seq (length P) (length vs)) (fun d =>
      for_each [0; 1; 2] (fun j =>
        xs <- get_numbers d ;;
        bs <- get_numbers ba ;;
        put_numbers d (store xs j (min_image (coordinate xs j) (coordinate bs j)))))
      (Memory (P ++ map row3 vs ++ Q) T I w)
    = (Normal tt,
       Memory (P ++ map row3
                 (map (fun d => Vec (min_image (c0 d) (c0 (vec_of bs)))
                                    (min_image (c1 d) (c1 (vec_of bs)))
                                    (min_image (c2 d) (c2 (vec_of bs)))) vs) ++ Q) T I w).
Proof.
  induction vs as [|v vs IH]; intros P Q Hb; [reflexivity|].
  cbn [length seq map app].
  change (for_each (?a :: ?l) ?body) with (body a ;; for_each l body). cbv beta.
  unfold bind at 1.
  rewrite (@reduce_row_run ba bs v P (map row3 vs ++ Q) T I w Hb).
  set (v' := Vec _ _ _).
  replace (P ++ row3 v' :: map row3 vs ++ Q) with ((P ++ [row3 v']) ++ map row3 vs ++ Q)
    by (rewrite <- app_assoc; reflexivity).
  replace (S (length P)) with (length (P ++ [row3 v'])) by (rewrite length_app; simpl; lia).
  rewrite IH by (apply nth_error_app_some; exact Hb).
  rewrite <- app_assoc. reflexivity.
Qed.

Lemma apply_pbc_run (ba delta : nat) (bs : list float) (vs : list vec3)
      (P Q : list (list float)) (T : list (list nat)) (I : list (list Z)) (w : world) :
  nth_error P ba = Some bs ->
  nth_error T delta = Some (seq (length P) (length vs)) ->
  apply_pbc ba delta (Memory (P ++ map row3 vs ++ Q) T I w)
  = (Normal tt,
     Memory (P ++ map row3
               (map (fun d => Vec (min_image (c0 d) (c0 (vec_of bs)))
                                  (min_image (c1 d) (c1 (vec_of bs)))
                                  (min_image (c2 d) (c2 (vec_of bs)))) vs) ++ Q) T I w).
Proof.
  intros Hb HT. unfold apply_pbc. unfold bind at 1. unfold get_table. cbn [tables].
  rewrite HT. apply reduce_rows_run. exact Hb.
Qed.

(** Line 71. *)
Lemma read_rows_run {B : Type} (g : vec3 -> B) (T : list (list nat)) (I : list (list Z))
      (w : world) (vs : list vec3) :
  forall (P Q : list (list float)),
    map_each (seq (length P) (length vs)) (fun d => xs <- get_numbers d ;; ret (g (vec_of xs)))
      (Memory (P ++ map row3 vs ++ Q) T I w)
    = (Normal (map g vs), Memory (P ++ map row3 vs ++ Q) T I w).
Proof.
  induction vs as [|v vs IH]; intros P Q; [reflexivity|].
  cbn [length seq map map_each app]. unfold bind at 1. unfold bind at 1.
  unfold get_numbers at 1. cbn [numbers]. rewrite nth_error_app_here.
  unfold ret at 1. unfold bind at 1.
  replace (P ++ row3 v :: map row3 vs ++ Q) with ((P ++ [row3 v]) ++ map row3 vs ++ Q)
    by (rewrite <- app_assoc; reflexivity).
  replace (S (length P)) with (length (P ++ [row3 v])) by (rewrite length_app; simpl; lia).
  rewrite IH. unfold ret. rewrite vec_of_row3. reflexivity.
Qed.

Lemma make_distances_run (delta : nat) (vs : list vec3)
      (P : list (list float)) (T : list (list nat)) (I : list (list Z)) (w : world) :
  nth_error T delta = Some (seq (length P) (length vs)) ->
  make_distances delta (Memory (P ++ map row3 vs) T I w)
  = (Normal (length (P ++ map row3 vs)),
     Memory ((P ++ map row3 vs) ++ [map norm vs]) T I w).
Proof.
  intros HT. unfold make_distances. unfold bind at 1. unfold get_table. cbn [tables].
  rewrite HT. unfold bind at 1.
  pose proof (@read_rows_run _ norm T I w vs P []) as R. rewrite !app_nil_r in R.
  rewrite R. reflexivity.
Qed.

(** Lines 72-74. *)
Lemma make_neighbors_run (rMax : float) (distances : nat) (ds : list float)
      (N : list (list float)) (T : list (list nat)) (I : list (list Z)) (w : world) :
  nth_error N distances = Some ds ->
  make_neighbors rMax distances (Memory N T I w)
  = (Normal (S (length I)),
     Memory N T
       (I ++ [mapi (fun d idx => if (d > pzero)%js && (d < rMax)%js
                                 then Z.of_nat idx else (-1)%Z) ds;
              filter (fun idx => negb (idx =? -1)%Z)
                (mapi (fun d idx => if (d > pzero)%js && (d < rMax)%js
                                    then Z.of_nat idx else (-1)%Z) ds)]) w).
Proof.
  intros Hd. unfold make_neighbors, bind, get_numbers, new_indices, get_indices.
  cbn [numbers tables index_arrays outside]. rewrite Hd.
  run_step. rewrite nth_error_app_here. run_step.
  rewrite length_app, <- app_assoc. cbn [length app].
  f_equal. f_equal. lia.
Qed.

(** Lines 78-92. *)
Lemma pair_step_run (acos : float -> float) (n : nat) (delta neighbors base : nat)
      (dl : list vec3) (nb : list Z) (A B : list (list float)) (T : list (list nat))
      (I : list (list Z)) (w : world) (jIdx kIdx pj pk : nat) (hist : list float) :
  nth_error I neighbors = Some nb ->
  nth_error T delta = Some (seq base (length dl)) ->
  (forall h t, t < length dl ->
     nth_error (A ++ h :: B) (base + t) = Some (row3 (nth t dl undefined_vec))) ->
  nth jIdx nb (-1)%Z = Z.of_nat pj -> pj < length dl ->
  nth kIdx nb (-1)%Z = Z.of_nat pk -> pk < length dl ->
  pair_step acos n (dtheta n) delta neighbors (length A) jIdx kIdx
            (Memory (A ++ hist :: B) T I w)
  = (Normal tt,
     Memory (A ++ pair_body acos n dl hist (Z.of_nat pj) (Z.of_nat pk) :: B) T I w).
Proof.
  intros HI HT Hrows Hj Hpj Hk Hpk.
  assert (E : forall p, p < length dl ->
            element_at (seq base (length dl)) (Z.of_nat p) = ret (base + p)).
  { intros p Hp. unfold element_at.
    destruct (Z.ltb_spec (Z.of_nat p) 0); [lia|]. rewrite Nat2Z.id. unfold element.
    rewrite (nth_error_nth' _ 0) by (rewrite length_seq; exact Hp).
    rewrite seq_nth by exact Hp. reflexivity. }
  unfold pair_step. unfold bind at 1. unfold get_indices. run_step. rewrite HI.
  rewrite Hj, Hk.
  unfold bind at 1. unfold get_table. run_step. rewrite HT.
  rewrite (E pj Hpj), (E pk Hpk).
  unfold bind at 1. unfold ret at 1. unfold bind at 1. unfold ret at 1.
  unfold bind at 1. unfold get_numbers at 1. run_step. rewrite (Hrows hist pj Hpj).
  unfold bind at 1. unfold get_numbers at 1. run_step. rewrite (Hrows hist pk Hpk).
  rewrite !vec_of_row3. unfold pair_body. cbv zeta. rewrite !Nat2Z.id.
  destruct ((norm (nth pj dl undefined_vec) === pzero)%js
            || (norm (nth pk dl undefined_vec) === pzero)%js); [reflexivity|].
  unfold count_angle, binIndex. cbv zeta.
  destruct (_ && _); [|reflexivity].
  unfold bind, get_numbers, put_numbers. run_step.
  rewrite nth_error_app_here. run_step. rewrite store_app_here. reflexivity.
Qed.

(** Lines 76-94. *)
Lemma pair_loops_run (acos : float -> float) (n : nat) (delta neighbors base : nat)
      (dl : list vec3) (nb : list Z) (A B : list (list float)) (T : list (list nat))
      (I : list (list Z)) (w : world) (hist : list float) :
  nth_error I neighbors = Some nb ->
  nth_error T delta = Some (seq base (length dl)) ->
  (forall h t, t < length dl ->
     nth_error (A ++ h :: B) (base + t) = Some (row3 (nth t dl undefined_vec))) ->
  (forall z, In z nb -> exists p, z = Z.of_nat p /\ p < length dl) ->
  for_each (seq 0 (length nb)) (fun jIdx =>
    for_each (seq (jIdx + 1) (length nb - (jIdx + 1))) (fun kIdx =>
      pair_step acos n (dtheta n) delta neighbors (length A) jIdx kIdx))
    (Memory (A ++ hist :: B) T I w)
  = (Normal tt, Memory (A ++ pair_loop acos n dl nb hist :: B) T I w).
Proof.
  intros HI HT Hrows Hnb. unfold pair_loop.
  apply (for_each_fold (fun h => Memory (A ++ h :: B) T I w)).
  intros h jIdx Hj. apply in_seq in Hj.
  apply (for_each_fold (fun h => Memory (A ++ h :: B) T I w)
           (fun h' kIdx => pair_body acos n dl h' (nth jIdx nb (-1)%Z) (nth kIdx nb (-1)%Z))).
  intros h' kIdx Hk. apply in_seq in Hk.
  destruct (Hnb (nth jIdx nb (-1)%Z)) as (pj & Ej & Hpj); [apply nth_In; lia|].
  destruct (Hnb (nth kIdx nb (-1)%Z)) as (pk & Ek & Hpk); [apply nth_In; lia|].
  rewrite (@pair_step_run acos n delta neighbors base dl nb A B T I w jIdx kIdx pj pk h'
             HI HT Hrows Ej Hpj Ek Hpk).
  rewrite Ej, Ek. reflexivity.
Qed.

Lemma holds_grown (N N' : list (list float)) (T T' : list (list nat))
      (I I' : list (list Z)) (w w' : world) (pa ba : nat) (ps : list vec3) (box : vec3) :
  holds (Memory N T I w) pa ba ps box ->
  holds (Memory (N ++ N') (T ++ T') I' w') pa ba ps box.
Proof.
  intros [(rows & HT & F) (bs & Hb & Eb)]. cbn [numbers tables] in *. split.
  - exists rows. cbn [numbers tables]. split; [apply nth_error_app_some; exact HT|].
    eapply Forall2_impl; [|exact F]. cbv beta. intros r p (xs & Hr & E).
    exists xs. split; [apply nth_error_app_some; exact Hr|exact E].
  - exists bs. cbn [numbers]. split; [apply nth_error_app_some; exact Hb|exact Eb].
Qed.

(** Lines 57-95, for one central particle: the arrays it makes are added to
    the memory, and the histogram is the only array it changes. *)
Lemma central_run (acos : float -> float) (pa ba : nat) (rMax : float) (n i : nat)
      (ps : list vec3) (box : vec3) (N0 G : list (list float)) (T0 TG : list (list nat))
      (I0 IG : list (list Z)) (w : world) (tb hist : list float) :
  holds (Memory N0 T0 I0 w) pa ba ps box -> i < length ps ->
  central acos pa ba rMax n (dtheta n) (length (N0 ++ [tb])) i
          (Memory (N0 ++ tb :: hist :: G) (T0 ++ TG) (I0 ++ IG) w)
  = (Normal tt,
     Memory (N0 ++ tb :: pair_loop acos n (delta ps box i) (neighbors ps box rMax i) hist
                :: G ++ map row3 (delta ps box i) ++ [distances ps box i])
            (T0 ++ TG ++ [seq (length (N0 ++ tb :: hist :: G)) (length ps)])
            (I0 ++ IG ++
               [mapi (fun d idx => if (d > pzero)%js && (d < rMax)%js
                                   then Z.of_nat idx else (-1)%Z) (distances ps box i);
                neighbors ps box rMax i]) w).
Proof.
  intros H Hi.
  set (N := N0 ++ tb :: hist :: G). set (dl := delta ps box i).
  assert (HN : holds (Memory N (T0 ++ TG) (I0 ++ IG) w) pa ba ps box).
  { unfold N. exact (@holds_grown N0 _ T0 _ I0 _ w _ pa ba ps box H). }
  destruct (HN) as [_ (bs & Hb & Eb)]. cbn [numbers] in Hb.
  assert (Ldl : length dl = length ps) by apply delta_length.
  unfold central. unfold bind at 1.
  rewrite (@make_delta_run pa ba i ps box N (T0 ++ TG) (I0 ++ IG) w HN Hi).
  set (T := (T0 ++ TG) ++ [seq (length N) (length ps)]).
  assert (HT : nth_error T (length (T0 ++ TG)) = Some (seq (length N) (length dl))).
  { unfold T. rewrite Ldl. apply nth_error_app_here. }
  unfold bind at 1.
  pose proof (@apply_pbc_run ba (length (T0 ++ TG)) bs (raw_delta ps i) N []
                T (I0 ++ IG) w Hb) as R.
  rewrite !app_nil_r in R. rewrite R; clear R.
  2:{ unfold raw_delta. rewrite length_map. unfold T. apply nth_error_app_here. }
  rewrite Eb. change (map _ (raw_delta ps i)) with dl.
  unfold bind at 1.
  rewrite (@make_distances_run (length (T0 ++ TG)) dl N T (I0 ++ IG) w HT).
  change (map norm dl) with (distances ps box i).
  unfold bind at 1.
  rewrite (@make_neighbors_run rMax (length (N ++ map row3 dl)) (distances ps box i)
             ((N ++ map row3 dl) ++ [distances ps box i]) T (I0 ++ IG) w
             (nth_error_app_here _ _ _)).
  fold (neighbors ps box rMax i).
  set (marked := mapi _ _). set (nb := neighbors ps box rMax i).
  set (I := (I0 ++ IG) ++ [marked; nb]).
  assert (HI : nth_error I (S (length (I0 ++ IG))) = Some nb).
  { unfold I. rewrite nth_error_app2 by lia.
    replace (S (length (I0 ++ IG)) - length (I0 ++ IG)) with 1 by lia. reflexivity. }
  unfold bind at 1. unfold get_indices at 1. run_step. rewrite HI.
  set (A := N0 ++ [tb]). set (B := G ++ map row3 dl ++ [distances ps box i]).
  assert (EN : forall h, (N0 ++ tb :: h :: G) ++ map row3 dl ++ [distances ps box i]
                         = A ++ h :: B).
  { intros h. unfold A, B. rewrite <- !app_assoc. reflexivity. }
  replace ((N ++ map row3 dl) ++ [distances ps box i]) with (A ++ hist :: B)
    by (rewrite <- EN; unfold N; rewrite <- !app_assoc; reflexivity).
  rewrite (@pair_loops_run acos n (length (T0 ++ TG)) (S (length (I0 ++ IG))) (length N)
             dl nb A B T I w hist HI HT).
  - unfold A, B, T, I. rewrite <- !app_assoc. reflexivity.
  - intros h t Ht. rewrite <- EN.
    replace (length N) with (length (N0 ++ tb :: h :: G))
      by (unfold N; rewrite !length_app; reflexivity).
    rewrite nth_error_app2 by lia.
    replace (length (N0 ++ tb :: h :: G) + t - length (N0 ++ tb :: h :: G)) with t by lia.
    rewrite nth_error_app1 by (rewrite length_map; exact Ht).
    rewrite nth_error_map, (nth_error_nth' _ undefined_vec Ht). reflexivity.
  - intros z Hz. apply neighbors_In in Hz. destruct Hz as (p & pos & -> & Hp & _).
    exists p. split; [reflexivity|]. rewrite Ldl. apply nth_error_Some. rewrite Hp.
    discriminate.
Qed.

Lemma loop_histogram (acos : float -> float) (ps : list vec3) (box : vec3) (rMax : float)
      (n : nat) (g : loop_state -> nat -> list (list float) * list (list nat) * list (list Z))
      (l : list nat) :
  forall (h : list float) (G : list (list float)) (TG : list (list nat)) (IG : list (list Z)),
    fst (fst (fst
      (fold_left
         (fun (s : loop_state) i =>
            (pair_loop acos n (delta ps box i) (neighbors ps box rMax i) (fst (fst (fst s))),
             fst (fst (g s i)), snd (fst (g s i)), snd (g s i)))
         l (h, G, TG, IG))))
    = fold_left (fun h i => pair_loop acos n (delta ps box i) (neighbors ps box rMax i) h) l h.
Proof.
  induction l as [|i l IH]; intros h G TG IG; [reflexivity|].
  cbn [fold_left]. rewrite IH. reflexivity.
Qed.

(** A call with a bin count that is an array length: what it returns, and
    the memory it leaves. *)
Lemma computeADF_in_run (acos : float -> float) (pa ba : nat) (rMax numBins : float)
      (ps : list vec3) (box : vec3) (N0 : list (list float)) (T0 : list (list nat))
      (I0 : list (list Z)) (w : world) :
  holds (Memory N0 T0 I0 w) pa ba ps box ->
  array_length_ok numBins = true ->
  let n := Z.to_nat (floorZ numBins) in
  exists o G TG IG,
    computeADF_in acos pa ba rMax numBins (Memory N0 T0 I0 w)
    = (Normal o, Memory (N0 ++ G) (T0 ++ TG) (I0 ++ IG)
                        (snd (computeADF_run acos ps box rMax n w))) /\
    nth_error (N0 ++ G) (theta_ref o) = Some (theta (computeADF acos ps box rMax n)) /\
    nth_error (N0 ++ G) (adf_ref o) = Some (adf (computeADF acos ps box rMax n)) /\
    length N0 <= theta_ref o /\ length N0 <= adf_ref o /\ theta_ref o <> adf_ref o.
Proof.
  intros H Hok n.
  pose proof H as [(rows & HT & F) _]. cbn [numbers tables] in HT, F.
  assert (Hlen : length rows = length ps) by (eapply Forall2_length; exact F).
  unfold computeADF_in. unfold bind at 1. unfold get_table at 1. run_step.
  rewrite HT, Hok. fold n. rewrite Hlen.
  unfold bind at 1. unfold new_numbers at 1. run_step.
  unfold bind at 1. unfold get_numbers at 1. run_step.
  rewrite (nth_error_app_here N0 [] (thetaBin n)).
  change (coordinate (thetaBin n) 1 - coordinate (thetaBin n) 0)%js with (dtheta n).
  unfold bind at 1. unfold new_numbers at 1. run_step.
  set (tb := thetaBin n).
  set (inj := fun s : loop_state =>
                Memory (N0 ++ tb :: fst (fst (fst s)) :: snd (fst (fst s)))
                       (T0 ++ snd (fst s)) (I0 ++ snd s) w).
  set (g := fun (s : loop_state) (i : nat) =>
              (snd (fst (fst s)) ++ map row3 (delta ps box i) ++ [distances ps box i],
               snd (fst s) ++
                 [seq (length (N0 ++ tb :: fst (fst (fst s)) :: snd (fst (fst s))))
                      (length ps)],
               snd s ++
                 [mapi (fun d idx => if (d > pzero)%js && (d < rMax)%js
                                     then Z.of_nat idx else (-1)%Z) (distances ps box i);
                  neighbors ps box rMax i])).
  set (f := fun (s : loop_state) (i : nat) =>
              (pair_loop acos n (delta ps box i) (neighbors ps box rMax i) (fst (fst (fst s))),
               fst (fst (g s i)), snd (fst (g s i)), snd (g s i))).
  replace (Memory ((N0 ++ [tb]) ++ [repeat pzero n]) T0 I0 w)
    with (inj (repeat pzero n, [], [], []))
    by (unfold inj; cbn [fst snd]; rewrite !app_nil_r, <- app_assoc; reflexivity).
  unfold bind at 1.
  rewrite (@for_each_fold nat loop_state inj f
             (central acos pa ba rMax n (dtheta n) (length (N0 ++ [tb])))
             (seq 0 (length ps))).
  2:{ intros [[[h G] TG] IG] i Hi. apply in_seq in Hi. unfold inj, f, g. cbn [fst snd].
      apply central_run; [exact H|lia]. }
  pose proof (@loop_histogram acos ps box rMax n g (seq 0 (length ps))
                (repeat pzero n) [] [] []) as Hraw.
  fold f in Hraw. fold (raw_counts acos ps box rMax n) in Hraw.
  destruct (fold_left f (seq 0 (length ps)) (repeat pzero n, [], [], []))
    as [[[raw G] TG] IG]. cbn [fst] in Hraw. subst raw.
  unfold inj. cbn [fst snd].
  set (raw := raw_counts acos ps box rMax n).
  assert (Hadf : nth_error (N0 ++ tb :: raw :: G) (length (N0 ++ [tb])) = Some raw).
  { replace (N0 ++ tb :: raw :: G) with ((N0 ++ [tb]) ++ raw :: G)
      by (rewrite <- app_assoc; reflexivity).
    apply nth_error_app_here. }
  assert (Htb : nth_error (N0 ++ tb :: raw :: G) (length N0) = Some tb)
    by apply nth_error_app_here.
  unfold bind at 1. unfold get_numbers at 1. run_step. rewrite Hadf.
  change (fold_left add raw pzero) with (totalCounts acos ps box rMax n).
  unfold computeADF_run, computeADF. fold raw. fold tb.
  destruct (totalCounts acos ps box rMax n === pzero)%js.
  - unfold bind, warn, get_numbers, new_numbers, ret. run_step.
    rewrite (nth_error_app_some _ _ _ Htb) || rewrite Htb. run_step.
    exists (Object (length (N0 ++ tb :: raw :: G)) (length (N0 ++ [tb]))),
           (tb :: raw :: G ++ [slice_but_last tb]), TG, IG.
    cbn [theta_ref adf_ref theta adf snd].
    replace (N0 ++ tb :: raw :: G ++ [slice_but_last tb])
      with ((N0 ++ tb :: raw :: G) ++ [slice_but_last tb])
      by (rewrite <- app_assoc; reflexivity).
    split; [reflexivity|]. split; [apply nth_error_app_here|].
    split; [apply nth_error_app_some; exact Hadf|].
    rewrite !length_app. cbn [length]. lia.
  - unfold bind, get_numbers, new_numbers, ret. run_step.
    rewrite Hadf. run_step. rewrite (nth_error_app_some _ _ _ Htb). run_step.
    set (normalized := map _ raw).
    exists (Object (length ((N0 ++ tb :: raw :: G) ++ [normalized]))
                   (length (N0 ++ tb :: raw :: G))),
           (tb :: raw :: G ++ [normalized; slice_but_last tb]), TG, IG.
    cbn [theta_ref adf_ref theta adf snd].
    replace (N0 ++ tb :: raw :: G ++ [normalized; slice_but_last tb])
      with (((N0 ++ tb :: raw :: G) ++ [normalized]) ++ [slice_but_last tb])
      by (rewrite <- !app_assoc; reflexivity).
    split; [reflexivity|]. split; [apply nth_error_app_here|].
    split; [apply nth_error_app_some, nth_error_app_here|].
    rewrite !length_app. cbn [length]. lia.
Qed.

(** Any call: what it returns is what [call_computeADF] returns on the values
    the references hold; the arrays that existed are as they were, new ones
    are added after them, and the returned ones are among the new; a call
    that throws leaves the memory as it was. *)
Lemma computeADF_in_spec (acos : float -> float) (pa ba : nat) (rMax numBins : float)
      (ps : list vec3) (box : vec3) (m : memory) :
  holds m pa ba ps box ->
  let run := computeADF_in acos pa ba rMax numBins m in
  match call_computeADF acos ps box rMax numBins (outside m) with
  | Normal (r, w') => returned run = Normal r /\ outside (snd run) = w'
  | Throw e => returned run = Throw e /\ snd run = m
  end /\
  (exists N T I, numbers (snd run) = numbers m ++ N /\ tables (snd run) = tables m ++ T /\
                 index_arrays (snd run) = index_arrays m ++ I) /\
  (forall o, fst run = Normal o ->
             length (numbers m) <= theta_ref o /\ length (numbers m) <= adf_ref o /\
             theta_ref o <> adf_ref o).
Proof.
  intros H run. destruct m as [N0 T0 I0 w]. cbn [outside numbers tables index_arrays].
  unfold call_computeADF. destruct (array_length_ok numBins) eqn:Hok.
  - destruct (@computeADF_in_run acos pa ba rMax numBins ps box N0 T0 I0 w H Hok)
      as (o & G & TG & IG & E & Ht & Ha & L1 & L2 & D).
    unfold run. rewrite E. cbn [fst snd numbers tables index_arrays outside].
    split; [|split].
    + assert (Ef : fst (computeADF_run acos ps box rMax (Z.to_nat (floorZ numBins)) w)
                   = computeADF acos ps box rMax (Z.to_nat (floorZ numBins))).
      { unfold computeADF_run. destruct (_ === _)%js; reflexivity. }
      destruct (computeADF_run acos ps box rMax (Z.to_nat (floorZ numBins)) w) as [r w'].
      cbn [fst snd] in *. subst r. split; [|reflexivity].
      unfold returned. cbn [numbers]. rewrite Ht, Ha.
      destruct (computeADF acos ps box rMax (Z.to_nat (floorZ numBins))); reflexivity.
    + exists G, TG, IG. auto.
    + intros o' Eo. inversion Eo; subst o'. auto.
  - destruct H as [(rows & HT & _) _]. cbn [tables] in HT.
    assert (E : run = (Throw RangeError, Memory N0 T0 I0 w)).
    { unfold run, computeADF_in. unfold bind at 1. unfold get_table at 1. run_step.
      rewrite HT, Hok. reflexivity. }
    rewrite E. cbn [fst snd numbers tables index_arrays outside returned].
    split; [split; reflexivity|]. split.
    + exists [], [], []. rewrite !app_nil_r. auto.
    + intros o Eo. discriminate Eo.
Qed.

(** The value of a call does not depend on the world it is made in. *)
Lemma call_computeADF_value (acos : float -> float) (ps : list vec3) (box : vec3)
      (rMax numBins : float) (w w2 : world) :
  match call_computeADF acos ps box rMax numBins w with
  | Normal (r, _) => Normal r
  | Throw e => Throw e
  end
  = match call_computeADF acos ps box rMax numBins w2 with
    | Normal (r, _) => Normal r
    | Throw e => Throw e
    end.
Proof.
  unfold call_computeADF, computeADF_run.
  destruct (array_length_ok numBins); [|reflexivity].
  destruct (_ === _)%js; reflexivity.
Qed.

Lemma returned_value (acos : float -> float) (pa ba : nat) (rMax numBins : float)
      (ps : list vec3) (box : vec3) (m : memory) :
  holds m pa ba ps box ->
  returned (computeADF_in acos pa ba rMax numBins m)
  = match call_computeADF acos ps box rMax numBins (outside m) with
    | Normal (r, _) => Normal r
    | Throw e => Throw e
    end.
Proof.
  intros H. destruct (@computeADF_in_spec acos pa ba rMax numBins ps box m H) as [V _].
  destruct (call_computeADF acos ps box rMax numBins (outside m)) as [[r w']|e];
    exact (proj1 V).
Qed.

(** C10. [computeADF] is a function of the values of
    [(positions, boxSize, rMax, numBins)] alone. Called on two references to
    arrays that hold the positions and the box, in any memory, it returns
    (or throws) what [call_computeADF] gives for those values; a call in
    another memory that holds the same values at other references, in
    another state of the world, returns the same [theta] and [adf]. The call
    changes no array that existed before it, so its inputs hold what they
    held; the arrays it makes are added after them, and the two it returns
    are among the new ones; it leaves [chartInstance] as it was and writes at
    most the warning. A second call made in the memory the first one left
    returns what the first returned. *)
Theorem C10_pure_and_deterministic (acos : float -> float) (rMax numBins : float)
        (positions : list vec3) (boxSize : vec3)
        (m : memory) (pa ba : nat) (m2 : memory) (pa2 ba2 : nat) :
  holds m pa ba positions boxSize ->
  holds m2 pa2 ba2 positions boxSize ->
  let run := computeADF_in acos pa ba rMax numBins m in
  let m' := snd run in
  match call_computeADF acos positions boxSize rMax numBins (outside m) with
  | Normal (r, w') => returned run = Normal r /\ outside m' = w'
  | Throw e => returned run = Throw e /\ m' = m
  end /\
  returned (computeADF_in acos pa2 ba2 rMax numBins m2) = returned run /\
  (exists N T I, numbers m' = numbers m ++ N /\ tables m' = tables m ++ T /\
                 index_arrays m' = index_arrays m ++ I) /\
  holds m' pa ba positions boxSize /\
  chartInstance (outside m') = chartInstance (outside m) /\
  (exists msgs, console (outside m') = console (outside m) ++ msgs) /\
  (forall o, fst run = Normal o ->
             length (numbers m) <= theta_ref o /\ length (numbers m) <= adf_ref o /\
             theta_ref o <> adf_ref o) /\
  returned (computeADF_in acos pa ba rMax numBins m') = returned run.
Proof.
  intros H H2 run m'.
  destruct (@computeADF_in_spec acos pa ba rMax numBins positions boxSize m H)
    as (V & Fr & New). fold run in V, Fr, New. fold m' in V, Fr.
  assert (H' : holds m' pa ba positions boxSize).
  { destruct Fr as (N & T & I & EN & ET & EI). destruct m as [N0 T0 I0 w].
    destruct m' as [N' T' I' w']. cbn [numbers tables index_arrays] in EN, ET, EI.
    subst N' T'. exact (@holds_grown N0 N T0 T I0 I' w w' pa ba positions boxSize H). }
  assert (W : outside m' = outside m \/
              outside m' = World (chartInstance (outside m))
                                 (console (outside m) ++ [no_angles_warning])).
  { revert V. unfold call_computeADF, computeADF_run.
    destruct (array_length_ok numBins).
    - destruct (_ === _)%js; intros [_ ->]; auto.
    - intros [_ ->]. auto. }
  split; [exact V|]. split.
  { rewrite (returned_value acos rMax numBins H2). unfold run.
    rewrite (returned_value acos rMax numBins H). apply call_computeADF_value. }
  split; [exact Fr|]. split; [exact H'|]. split.
  { destruct W as [-> | ->]; reflexivity. }
  split.
  { destruct W as [-> | ->]; [exists []; rewrite app_nil_r|eexists]; reflexivity. }
  split; [exact New|].
  rewrite (returned_value acos rMax numBins H'). unfold run.
  rewrite (returned_value acos rMax numBins H). apply call_computeADF_value.
Qed.

Lemma C10_pure_and_deterministic_witness :
  holds right_angle_memory 0 3 right_angle box100 /\
  holds other_memory 1 0 right_angle box100 /\
  returned (computeADF_in acos_sample 1 0 (dec 12 1) (of_Z 4) other_memory)
  = returned (computeADF_in acos_sample 0 3 (dec 12 1) (of_Z 4) right_angle_memory) /\
  holds (snd (computeADF_in acos_sample 0 3 (dec 12 1) (of_Z 4) right_angle_memory))
        0 3 right_angle box100.
Proof.
  assert (H : holds right_angle_memory 0 3 right_angle box100).
  { split.
    - exists [0; 1; 2]. split; [reflexivity|].
      repeat constructor; eexists; split; reflexivity.
    - exists (row3 box100). split; reflexivity. }
  assert (H2 : holds other_memory 1 0 right_angle box100).
  { split.
    - exists [4; 3; 1]. split; [reflexivity|].
      repeat constructor; eexists; split; reflexivity.
    - exists (row3 box100). split; reflexivity. }
  split; [exact H|]. split; [exact H2|].
  pose proof (@C10_pure_and_deterministic acos_sample (dec 12 1) (of_Z 4) right_angle box100
                right_angle_memory 0 3 other_memory 1 0 H H2) as T.
  cbv zeta in T. destruct T as (_ & D & _ & K & _).
  split; [exact D|exact K].
Defined.

Example computeADF_in_runs :
  returned (computeADF_in acos_sample 0 3 (dec 12 1) (of_Z 4) right_angle_memory)
  = Normal (computeADF acos_sample right_angle box100 (dec 12 1) 4).
Proof. vm_compute. reflexivity. Qed.
